(** * Systole: peak detection and RR-artefact classification

    A shallow embedding of [systole/detection.py]: the three detection
    pipelines ([ppg_peaks], [ecg_peaks], [rsp_peaks]), the artefact
    classifier [rr_artefacts] and the clipping corrector
    [interpolate_clipping]; and of what their callers under
    [systole/plots] compute before they plot: the detection step and the
    bad segments of [plot_raw], the checks of [plot_rr].

    Conventions.
    - A NumPy [float64] is a value of [f64]: an exact rational or one of the
      IEEE special values.  Rounding to a double is modelled where a float
      decides a size or an index ([np.arange], [int(...)]), by [round64];
      the other arithmetic is exact.  Overflow and the sign of zero are not
      modelled; division by zero, NaN propagation and NaN comparing false
      are.
    - A Python exception is a value of [exn]; a call that may raise returns a
      [result].
    - An array is the list of its samples; where the caller's array may
      be written to ([interpolate_clipping]) arrays live in a store and are
      passed by reference.
    - Functions of NumPy, pandas and SciPy are written out from their
      documented behaviour.  Functions of [systole.utils] and
      [systole.detectors], the [sleepecg] detector, SciPy's [interp1d] and
      the square root are fields of [Collaborators]: every theorem holds
      whatever they compute. *)

From stdpp Require Import base option list sorting gmap strings.
From Stdlib Require Import ZArith QArith Qabs Qround Lia.

Local Open Scope Z_scope.

(** ** Exceptions and results *)

Inductive exn :=
| ValueError (msg : string)
| IndexError (msg : string)
| ZeroDivisionError
| UnboundLocalError (var : string)
| NotImplementedError (msg : string).

Inductive result (A : Type) :=
| Ok (a : A)
| Err (e : exn).
Arguments Ok {A} a.
Arguments Err {A} e.

#[global] Instance result_ret : MRet result := fun _ a => Ok a.
#[global] Instance result_bind : MBind result := fun _ _ f m =>
  match m with Ok a => f a | Err e => Err e end.
#[global] Instance result_fmap : FMap result := fun _ _ f m =>
  match m with Ok a => Ok (f a) | Err e => Err e end.

Definition is_ok {A} (r : result A) : bool :=
  match r with Ok _ => true | Err _ => false end.

(** ** Floating-point values *)

Inductive f64 :=
| Fin (q : Q)
| PInf
| NInf
| NaN.

Definition fin (q : Q) : f64 := Fin (Qred q).
Definition of_Z (z : Z) : f64 := Fin (inject_Z z).

Definition Qsgn (q : Q) : Z := Z.sgn (Qnum q).

Definition isnan (x : f64) : bool := match x with NaN => true | _ => false end.
Definition isinf (x : f64) : bool :=
  match x with PInf | NInf => true | _ => false end.
Definition isfinite (x : f64) : bool := match x with Fin _ => true | _ => false end.

Definition fneg (x : f64) : f64 :=
  match x with
  | Fin q => fin (- q)
  | PInf => NInf
  | NInf => PInf
  | NaN => NaN
  end.

Definition fadd (x y : f64) : f64 :=
  match x, y with
  | NaN, _ | _, NaN => NaN
  | Fin a, Fin b => fin (a + b)
  | PInf, NInf | NInf, PInf => NaN
  | PInf, _ | _, PInf => PInf
  | NInf, _ | _, NInf => NInf
  end.

Definition fsub (x y : f64) : f64 := fadd x (fneg y).

(** The sign of a value, for the rules of multiplication and division. *)
Definition fsgn (x : f64) : Z :=
  match x with
  | Fin q => Qsgn q
  | PInf => 1
  | NInf => -1
  | NaN => 0
  end.

Definition inf_of_sign (s : Z) : f64 :=
  match s with
  | Z0 => NaN
  | Zpos _ => PInf
  | Zneg _ => NInf
  end.

Definition fmul (x y : f64) : f64 :=
  match x, y with
  | NaN, _ | _, NaN => NaN
  | Fin a, Fin b => fin (a * b)
  | _, _ => inf_of_sign (fsgn x * fsgn y)
  end.

(** Division by zero gives an infinity of the sign of the numerator, and
    0/0 gives NaN (the divisor is taken as +0). *)
Definition fdiv (x y : f64) : f64 :=
  match x, y with
  | NaN, _ | _, NaN => NaN
  | Fin a, Fin b =>
      if Qeq_bool b 0 then inf_of_sign (Qsgn a) else fin (a / b)
  | Fin _, _ => Fin 0
  | _, Fin b => if Qeq_bool b 0 then x else inf_of_sign (fsgn x * Qsgn b)
  | _, _ => NaN
  end.

Definition fabs (x : f64) : f64 :=
  match x with
  | Fin q => fin (Qabs q)
  | PInf | NInf => PInf
  | NaN => NaN
  end.

(** Comparisons: every comparison with NaN is false. *)
Definition flt (x y : f64) : bool :=
  match x, y with
  | NaN, _ | _, NaN => false
  | Fin a, Fin b => match Qcompare a b with Lt => true | _ => false end
  | Fin _, PInf | NInf, Fin _ | NInf, PInf => true
  | _, _ => false
  end.

Definition feq (x y : f64) : bool :=
  match x, y with
  | Fin a, Fin b => Qeq_bool a b
  | PInf, PInf | NInf, NInf => true
  | _, _ => false
  end.

Definition fle (x y : f64) : bool := flt x y || feq x y.
Definition fgt (x y : f64) : bool := flt y x.
Definition fge (x y : f64) : bool := fle y x.

(** [np.max([a, b])] and [np.min([a, b])]: NaN propagates. *)
Definition np_max2 (a b : f64) : f64 :=
  if isnan a || isnan b then NaN else if flt a b then b else a.
Definition np_min2 (a b : f64) : f64 :=
  if isnan a || isnan b then NaN else if flt b a then b else a.

(** [np.sign]. *)
Definition np_sign (x : f64) : f64 :=
  match x with
  | NaN => NaN
  | _ => of_Z (fsgn x)
  end.

(** Python's [int(x)] on a float: truncation towards zero. *)
Definition Qtrunc (q : Q) : Z := Z.quot (Qnum q) (Zpos (Qden q)).

(** [n / d] rounded to the nearest integer, ties to even, for [0 < d]. *)
Definition round_half_even (n d : Z) : Z :=
  let q := n / d in
  match 2 * (n mod d) ?= d with
  | Lt => q
  | Gt => q + 1
  | Eq => if Z.even q then q else q + 1
  end.

(** The double nearest to [q], ties to even: a significand of 53 bits
    times a power of two, the exponent not below -1074.  This is what a
    float literal, an [int / int] division, an [int * float] product or a
    [float / float] division of the source evaluates to. *)
Definition round64 (q : Q) : Q :=
  match Qnum q with
  | Z0 => 0
  | n =>
      let a := Z.abs n in
      let b := Zpos (Qden q) in
      let e := Z.log2 a - Z.log2 b - 52 in
      let e :=
        if a * 2 ^ Z.max 0 (- e) <? 2 ^ 52 * (b * 2 ^ Z.max 0 e)
        then e - 1 else e in
      let e := Z.max e (-1074) in
      let m := round_half_even (a * 2 ^ Z.max 0 (- e)) (b * 2 ^ Z.max 0 e) in
      Qred (inject_Z (Z.sgn n * m) * Qpower 2 e)
  end.

Declare Scope f64_scope.
Delimit Scope f64_scope with F.
Bind Scope f64_scope with f64.
Infix "+" := fadd : f64_scope.
Infix "-" := fsub : f64_scope.
Infix "*" := fmul : f64_scope.
Infix "/" := fdiv : f64_scope.
Notation "- x" := (fneg x) : f64_scope.
Infix "<?" := flt : f64_scope.
Infix "<=?" := fle : f64_scope.
Infix ">?" := fgt : f64_scope.
Infix ">=?" := fge : f64_scope.

(** Decimal literals of the source, as exact rationals. *)
Definition dec (n : Z) (d : positive) : Q := Qmake n d.

(** ** NumPy arrays and elementwise helpers *)

(** The interval series handed to the classifier keeps its dtype: an array
    of Python ints (or [np.diff] of peak indices) is an [int64] array. *)
Inductive ndarray :=
| IntArray (l : list Z)
| FloatArray (l : list f64).

Definition values (a : ndarray) : list f64 :=
  match a with
  | IntArray l => of_Z <$> l
  | FloatArray l => l
  end.

(** Reading [a[i]] where the source guarantees the index is in range. *)
Definition at_ (l : list f64) (i : nat) : f64 := default NaN (l !! i).

Definition fsum (l : list f64) : f64 := foldl fadd (Fin 0) l.

(** [a.mean()]: the mean of an empty array is NaN (0/0). *)
Definition np_mean (l : list f64) : f64 :=
  fdiv (fsum l) (of_Z (Z.of_nat (length l))).

(** [np.diff(a, prepend=0)]. *)
Definition np_diff_prepend0 (l : list f64) : list f64 :=
  zip_with fsub l (Fin 0 :: l).

(** [np.diff(a)] on an integer array. *)
Definition np_diff (l : list Z) : list Z :=
  zip_with Z.sub (drop 1 l) l.

(** Sorting, NaN last as NumPy does. *)
Definition sort_le (x y : f64) : bool := isnan y || fle x y.

Fixpoint insert_sorted (x : f64) (l : list f64) : list f64 :=
  match l with
  | [] => [x]
  | y :: l' => if sort_le x y then x :: l else y :: insert_sorted x l'
  end.

Definition np_sort (l : list f64) : list f64 := foldr insert_sorted [] l.

Definition median_sorted (s : list f64) : f64 :=
  let n := length s in
  if (n =? 0)%nat then NaN
  else if Nat.odd n then at_ s (n / 2)
  else fdiv (fadd (at_ s (n / 2 - 1)) (at_ s (n / 2))) (Fin 2).

(** [np.median(a)]: NaN as soon as the array holds one. *)
Definition np_median (l : list f64) : f64 :=
  if existsb isnan l then NaN else median_sorted (np_sort l).

(** A quantile with linear interpolation between the two nearest ranks. *)
Definition quantile_sorted (q : Q) (s : list f64) : f64 :=
  let n := length s in
  if (n =? 0)%nat then NaN
  else
    let pos := (q * inject_Z (Z.of_nat (n - 1)))%Q in
    let idx := Qfloor pos in
    let lo := at_ s (Z.to_nat idx) in
    if Qeq_bool pos (inject_Z idx) then lo
    else
      let hi := at_ s (Z.to_nat idx + 1) in
      fadd lo (fmul (fsub hi lo) (fin (pos - inject_Z idx))).

(** ** pandas rolling windows

    [rolling(w, center=True, min_periods=minp)]: the window of sample [i] is
    [i + 1 + offset - w, i + offset] cut to the series, [offset = (w-1)//2].
    Non-finite observations are skipped; with fewer than [minp] observations
    left the statistic is NaN. *)

Definition window_bounds (w n i : nat) : nat * nat :=
  let e := (i + 1 + (w - 1) / 2)%nat in
  ((e - w)%nat, Nat.min e n).

Definition window_obs (w : nat) (l : list f64) (i : nat) : list f64 :=
  let '(s, e) := window_bounds w (length l) i in
  List.filter isfinite (take (e - s) (drop s l)).

Definition rolling (w minp : nat) (stat : list f64 -> f64) (l : list f64)
  : list f64 :=
  (fun i => let obs := window_obs w l i in
            if (minp <=? length obs)%nat then stat obs else NaN)
    <$> seq 0 (length l).

Definition rolling_quantile (w minp : nat) (q : Q) : list f64 -> list f64 :=
  rolling w minp (fun obs => quantile_sorted q (np_sort obs)).

Definition rolling_median (w minp : nat) : list f64 -> list f64 :=
  rolling w minp (fun obs => median_sorted (np_sort obs)).

(** [rolling(w, center=True).mean()]: [min_periods] defaults to [w]. *)
Definition rolling_mean (w : nat) : list f64 -> list f64 :=
  rolling w w np_mean.

(** The sample variance ([ddof=1]) of a window; NaN on fewer than two
    observations. *)
Definition sample_var (obs : list f64) : f64 :=
  let n := length obs in
  if (n <=? 1)%nat then NaN
  else
    let m := np_mean obs in
    fdiv (fsum ((fun x => fmul (fsub x m) (fsub x m)) <$> obs))
         (of_Z (Z.of_nat (n - 1))).

Definition rolling_std (sqrt : f64 -> f64) (w : nat) : list f64 -> list f64 :=
  rolling w w (fun obs => sqrt (sample_var obs)).

(** [DataFrame.rolling(window)] refuses a negative window. *)
Definition rolling_window_arg (w : Z) : result nat :=
  if w <? 0 then Err (ValueError "window must be an integer 0 or greater")
  else Ok (Z.to_nat w).

(** [fillna(method="bfill")]: a NaN takes the next valid value, if any. *)
Fixpoint bfill (l : list f64) : list f64 :=
  match l with
  | [] => []
  | x :: l' =>
      let r := bfill l' in
      (if isnan x then match r with y :: _ => y | [] => x end else x) :: r
  end.

(** [fillna(method="ffill")]: a NaN takes the last valid value before it. *)
Fixpoint ffill_from (prev : f64) (l : list f64) : list f64 :=
  match l with
  | [] => []
  | x :: l' => let y := if isnan x then prev else x in y :: ffill_from y l'
  end.

Definition ffill (l : list f64) : list f64 := ffill_from NaN l.

(** ** Boolean masks *)

(** [a[mask] = src[mask]]: both Boolean indexings need a mask as long as the
    array it indexes. *)
Definition np_putmask {A} (a : list A) (mask : list bool) (src : list A)
  : result (list A) :=
  if decide (length mask = length src ∧ length mask = length a)
  then Ok (zip_with (fun '(x, y) (m : bool) => if m then y else x)
                    (zip a src) mask)
  else Err (IndexError "boolean index did not match indexed array").

(** [a[mask] = False]. *)
Definition mask_clear (a mask : list bool) : list bool :=
  zip_with (fun (x m : bool) => if m then false else x) a mask.

(** [a[lo:hi] = v] on in-range bounds. *)
Definition set_range {A} (a : list A) (lo hi : nat) (v : A) : list A :=
  imap (fun i x => if ((lo <=? i) && (i <? hi))%nat then v else x) a.

(** What indexing a Boolean array gives is a [numpy.bool_] scalar, an
    object of its own; Python's [True] and [False] are two other objects. *)
Inductive pyobj :=
| PyBool (b : bool)
| NpBool (b : bool).

(** [o is True]: identity with the object [True]. *)
Definition is_True (o : pyobj) : bool :=
  match o with
  | PyBool true => true
  | _ => false
  end.

Definition getitem_bool (a : list bool) (i : nat) : option pyobj :=
  NpBool <$> a !! i.

(** ** Collaborators

    Functions the pipelines call and whose code is elsewhere:
    [systole.utils], [systole.detectors], [sleepecg], SciPy's [interp1d]
    and the square root behind [std]. *)

Record Collaborators := {
  nan_cleaning : list f64 -> result (list f64);
  find_clipping : list f64 -> result (option f64 * option f64);
  input_conversion : ndarray -> string -> string -> result ndarray;
  to_neighbour : list f64 -> list bool -> Z -> result (list bool);
  detect_heartbeats : list f64 -> Z -> result (list Z);
  hamilton : list f64 -> Z -> result (list Z);
  christov : list f64 -> Z -> result (list Z);
  engelse_zeelenberg : list f64 -> Z -> result (list Z);
  pan_tompkins : list f64 -> Z -> result (list Z);
  moving_average : list f64 -> Z -> result (list Z);
  interp1d : list f64 -> list f64 -> string -> result (f64 -> result f64);
  sqrt : f64 -> f64
}.

(** ** The artefact classifier: [rr_artefacts] *)

Record ArtefactReport := {
  subspace1 : list f64;
  subspace2 : list f64;
  subspace3 : list f64;
  mRR : list f64;
  ectopic : list bool;
  long : list bool;
  short : list bool;
  missed : list bool;
  extra : list bool;
  threshold1 : list f64;
  threshold2 : list f64
}.

(** Storing a float in an [int64] array. *)
Definition cast_int (x : f64) : result Z :=
  match x with
  | Fin q => Ok (Qtrunc q)
  | NaN => Err (ValueError "cannot convert float NaN to integer")
  | _ => Err (ValueError "cannot convert float infinity to integer")
  end.

(** [dRR = np.diff(rr, prepend=0); dRR[0] = dRR[1:].mean()].  The array
    keeps the dtype of [rr], so on integers the mean is truncated. *)
Definition first_differences (rr : ndarray) : result (list f64) :=
  let dRR := np_diff_prepend0 (values rr) in
  let m := np_mean (drop 1 dRR) in
  match dRR with
  | [] => Err (IndexError "index 0 is out of bounds for axis 0 with size 0")
  | _ :: tl =>
      match rr with
      | FloatArray _ => Ok (m :: tl)
      | IntArray _ => v ← cast_int m; Ok (of_Z v :: tl)
      end
  end.

(** [alpha * ((q3 - q1) / 2)] over the rolling quartiles of [x]. *)
Definition rolling_threshold (alpha : Q) (x : list f64) : list f64 :=
  let q1 := rolling_quantile 91 1 (dec 1 4) x in
  let q3 := rolling_quantile 91 1 (dec 3 4) x in
  zip_with (fun a b => fmul (Fin alpha) (fdiv (fsub a b) (Fin 2))) q3 q1.

(** One turn of the inner loop of "Test if next interval is also outlier". *)
Definition extend_step (s11 : list f64) (cond : list bool) (i : nat)
  : list bool :=
  match getitem_bool cond i with
  | Some o =>
      if is_True o then
        if flt (fabs (at_ s11 (i + 1))) (fabs (at_ s11 (i + 2)))
        then <[(i + 1)%nat := true]> cond
        else cond
      else cond
  | None => cond
  end.

(** [for i in range(len(cond) - 2): ...] on one of the two masks. *)
Definition extend_outliers (s11 : list f64) (cond : list bool) : list bool :=
  foldl (extend_step s11) cond (seq 0 (length cond - 2)).

(** The long and short masks as first decided (lines 584-585). *)
Definition long_short_decision (s11 s22 mRR rr : list f64)
  : list bool * list bool :=
  let med := np_median rr in
  let big := (fun m => fgt (fabs m) (Fin 3)) <$> mRR in
  let longBeats :=
    zip_with orb
      (zip_with (fun a b => fgt a (Fin 1) && flt b (Fin (-1))) s11 s22)
      (zip_with (fun (m : bool) r => m && fgt r med) big rr) in
  let shortBeats :=
    zip_with orb
      (zip_with (fun a b => flt a (Fin (-1)) && fgt b (Fin 1)) s11 s22)
      (zip_with (fun (m : bool) r => m && fle r med) big rr) in
  (longBeats, shortBeats).

(** The three subspaces, [mRR], [medRR] and the two thresholds. *)
Record Subspaces := {
  sp_s11 : list f64;
  sp_s12 : list f64;
  sp_s22 : list f64;
  sp_mRR : list f64;
  sp_medRR : list f64;
  sp_th1 : list f64;
  sp_th2 : list f64
}.

(** The "Detection" half of [rr_artefacts] (lines 522-569). *)
Definition subspaces (rr : ndarray) (alpha : Q) : result Subspaces :=
  let rrv := values rr in
  (* Subspace 1 *)
  dRR ← first_differences rr;
  let th1 := rolling_threshold alpha (fabs <$> dRR) in
  let dRR := zip_with fdiv dRR th1 in
  let s11 := dRR in
  (* mRRs time serie *)
  let medRR := rolling_median 11 1 rrv in
  let mRR := zip_with fsub rrv medRR in
  let mRR := (fun m => if flt m (Fin 0) then fmul (Fin 2) m else m) <$> mRR in
  let th2 := rolling_threshold alpha (fabs <$> mRR) in
  let mRR := zip_with fdiv mRR th2 in
  (* Subspace 2 *)
  let n := length dRR in
  let ma := [Fin 0]
            ++ ((fun i => np_max2 (at_ dRR (i - 1)) (at_ dRR (i + 1)))
                  <$> seq 1 (n - 1 - 1))
            ++ [Fin 0] in
  let mi := [Fin 0]
            ++ ((fun i => np_min2 (at_ dRR (i - 1)) (at_ dRR (i + 1)))
                  <$> seq 1 (n - 1 - 1))
            ++ [Fin 0] in
  s12 ← np_putmask ma ((fun d => flt d (Fin 0)) <$> dRR) mi;
  (* Subspace 3 *)
  let ma := ((fun i => np_max2 (at_ dRR (i + 1)) (at_ dRR (i + 2)))
               <$> seq 0 (n - 2))
            ++ [Fin 0; Fin 0] in
  let mi := ((fun i => np_min2 (at_ dRR (i + 1)) (at_ dRR (i + 2)))
               <$> seq 0 (n - 2))
            ++ [Fin 0; Fin 0] in
  s22 ← np_putmask ma ((fun d => fge d (Fin 0)) <$> dRR) mi;
  Ok {| sp_s11 := s11; sp_s12 := s12; sp_s22 := s22; sp_mRR := mRR;
        sp_medRR := medRR; sp_th1 := th1; sp_th2 := th2 |}.

(** The "Decision" half (lines 575-626).  Every array here has the length
    of [rr], which [subspaces] has checked to be at least two. *)
Definition decide_artefacts (rr : ndarray) (c1 c2 : Q) (sp : Subspaces)
  : ArtefactReport :=
  let rrv := values rr in
  let s11 := sp_s11 sp in
  let s12 := sp_s12 sp in
  let s22 := sp_s22 sp in
  let th2 := sp_th2 sp in
  let medRR := sp_medRR sp in
  let n := length s11 in
  (* Find ectobeats *)
  let cond1 :=
    zip_with (fun a b =>
                fgt a (Fin 1)
                && flt b (fsub (fmul (Fin (- c1)) a) (Fin c2))) s11 s12 in
  let cond2 :=
    zip_with (fun a b =>
                flt a (Fin (-1))
                && fgt b (fadd (fmul (Fin (- c1)) a) (Fin c2))) s11 s12 in
  let ectopic := zip_with orb cond1 cond2 in
  let ectopic := set_range ectopic (n - 2) n false in
  let ectopic := set_range ectopic 0 2 false in
  (* Find long or shorts *)
  let '(longBeats, shortBeats) :=
    long_short_decision s11 s22 (sp_mRR sp) rrv in
  (* Test if next interval is also outlier *)
  let longBeats := extend_outliers s11 longBeats in
  let shortBeats := extend_outliers s11 shortBeats in
  (* Ectopic beats are not considered as short or long *)
  let shortBeats := mask_clear shortBeats ectopic in
  let longBeats := mask_clear longBeats ectopic in
  (* Missed vector *)
  let missed :=
    zip_with (fun d t => flt (fabs d) t)
      (zip_with fsub ((fun r => fdiv r (Fin 2)) <$> rrv) medRR) th2 in
  let missed := zip_with andb missed longBeats in
  let longBeats := mask_clear longBeats missed in
  (* Etra vector *)
  let extra :=
    zip_with (fun d t => flt (fabs d) t)
      (zip_with fsub (zip_with fadd rrv (drop 1 rrv ++ [Fin 0])) medRR)
      th2 in
  let extra := zip_with andb extra shortBeats in
  let shortBeats := mask_clear shortBeats extra in
  (* No short or long intervals at time serie edges *)
  let shortBeats := <[(n - 1)%nat := false]> (<[0%nat := false]> shortBeats) in
  let longBeats := <[(n - 1)%nat := false]> (<[0%nat := false]> longBeats) in
  {| subspace1 := s11; subspace2 := s12; subspace3 := s22;
     mRR := sp_mRR sp; ectopic := ectopic; long := longBeats;
     short := shortBeats; missed := missed; extra := extra;
     threshold1 := sp_th1 sp; threshold2 := th2 |}.

Definition rr_artefacts (C : Collaborators) (rr : ndarray)
    (c1 c2 alpha : Q) (input_type : string) : result ArtefactReport :=
  rr ← (if decide (input_type = "rr_ms") then Ok rr
        else input_conversion C rr input_type "rr_ms");
  sp ← subspaces rr alpha;
  Ok (decide_artefacts rr c1 c2 sp).

(** The defaults of [rr_artefacts]: [c1=0.13, c2=0.17, alpha=5.2]. *)
Definition rr_artefacts_default (C : Collaborators) (rr : ndarray)
  : result ArtefactReport :=
  rr_artefacts C rr (dec 13 100) (dec 17 100) (dec 52 10) "rr_ms".

(** ** The clipping corrector: [interpolate_clipping]

    The caller's arrays live in a store; [np.asarray] of an array is that
    same array, [np.asarray] of a Python list is a new one. *)

Abbreviation loc := positive.
Abbreviation heap := (gmap positive (list f64)).

Inductive pysignal :=
| PyList (l : list f64)
| NdArray (r : loc).

Definition alloc (a : list f64) (h : heap) : loc * heap :=
  let r := fresh (dom h) in (r, <[r := a]> h).

(** What the argument holds, whichever way it was passed. *)
Definition contents (signal : pysignal) (h : heap) : option (list f64) :=
  match signal with
  | PyList l => Some l
  | NdArray r => h !! r
  end.

Definition asarray (signal : pysignal) (h : heap) : loc * heap :=
  match signal with
  | PyList l => alloc l h
  | NdArray r => (r, h)
  end.

(** [np.arange(0, n)]. *)
Definition np_arange_int (n : nat) : list f64 :=
  (fun i : nat => of_Z (Z.of_nat i)) <$> seq 0 n.

(** The "security check for clipping at signal edge":
    [if a[0] == thr: a[0] = new] then [if a[-1] == thr: a[-1] = new]. *)
Definition nudge_edges (a : list f64) (thr new : f64) : result (list f64) :=
  match a with
  | [] => Err (IndexError "index 0 is out of bounds for axis 0 with size 0")
  | x0 :: _ =>
      let a1 := if feq x0 thr then <[0%nat := new]> a else a in
      let last := (length a1 - 1)%nat in
      Ok (if feq (at_ a1 last) thr then <[last := new]> a1 else a1)
  end.

(** One of the two correction blocks: [upper] for [max_threshold] (keep the
    samples below it, nudge by -1), otherwise for [min_threshold] (keep the
    samples above it, nudge by +1).  The nudge writes into the array [r]
    itself; the interpolated signal is a new array. *)
Definition correct_bound (C : Collaborators) (kind : string)
    (time : list f64) (upper : bool) (thr : f64) (r : loc) (h : heap)
  : result loc * heap :=
  match h !! r with
  | None => (Err (ValueError "no such array"), h)
  | Some a =>
      let new := if upper then fsub thr (Fin 1) else fadd thr (Fin 1) in
      match nudge_edges a thr new with
      | Err e => (Err e, h)
      | Ok a' =>
          let h := <[r := a']> h in
          let kept :=
            List.filter
              (fun p : f64 * f64 => if upper then flt p.2 thr else fgt p.2 thr)
              (zip time a') in
          match (f ← interp1d C kept.*1 kept.*2 kind; mapM f time) with
          | Err e => (Err e, h)
          | Ok clean =>
              let '(r', h) := alloc clean h in (Ok r', h)
          end
      end
  end.

Definition interpolate_clipping (C : Collaborators) (signal : pysignal)
    (min_threshold max_threshold : option f64) (kind : string) (h : heap)
  : result loc * heap :=
  match contents signal h with
  | None => (Err (ValueError "no such array"), h)
  | Some a =>
      let '(clean_signal, h) := asarray signal h in
      let time := np_arange_int (length a) in
      let '(res, h) :=
        match max_threshold with
        | Some thr => correct_bound C kind time true thr clean_signal h
        | None => (Ok clean_signal, h)
        end in
      match res with
      | Err e => (Err e, h)
      | Ok clean_signal =>
          match min_threshold with
          | Some thr => correct_bound C kind time false thr clean_signal h
          | None => (Ok clean_signal, h)
          end
      end
  end.

(** The call as [ppg_peaks] makes it: on an array of its own, reading the
    returned array. *)
Definition interpolate_clipping_array (C : Collaborators) (x : list f64)
    (min_threshold max_threshold : option f64) (kind : string)
  : result (list f64) :=
  let h : heap := {[ 1%positive := x ]} in
  match interpolate_clipping C (NdArray 1) min_threshold max_threshold kind h
  with
  | (Ok r, h') =>
      match h' !! r with
      | Some a => Ok a
      | None => Err (ValueError "no such array")
      end
  | (Err e, _) => Err e
  end.

(** ** Resampling *)

(** The number of points of [np.arange(0, stop, step)] on two doubles:
    the ceiling of [stop / step], a quotient of doubles and so rounded. *)
Definition arange_length (stop step : Q) : nat :=
  Z.to_nat (Qceiling (round64 (stop / step))).

(** [np.arange(0, stop, step)] on two doubles: point [k] is the product
    [k * step], rounded. *)
Definition np_arange (stop step : Q) : list f64 :=
  (fun k : nat => fin (round64 (inject_Z (Z.of_nat k) * step)))
    <$> seq 0 (arange_length stop step).

(** The segment of [xp] that holds [x], for [xp[0] <= x]. *)
Fixpoint interp_scan (xp fp : list f64) (x : f64) : f64 :=
  match xp, fp with
  | x0 :: ((x1 :: _) as xp'), y0 :: ((y1 :: _) as fp') =>
      if flt x x1 then
        if feq x0 x then y0
        else fadd (fmul (fdiv (fsub y1 y0) (fsub x1 x0)) (fsub x x0)) y0
      else interp_scan xp' fp' x
  | [_], [y0] => y0
  | _, _ => NaN
  end.

(** [np.interp(x, xp, fp)]: piecewise linear, constant outside [xp]. *)
Definition np_interp (x xp fp : list f64) : result (list f64) :=
  match xp with
  | [] => Err (ValueError "array of sample points is empty")
  | x0 :: _ =>
      if decide (length fp = length xp) then
        Ok ((fun v => if isnan v then v
                      else if flt v x0 then at_ fp 0
                      else interp_scan xp fp v) <$> x)
      else Err (ValueError "fp and xp are not of the same length.")
  end.

(** The head of the three pipelines: [np.asarray], the optional NaN
    cleaning, the resampling to [new_sfreq]. *)
Definition clean_and_resample (C : Collaborators) (signal : list f64)
    (sfreq new_sfreq : Z) (clean_nan : bool) : result (list f64) :=
  let x := signal in
  x ← (if clean_nan && existsb isnan x then nan_cleaning C x else Ok x);
  if decide (sfreq = new_sfreq) then Ok x
  else if sfreq =? 0 then Err ZeroDivisionError
  else
    let stop := round64 (inject_Z (Z.of_nat (length x)) / inject_Z sfreq) in
    let time := np_arange stop (round64 (1 / inject_Z sfreq)) in
    if new_sfreq =? 0 then Err ZeroDivisionError
    else
      let new_time := np_arange stop (round64 (1 / inject_Z new_sfreq)) in
      np_interp new_time time x.

(** ** SciPy's [find_peaks] *)

(** How many of the leading values equal [v]. *)
Fixpoint run_length (v : f64) (l : list f64) : nat :=
  match l with
  | y :: l' => if feq y v then S (run_length v l') else 0%nat
  | [] => 0%nat
  end.

(** Sample [m] is a local maximum: it is the middle (rounded down) of a
    plateau whose two outer neighbours exist and are strictly lower. *)
Definition is_local_max (x : list f64) (m : nat) : bool :=
  match x !! m with
  | None => false
  | Some v =>
      let left := (m - run_length v (rev (take m x)))%nat in
      let right := (m + run_length v (drop (S m) x))%nat in
      (1 <=? left)%nat
      && flt (at_ x (left - 1)) v
      && flt (at_ x (right + 1)) v
      && (m =? (left + right) / 2)%nat
  end.

Definition local_maxima (x : list f64) : list nat :=
  List.filter (is_local_max x) (seq 0 (length x)).

(** Positions of [priority] from the lowest to the highest, stable. *)
Fixpoint insert_by (priority : list f64) (j : nat) (l : list nat) : list nat :=
  match l with
  | [] => [j]
  | k :: l' =>
      if flt (at_ priority k) (at_ priority j) then k :: insert_by priority j l'
      else j :: l
  end.

Definition argsort (priority : list f64) : list nat :=
  foldr (insert_by priority) [] (seq 0 (length priority)).

(** Peak [j] is kept: drop every other peak closer than [distance]. *)
Definition clear_neighbours (peaks : list nat) (distance : Z)
    (keep : list bool) (j : nat) : list bool :=
  match keep !! j, peaks !! j with
  | Some true, Some pj =>
      imap (fun k (b : bool) =>
              match peaks !! k with
              | Some pk =>
                  if (negb (k =? j)%nat)
                     && (Z.abs (Z.of_nat pk - Z.of_nat pj) <? distance)
                  then false else b
              | None => b
              end) keep
  | _, _ => keep
  end.

(** The highest peaks choose first. *)
Definition select_by_peak_distance (peaks : list nat) (priority : list f64)
    (distance : Z) : list bool :=
  foldl (clear_neighbours peaks distance)
        (replicate (length peaks) true)
        (rev (argsort priority)).

(** [a[keep]] for a Boolean [keep]. *)
Definition compress {A} (keep : list bool) (a : list A) : list A :=
  omap (fun p : A * bool => if p.2 then Some p.1 else None) (zip a keep).

(** [find_peaks(x, height=height, distance=distance)[0]]. *)
Definition find_peaks (x : list f64) (height : f64) (distance : Z)
  : result (list nat) :=
  if distance <? 1
  then Err (ValueError "`distance` must be greater or equal to 1")
  else
    let peaks := local_maxima x in
    let peaks := List.filter (fun p => fle height (at_ x p)) peaks in
    let keep :=
      select_by_peak_distance peaks ((fun p => at_ x p) <$> peaks) distance in
    Ok (compress keep peaks).

(** ** Peak vectors *)

(** An integer index into an axis of length [n], negative ones from the end. *)
Definition np_index (n : nat) (i : Z) : result nat :=
  if (0 <=? i) && (i <? Z.of_nat n) then Ok (Z.to_nat i)
  else if (- Z.of_nat n <=? i) && (i <? 0) then Ok (Z.to_nat (i + Z.of_nat n))
  else Err (IndexError "index is out of bounds for axis 0").

(** [a[idx] = v] for an array of integer indices. *)
Definition set_at (a : list bool) (idx : list Z) (v : bool)
  : result (list bool) :=
  ks ← mapM (np_index (length a)) idx;
  Ok (foldl (fun (a : list bool) (k : nat) => <[k := v]> a) a ks).

(** [np.zeros(n, dtype=bool)]. *)
Definition np_zeros (n : nat) : list bool := replicate n false.

(** [np.where(a)[0]]. *)
Definition np_where (a : list bool) : list nat :=
  List.filter (fun i => default false (a !! i)) (seq 0 (length a)).

(** [a[mask]] for a Boolean [mask], which must be as long as [a]. *)
Definition boolean_index {A} (a : list A) (mask : list bool)
  : result (list A) :=
  if decide (length mask = length a) then Ok (compress mask a)
  else Err (IndexError "boolean index did not match indexed array").

(** ** The PPG pipeline: [ppg_peaks] *)

(** What may be passed as [clipping_thresholds]. *)
Inductive thresholds_arg :=
| ThrStr (s : string)
| ThrSeq (l : list (option f64))
| ThrOther.

Module PPG.
Record options := {
  win : Q;
  new_sfreq : Z;
  clipping : bool;
  clipping_thresholds : thresholds_arg;
  moving_average : bool;
  moving_average_length : Q;
  peak_enhancement : bool;
  distance : Q;
  clean_extra : bool;
  clean_nan : bool
}.

Definition defaults : options := {|
  win := dec 75 100;
  new_sfreq := 1000;
  clipping := true;
  clipping_thresholds := ThrStr "auto";
  moving_average := true;
  moving_average_length := dec 5 100;
  peak_enhancement := true;
  distance := dec 3 10;
  clean_extra := false;
  clean_nan := false
|}.
End PPG.

(** [int(new_sfreq * seconds)]: the rate is converted to a double, the
    product of the two doubles is rounded, and [int] truncates it. *)
Definition samples (sfreq : Z) (seconds : Q) : Z :=
  Qtrunc (round64 (round64 (inject_Z sfreq) * round64 seconds)).

(** Lines 139-155: the thresholds, then the correction. *)
Definition remove_clipping (C : Collaborators) (o : PPG.options)
    (x : list f64) : result (list f64) :=
  '(min_threshold, max_threshold) ←
    match PPG.clipping_thresholds o with
    | ThrStr "auto" => find_clipping C x
    | ThrSeq [lo; hi] => Ok (lo, hi)
    | ThrSeq [] =>
        Err (ValueError "not enough values to unpack (expected 2, got 0)")
    | ThrSeq [_] =>
        Err (ValueError "not enough values to unpack (expected 2, got 1)")
    | ThrSeq _ => Err (ValueError "too many values to unpack (expected 2)")
    | _ =>
        Err (ValueError
               "The variable clipping_thresholds should be a listor a tuple with length 2 or 'auto'.")
    end;
  interpolate_clipping_array C x min_threshold max_threshold "cubic".

(** Lines 122-183: the resampled signal, the thresholded signal and the
    indices found in it. *)
Definition ppg_candidates (C : Collaborators) (signal : list f64)
    (sfreq : Z) (o : PPG.options)
  : result (list f64 * list f64 * list nat) :=
  let new_sfreq := PPG.new_sfreq o in
  x ← clean_and_resample C signal sfreq new_sfreq (PPG.clean_nan o);
  (* Copy resampled signal for output *)
  let resampled_signal := x in
  (* Remove clipping artefacts with cubic interpolation *)
  x ← (if PPG.clipping o then remove_clipping C o x else Ok x);
  (* Moving average (high frequency noise) *)
  let x :=
    if PPG.moving_average o then
      let rollingNoise :=
        Z.max (samples new_sfreq (PPG.moving_average_length o)) 1 in
      rolling_mean (Z.to_nat rollingNoise) x
    else x in
  (* Square signal (peak enhancement) *)
  let x :=
    if PPG.peak_enhancement o
    then (fun v => fmul (fmul v v) (np_sign v)) <$> x
    else x in
  (* Compute moving average and standard deviation *)
  w ← rolling_window_arg (samples new_sfreq (PPG.win o));
  let mean_signal := rolling_mean w x in
  let std_signal := rolling_std (sqrt C) w x in
  (* Substract moving average + standard deviation *)
  let x := zip_with fsub x (zip_with fadd mean_signal std_signal) in
  (* Find positive peaks *)
  peaks_idx ← find_peaks x (Fin 0) (samples new_sfreq (PPG.distance o));
  Ok (resampled_signal, x, peaks_idx).

Definition ppg_peaks (C : Collaborators) (signal : list f64) (sfreq : Z)
    (o : PPG.options) : result (list f64 * list bool) :=
  '(resampled_signal, x, peaks_idx) ← ppg_candidates C signal sfreq o;
  (* Create boolean vector *)
  peaks ← set_at (np_zeros (length x)) (Z.of_nat <$> peaks_idx) true;
  (* Remove extra peaks *)
  if PPG.clean_extra o then
    let rr := np_diff (Z.of_nat <$> np_where peaks) in
    artefacts ← rr_artefacts_default C (IntArray rr);
    flagged ← boolean_index (drop 1 peaks_idx) (extra artefacts);
    peaks ← set_at peaks (Z.of_nat <$> flagged) false;
    Ok (resampled_signal, peaks)
  else Ok (resampled_signal, peaks).

(** ** The ECG pipeline: [ecg_peaks] *)

Module ECG.
Record options := {
  new_sfreq : Z;
  method : string;
  find_local : bool;
  win_size : Q;
  clean_nan : bool
}.

Definition defaults : options := {|
  new_sfreq := 1000;
  method := "sleepecg";
  find_local := false;
  win_size := dec 1 10;
  clean_nan := false
|}.
End ECG.

Definition invalid_method : exn :=
  ValueError
    "Invalid method provided, should be: sleepecg, hamilton, christov, engelse-zeelenberg, pan-tompkins, wavelet-transform, moving-average".

(** The names the [if]/[elif] chain of [ecg_peaks] knows. *)
Definition methods : list string :=
  ["sleepecg"; "hamilton"; "christov"; "engelse-zeelenberg"; "pan-tompkins";
   "moving-average"].

(** Lines 307-313: from the detected indices to the peak vector. *)
Definition ecg_finish (C : Collaborators) (o : ECG.options)
    (resampled_signal : list f64) (peaks_idx : list Z)
  : result (list f64 * list bool) :=
  peaks ← set_at (np_zeros (length resampled_signal)) peaks_idx true;
  peaks ← (if ECG.find_local o
           then to_neighbour C resampled_signal peaks
                  (samples (ECG.new_sfreq o) (ECG.win_size o))
           else Ok peaks);
  Ok (resampled_signal, peaks).

Definition ecg_peaks (C : Collaborators) (signal : list f64) (sfreq : Z)
    (o : ECG.options) : result (list f64 * list bool) :=
  let new_sfreq := ECG.new_sfreq o in
  let method := ECG.method o in
  x ← clean_and_resample C signal sfreq new_sfreq (ECG.clean_nan o);
  (* Copy resampled signal for output *)
  let resampled_signal := x in
  peaks_idx ←
    (if decide (method = "sleepecg")
     then detect_heartbeats C resampled_signal new_sfreq
     else if decide (method = "hamilton")
     then hamilton C resampled_signal new_sfreq
     else if decide (method = "christov")
     then christov C resampled_signal new_sfreq
     else if decide (method = "engelse-zeelenberg")
     then engelse_zeelenberg C resampled_signal new_sfreq
     else if decide (method = "pan-tompkins")
     then pan_tompkins C resampled_signal new_sfreq
     else if decide (method = "moving-average")
     then moving_average C resampled_signal new_sfreq
     else Err invalid_method);
  ecg_finish C o resampled_signal peaks_idx.

(** ** The respiration pipeline: [rsp_peaks] *)

Module RSP.
Record options := {
  new_sfreq : Z;
  win : Q;
  kind : string;
  clean_nan : bool
}.

Definition defaults : options := {|
  new_sfreq := 1000;
  win := dec 25 1000;
  kind := "peaks-troughs";
  clean_nan := false
|}.
End RSP.

(** What [rsp_peaks] returns beside the signal. *)
Inductive rsp_events :=
| Peaks (peaks : list bool)
| Troughs (troughs : list bool)
| PeaksTroughs (peaks troughs : list bool).

(** [pat in s] on strings. *)
Fixpoint contains (pat s : string) : bool :=
  String.prefix pat s
  || match s with
     | EmptyString => false
     | String _ s' => contains pat s'
     end.

(** Reading a local variable that may not have been assigned. *)
Definition read_local {A} (name : string) (v : option A) : result A :=
  match v with
  | Some a => Ok a
  | None => Err (UnboundLocalError name)
  end.

(** [x.std()]: the population standard deviation. *)
Definition np_std (sqrt : f64 -> f64) (l : list f64) : f64 :=
  let m := np_mean l in
  sqrt (np_mean ((fun v => fmul (fsub v m) (fsub v m)) <$> l)).

(** Lines 414-421, for one of the two signs. *)
Definition rsp_events_of (x : list f64) (sfreq : Z) (n : nat)
  : result (list bool) :=
  idx ← find_peaks x (Fin 0) (2 * sfreq);
  set_at (np_zeros n) (Z.of_nat <$> idx) true.

Definition rsp_peaks (C : Collaborators) (signal : list f64) (sfreq : Z)
    (o : RSP.options) : result (list f64 * rsp_events) :=
  let kind := RSP.kind o in
  if negb (bool_decide (kind ∈ ["peaks"; "troughs"; "peaks-troughs"]))
  then Err (ValueError
              "Invalid kind parameter. Should be 'peaks', 'troughs' or 'peaks-troughs'")
  else
    x ← clean_and_resample C signal sfreq (RSP.new_sfreq o) (RSP.clean_nan o);
    (* Copy resampled signal for output *)
    let resampled_signal := x in
    (* Soothing using rolling mean *)
    w ← rolling_window_arg (samples sfreq (RSP.win o));
    let x := ffill (bfill (rolling_mean w x)) in
    (* Normalize (z-score) the respiration signal *)
    let m := np_mean x in
    let s := np_std (sqrt C) x in
    let x := (fun v => fdiv (fsub v m) s) <$> x in
    (* Peak enhancement *)
    let x := (fun v => fmul (fmul v v) v) <$> x in
    (* Find peaks and trough in preprocessed signal *)
    peaks ← (if contains "peaks" kind
             then Some <$> rsp_events_of x sfreq (length resampled_signal)
             else Ok None);
    troughs ← (if contains "troughs" kind
               then Some <$> rsp_events_of (fneg <$> x) sfreq
                               (length resampled_signal)
               else Ok None);
    if decide (kind = "peaks") then
      p ← read_local "peaks" peaks; Ok (resampled_signal, Peaks p)
    else if decide (kind = "trough") then
      t ← read_local "troughs" troughs; Ok (resampled_signal, Troughs t)
    else
      p ← read_local "peaks" peaks;
      t ← read_local "troughs" troughs;
      Ok (resampled_signal, PeaksTroughs p t).

(** ** Bad segments in [plot_raw]

    [systole.plots.plot_raw] turns a Boolean mask ([False] marks a bad
    sample) into a list of [(start, end)] pairs (lines 219-233). *)

(** The condition of the first comprehension: sample [idx] starts or ends a
    segment.  [bad_segments[idx - 1]] at [idx = 0] is the last sample. *)
Definition segment_edge (mask : list bool) (idx : nat) : bool :=
  let n := length mask in
  let cur := default false (mask !! idx) in
  let prev :=
    default false (mask !! (if (idx =? 0)%nat then n - 1 else idx - 1)%nat) in
  (cur && negb prev) || (negb cur && prev)
  || (negb cur && (idx =? 0)%nat) || (negb cur && (idx =? n - 1)%nat).

Definition segment_edges (mask : list bool) : list nat :=
  List.filter (segment_edge mask) (seq 0 (length mask)).

(** [[(e[i], e[i + 1]) for i in range(0, len(e), 2)]]. *)
Fixpoint pair_up (edges : list nat) : result (list (nat * nat)) :=
  match edges with
  | [] => Ok []
  | [_] => Err (IndexError "list index out of range")
  | s :: e :: rest => tl ← pair_up rest; Ok ((s, e) :: tl)
  end.

Definition bad_segments_of_mask (mask : list bool)
  : result (list (nat * nat)) :=
  pair_up (segment_edges mask).

(** Sample [k] lies in one of the segments, the end excluded. *)
Definition covered (segs : list (nat * nat)) (k : nat) : Prop :=
  exists s e, (s, e) ∈ segs /\ (s <= k < e)%nat.

(** The positions of [l], counted from [off], whose sample differs from the
    one before it; [prev] stands before the first. *)
Fixpoint changes (prev : bool) (off : nat) (l : list bool) : list nat :=
  match l with
  | [] => []
  | b :: l' =>
      if xorb b prev then off :: changes b (S off) l'
      else changes b (S off) l'
  end.

(** ** The detection step of [plot_raw]

    Lines 168-213 of [systole.plots.plot_raw], on an array: the peaks the
    caller gives, or the detector of the modality.  The three records stand
    for the keyword arguments handed on to the detector; [plot_raw] itself
    sets [moving_average], [method] and [find_local], and [kind] is taken
    at its default. *)







(** ** The checks of [plot_rr]

    Lines 80-97 of [systole.plots.plot_rr]: what is raised before the
    plotting function is reached, or the artefacts it is handed. *)

Inductive raised :=
| Exn (e : exn)
| Warning (msg : string).

Inductive checked (A : Type) :=
| Passed (a : A)
| Raised (r : raised).
Arguments Passed {A} a.
Arguments Raised {A} r.

Definition plot_rr_artefacts (C : Collaborators) (rr : ndarray)
    (line points : bool) (input_type : string) (show_artefacts : bool)
  : checked (option ArtefactReport) :=
  if negb points && negb line
  then Raised (Exn (ValueError "Either points or line should be True"))
  else if negb (bool_decide
                  (input_type ∈ ["peaks"; "rr_ms"; "rr_s"; "peaks_idx"]))
  then Raised (Exn (ValueError "Invalid input type"))
  else if show_artefacts then
    if negb points
    then Raised (Warning "show_artefacts is True but points is set to False")
    else
      match rr_artefacts C rr (dec 13 100) (dec 17 100) (dec 52 10) input_type
      with
      | Ok artefacts => Passed (Some artefacts)
      | Err e => Raised (Exn e)
      end
  else Passed None.

(** ** Sample collaborators

    One concrete choice for every field of [Collaborators], so that the
    pipelines can be run on examples.  The theorems below hold for every
    choice; the functions of [systole.utils] follow what the specification
    says of them, the others are stand-ins. *)

Module Demo.

(** Modelled from the spec: [systole.utils.nan_cleaning] is not among the
    sources.  Missing values are interpolated linearly between their valid
    neighbours. *)
Definition linear_nan_cleaning (x : list f64) : result (list f64) :=
  let idx := np_arange_int (length x) in
  let valid :=
    List.filter (fun p : f64 * f64 => negb (isnan p.2)) (zip idx x) in
  np_interp idx valid.*1 valid.*2.

(** Modelled from the spec: [systole.utils.find_clipping] is not among the
    sources.  The floor and the ceiling are read off the extremes of the
    signal: an extreme value held by more than one sample is a bound, and
    there is no bound ([None]) otherwise. *)
Definition repeated_extremes (x : list f64)
  : result (option f64 * option f64) :=
  let s := np_sort x in
  let bound (v : f64) :=
    if (2 <=? length (List.filter (feq v) x))%nat then Some v else None in
  Ok (bound (at_ s 0), bound (at_ s (length s - 1))).

(** Modelled from the spec: [systole.utils.input_conversion] is not among
    the sources.  To [rr_ms] from seconds (factor 1000), from peak indices
    or from a peak vector (differences of the indices). *)
Definition to_rr_ms (a : ndarray) (input_type output_type : string)
  : result ndarray :=
  if negb (bool_decide (output_type = "rr_ms"))
  then Err (NotImplementedError output_type)
  else if decide (input_type = "rr_s")
  then Ok (FloatArray (fmul (Fin 1000) <$> values a))
  else if decide (input_type = "peaks_idx")
  then match a with
       | IntArray l => Ok (IntArray (np_diff l))
       | FloatArray _ => Err (ValueError "peaks_idx should be integers")
       end
  else if decide (input_type = "peaks")
  then match a with
       | IntArray l =>
           Ok (IntArray
                 (np_diff (Z.of_nat <$> np_where ((fun z => negb (z =? 0)) <$> l))))
       | FloatArray _ => Err (ValueError "peaks should be Booleans")
       end
  else Err (ValueError "Invalid input type").

(** The position of the largest of [l], the first one on ties. *)
Fixpoint argmax_from (best : nat) (bv : f64) (i : nat) (l : list f64) : nat :=
  match l with
  | [] => best
  | v :: l' =>
      if flt bv v then argmax_from i v (S i) l'
      else argmax_from best bv (S i) l'
  end.

(** Modelled from the spec: [systole.utils.to_neighbour] is not among the
    sources.  Every detected index moves to the local maximum within
    [size] samples of it. *)
Definition nearest_maximum (signal : list f64) (peaks : list bool) (size : Z)
  : result (list bool) :=
  if size <? 0 then Err (ValueError "size should be positive")
  else
    let k := Z.to_nat size in
    Ok (foldl
          (fun (acc : list bool) (p : nat) =>
             let lo := (p - k)%nat in
             let best :=
               argmax_from p (at_ signal p) lo
                 (take (p + k + 1 - lo) (drop lo signal)) in
             <[best := true]> (<[p := false]> acc))
          peaks (np_where peaks)).

(** A stand-in for the R-wave detectors of [systole.detectors] and
    [sleepecg]: the local maxima above the mean of the signal, a fifth of a
    second apart at least. *)
Definition detector (signal : list f64) (sfreq : Z) : result (list Z) :=
  idx ← find_peaks signal (np_mean signal) (Z.max 1 (sfreq / 5));
  Ok (Z.of_nat <$> (idx : list nat)).

(** SciPy's [interp1d] for [kind="linear"], which refuses to extrapolate;
    the spline kinds are left out. *)
Definition linear_interp1d (xs ys : list f64) (kind : string)
  : result (f64 -> result f64) :=
  if negb (bool_decide (kind = "linear")) then Err (NotImplementedError kind)
  else if negb (bool_decide (length xs = length ys))
  then Err (ValueError "x and y arrays must be equal in length along interpolation axis.")
  else if (length xs <? 2)%nat
  then Err (ValueError "x and y arrays must have at least 2 entries")
  else
    Ok (fun v =>
          if flt v (at_ xs 0)
          then Err (ValueError "A value in x_new is below the interpolation range.")
          else if flt (at_ xs (length xs - 1)) v
          then Err (ValueError "A value in x_new is above the interpolation range.")
          else Ok (interp_scan xs ys v)).

(** The square root, cut after six decimals. *)
Definition sqrt6 (x : f64) : f64 :=
  match x with
  | Fin q =>
      if (Qnum q <? 0)%Z then NaN
      else
        fin (Qmake (Z.sqrt (Qnum q * Zpos (Qden q) * 10 ^ 12))
                   (Qden q * 1000000))
  | PInf => PInf
  | _ => NaN
  end.

Definition collaborators : Collaborators := {|
  nan_cleaning := linear_nan_cleaning;
  find_clipping := repeated_extremes;
  input_conversion := to_rr_ms;
  to_neighbour := nearest_maximum;
  detect_heartbeats := detector;
  hamilton := detector;
  christov := detector;
  engelse_zeelenberg := detector;
  pan_tompkins := detector;
  moving_average := detector;
  interp1d := linear_interp1d;
  sqrt := sqrt6
|}.

End Demo.

(** ** What the corrector leaves in the caller's array *)

(** [nudge_edges], or the array as it was when the check raises. *)
Definition nudged (a : list f64) (thr new : f64) : list f64 :=
  match nudge_edges a thr new with
  | Ok a' => a'
  | Err _ => a
  end.

(** The first correction block that runs is the one that is handed the
    array of the caller: the block of [max_threshold] when it is given,
    else the block of [min_threshold]. *)
Definition edges_nudged (a : list f64)
    (min_threshold max_threshold : option f64) : list f64 :=
  match max_threshold, min_threshold with
  | Some thr, _ => nudged a thr (fsub thr (Fin 1))
  | None, Some thr => nudged a thr (fadd thr (Fin 1))
  | None, None => a
  end.

(** The first or the last sample equals the threshold. *)
Definition edge_at (a : list f64) (thr : f64) : bool :=
  feq (at_ a 0) thr || feq (at_ a (length a - 1)) thr.

(** The first or the last sample equals the first threshold applied. *)
Definition edge_clipped (a : list f64)
    (min_threshold max_threshold : option f64) : bool :=
  match max_threshold, min_threshold with
  | Some thr, _ => edge_at a thr
  | None, Some thr => edge_at a thr
  | None, None => false
  end.

(** A store with one array of five samples, pinned at 255 at both ends. *)
Definition clipped_store : heap :=
  {[ 1%positive := of_Z <$> [255; 100; 120; 130; 255] ]}.

(** ** The detector behind a method name *)

(** What each name of [methods] selects in [ecg_peaks]. *)
Definition detector_named (C : Collaborators) (method : string)
  : option (list f64 -> Z -> result (list Z)) :=
  if decide (method = "sleepecg") then Some (detect_heartbeats C)
  else if decide (method = "hamilton") then Some (hamilton C)
  else if decide (method = "christov") then Some (christov C)
  else if decide (method = "engelse-zeelenberg")
  then Some (engelse_zeelenberg C)
  else if decide (method = "pan-tompkins") then Some (pan_tompkins C)
  else if decide (method = "moving-average") then Some (moving_average C)
  else None.

(** No collaborator of [ecg_peaks] raises the error of the method check
    itself. *)
Definition method_error_is_own (C : Collaborators) : Prop :=
  (forall x, nan_cleaning C x <> Err invalid_method)
  /\ (forall s p k, to_neighbour C s p k <> Err invalid_method)
  /\ (forall name d s f,
        detector_named C name = Some d -> d s f <> Err invalid_method).

(** The vectors a result of [rsp_peaks] holds are all of length [n]. *)
Definition events_length (n : nat) (ev : rsp_events) : Prop :=
  match ev with
  | Peaks p => length p = n
  | Troughs t => length t = n
  | PeaksTroughs p t => length p = n /\ length t = n
  end.

(** ** Alignment with the series *)

(** Every subspace has [n] entries. *)
Record aligned (n : nat) (sp : Subspaces) : Prop := {
  al_s11 : length (sp_s11 sp) = n;
  al_s12 : length (sp_s12 sp) = n;
  al_s22 : length (sp_s22 sp) = n;
  al_mRR : length (sp_mRR sp) = n;
  al_medRR : length (sp_medRR sp) = n;
  al_th1 : length (sp_th1 sp) = n;
  al_th2 : length (sp_th2 sp) = n
}.

(** Every mask of the report has [n] entries. *)
Record report_aligned (n : nat) (rep : ArtefactReport) : Prop := {
  ra_ectopic : length (ectopic rep) = n;
  ra_long : length (long rep) = n;
  ra_short : length (short rep) = n;
  ra_missed : length (missed rep) = n;
  ra_extra : length (extra rep) = n
}.

(** ** Sample inputs *)

(** Sixteen intervals (ms): two long ones in a row, at positions 7 and 8. *)
Definition rr_two_long : ndarray :=
  FloatArray
    (of_Z <$> [800; 805; 795; 810; 800; 790; 805; 870; 875; 800; 810; 795;
               805; 800; 790; 800]).

(** Twelve intervals with a missed beat (position 4) and a short interval
    (position 6). *)
Definition rr_missed_short : ndarray :=
  IntArray [800; 810; 790; 805; 1600; 795; 600; 800; 810; 790; 800; 805].

(** A pulse wave sampled at 10 Hz: one beat every 0.8 s, one of them 0.6 s
    after the last. *)
Definition beat : list Z := [0; 1; 4; 9; 4; 1; 0; 0].

Definition pulse_wave : list f64 :=
  of_Z <$> (beat ++ beat ++ beat ++ [0; 1; 4; 9; 4; 1] ++ beat ++ beat).

(** [ppg_peaks] options for a signal that needs no resampling and no
    clipping correction. *)
Definition plain_options (sfreq : Z) : PPG.options := {|
  PPG.win := dec 75 100;
  PPG.new_sfreq := sfreq;
  PPG.clipping := false;
  PPG.clipping_thresholds := ThrStr "auto";
  PPG.moving_average := true;
  PPG.moving_average_length := dec 5 100;
  PPG.peak_enhancement := true;
  PPG.distance := dec 3 10;
  PPG.clean_extra := false;
  PPG.clean_nan := false
|}.

(** [rsp_peaks] options with a smoothing window of 0.3 s. *)
Definition rsp_options (new_sfreq : Z) (kind : string) : RSP.options := {|
  RSP.new_sfreq := new_sfreq;
  RSP.win := dec 3 10;
  RSP.kind := kind;
  RSP.clean_nan := false
|}.

(** [ecg_peaks] options with the default window. *)
Definition ecg_options (new_sfreq : Z) (method : string) (find_local : bool)
  : ECG.options := {|
  ECG.new_sfreq := new_sfreq;
  ECG.method := method;
  ECG.find_local := find_local;
  ECG.win_size := dec 1 10;
  ECG.clean_nan := false
|}.

(** A pulse wave sampled at 20 Hz with the given numbers of samples from
    one beat to the next. *)
Definition wave (gaps : list nat) : list f64 :=
  of_Z <$> (gaps ≫= fun g : nat => [0; 1; 4; 9; 4; 1] ++ replicate (g - 6) 0).

(** Sixteen beats; the seventh comes early and splits an interval in two. *)
Definition pulse_wave_extra : list f64 :=
  wave [16; 18; 17; 19; 16; 18; 8; 9; 17; 19; 16; 18; 17; 16; 19; 17]%nat.

(** [plain_options] with the pruning of extra peaks switched on. *)
Definition pruning_options (sfreq : Z) : PPG.options := {|
  PPG.win := dec 75 100;
  PPG.new_sfreq := sfreq;
  PPG.clipping := false;
  PPG.clipping_thresholds := ThrStr "auto";
  PPG.moving_average := true;
  PPG.moving_average_length := dec 5 100;
  PPG.peak_enhancement := true;
  PPG.distance := dec 3 10;
  PPG.clean_extra := true;
  PPG.clean_nan := false
|}.

(** Sixteen intervals with a premature beat: a short interval (position 7)
    and the long one that makes up for it (position 8). *)
Definition rr_premature : ndarray :=
  IntArray [800; 810; 790; 805; 800; 795; 805; 600; 1000; 800; 810; 790; 800;
            805; 795; 800].

(** [o] with another value for [clipping_thresholds]. *)
Definition with_thresholds (o : PPG.options) (t : thresholds_arg)
  : PPG.options := {|
  PPG.win := PPG.win o;
  PPG.new_sfreq := PPG.new_sfreq o;
  PPG.clipping := PPG.clipping o;
  PPG.clipping_thresholds := t;
  PPG.moving_average := PPG.moving_average o;
  PPG.moving_average_length := PPG.moving_average_length o;
  PPG.peak_enhancement := PPG.peak_enhancement o;
  PPG.distance := PPG.distance o;
  PPG.clean_extra := PPG.clean_extra o;
  PPG.clean_nan := PPG.clean_nan o
|}.

(** The vectors a result of [rsp_peaks] holds. *)
Definition event_vectors (ev : rsp_events) : list (list bool) :=
  match ev with
  | Peaks p => [p]
  | Troughs t => [t]
  | PeaksTroughs p t => [p; t]
  end.

(** * Properties *)

Arguments fadd : simpl never.
Arguments fsub : simpl never.
Arguments fmul : simpl never.
Arguments fdiv : simpl never.
Arguments fabs : simpl never.
Arguments fneg : simpl never.
Arguments round64 : simpl never.
Arguments flt : simpl never.
Arguments fle : simpl never.
Arguments fgt : simpl never.
Arguments fge : simpl never.
Arguments feq : simpl never.

(** ** The helpers on small inputs *)

Example division_by_zero :
  (fdiv (Fin 1) (Fin 0), fdiv (Fin 0) (Fin 0), flt NaN (Fin 1),
   np_max2 (Fin 1) NaN) = (PInf, NaN, false, NaN).
Proof. reflexivity. Qed.

Example int_truncates :
  (Qtrunc (dec (-7) 2), samples 1000 (dec 3 10), samples 10 (dec 75 100))
  = (-3, 300, 7).
Proof. vm_compute. reflexivity. Qed.

Example doubles_round :
  round64 (dec 1 10) = 3602879701896397 # 36028797018963968
  /\ round64 (dec 3 2) = dec 3 2
  /\ samples 100 (dec 29 100) = 28
  /\ arange_length (round64 (dec 7 100)) (round64 (dec 1 100)) = 8%nat
  /\ arange_length (round64 (dec 46 10)) (round64 (dec 1 10)) = 46%nat.
Proof. repeat split; vm_compute; reflexivity. Qed.

Example numpy_bool_is_not_True :
  (is_True (PyBool true), getitem_bool [true] 0) = (true, Some (NpBool true))
  /\ is_True (NpBool true) = false.
Proof. split; reflexivity. Qed.

Example rolling_mean_centred :
  rolling_mean 3 (of_Z <$> [1; 2; 3; 4]) = [NaN; Fin 2; Fin 3; NaN]
  /\ rolling_mean 2 (of_Z <$> [1; 2; 3; 4])
     = [NaN; Fin (3 # 2); Fin (5 # 2); Fin (7 # 2)].
Proof. split; vm_compute; reflexivity. Qed.

Example rolling_quartile_short_series :
  rolling_quantile 91 1 (dec 1 4) (of_Z <$> [1; 5; 3; 4])
  = replicate 4 (Fin (5 # 2))
  /\ rolling_median 11 1 (of_Z <$> [1; 5; 3; 4]) = replicate 4 (Fin (7 # 2)).
Proof. split; vm_compute; reflexivity. Qed.

Example fill_both_ways :
  ffill (bfill [NaN; Fin 1; NaN; Fin 2; NaN])
  = [Fin 1; Fin 1; Fin 2; Fin 2; Fin 2].
Proof. reflexivity. Qed.

Example resample_doubles :
  np_interp (np_arange (dec 3 2) (dec 1 4)) (np_arange (dec 3 2) (dec 1 2))
    (of_Z <$> [0; 2; 1])
  = Ok [Fin 0; Fin 1; Fin 2; Fin (3 # 2); Fin 1; Fin 1].
Proof. vm_compute. reflexivity. Qed.

Example find_peaks_plateau :
  find_peaks (of_Z <$> [0; 1; 1; 1; 0; 3; 3; 0]) (Fin 0) 1
  = Ok [2; 5]%nat.
Proof. vm_compute. reflexivity. Qed.

Example find_peaks_distance :
  find_peaks (of_Z <$> [0; 1; 0; 2; 0]) (Fin 0) 3 = Ok [3%nat]
  /\ find_peaks (of_Z <$> [0; 2; 0; 2; 0; 2; 0]) (Fin 0) 3 = Ok [1; 5]%nat
  /\ find_peaks (of_Z <$> [0; 1; 0; 2; 0]) (Fin 0) 0
     = Err (ValueError "`distance` must be greater or equal to 1").
Proof. repeat split; vm_compute; reflexivity. Qed.

Example substring_tests :
  (contains "peaks" "peaks-troughs", contains "peaks" "troughs",
   contains "troughs" "peaks-troughs") = (true, false, true).
Proof. reflexivity. Qed.

Example classifier_needs_two_intervals :
  rr_artefacts_default Demo.collaborators (FloatArray [])
  = Err (IndexError "index 0 is out of bounds for axis 0 with size 0")
  /\ rr_artefacts_default Demo.collaborators (FloatArray [Fin 800])
     = Err (IndexError "boolean index did not match indexed array")
  /\ rr_artefacts_default Demo.collaborators (IntArray [800])
     = Err (ValueError "cannot convert float NaN to integer")
  /\ is_ok (rr_artefacts_default Demo.collaborators
              (FloatArray [Fin 800; Fin 900])) = true.
Proof. repeat split; vm_compute; reflexivity. Qed.

(** ** The result monad *)

Lemma bind_Ok {A B} (m : result A) (f : A -> result B) (b : B) :
  m ≫= f = Ok b -> exists a, m = Ok a /\ f a = Ok b.
Proof. destruct m as [a|e]; [eauto | discriminate]. Qed.

Lemma fmap_Ok {A B} (m : result A) (f : A -> B) (b : B) :
  f <$> m = Ok b -> exists a, m = Ok a /\ b = f a.
Proof. destruct m as [a|e]; simpl; [|discriminate]. intros [= <-]. eauto. Qed.

Lemma mapM_result_length {A B} (f : A -> result B) (l : list A) (k : list B) :
  mapM f l = Ok k -> length k = length l.
Proof.
  revert k. induction l as [|x l IH]; intros k; simpl.
  - intros [= <-]. reflexivity.
  - intros H. apply bind_Ok in H as (y & _ & H).
    apply bind_Ok in H as (k' & Hk' & [= <-]).
    simpl. f_equal. auto.
Qed.

(** ** Boolean masks *)

Lemma lookup_mask_clear (a m : list bool) (i : nat) :
  mask_clear a m !! i = Some true ->
  a !! i = Some true /\ m !! i = Some false.
Proof.
  unfold mask_clear. intros H.
  apply lookup_zip_with_Some in H as (x & y & Hxy & Hx & Hy).
  destruct y, x; try discriminate. auto.
Qed.


Lemma lookup_insert_false_true (l : list bool) (j i : nat) :
  <[j := false]> l !! i = Some true -> l !! i = Some true /\ i <> j.
Proof.
  intros H. destruct (decide (i = j)) as [->|Hne].
  - destruct (decide (j < length l)%nat) as [Hlt|Hge].
    + rewrite list_lookup_insert_eq in H by exact Hlt. discriminate.
    + apply lookup_lt_Some in H. rewrite length_insert in H. lia.
  - rewrite list_lookup_insert_ne in H by auto. auto.
Qed.

Lemma lookup_set_range {A} (a : list A) (lo hi : nat) (v : A) (i : nat) :
  (lo <= i < hi)%nat -> (i < length a)%nat ->
  set_range a lo hi v !! i = Some v.
Proof.
  intros Hi Hlen. unfold set_range. rewrite list_lookup_imap.
  destruct (lookup_lt_is_Some_2 a i Hlen) as [x ->]. simpl.
  destruct (Nat.leb_spec lo i); [|lia].
  destruct (Nat.ltb_spec i hi); [|lia]. reflexivity.
Qed.

Lemma lookup_set_range_false (a : list bool) (lo hi : nat) (i : nat) :
  a !! i = Some false -> set_range a lo hi false !! i = Some false.
Proof.
  intros Hi. unfold set_range. rewrite list_lookup_imap, Hi. simpl.
  destruct (_ && _); reflexivity.
Qed.

Lemma length_set_range {A} (a : list A) (lo hi : nat) (v : A) :
  length (set_range a lo hi v) = length a.
Proof. unfold set_range. apply length_imap. Qed.

(** ** The propagation loop of [rr_artefacts] never writes *)

Lemma extend_step_noop (s11 : list f64) (cond : list bool) (i : nat) :
  extend_step s11 cond i = cond.
Proof.
  unfold extend_step, getitem_bool.
  destruct (cond !! i) as [b|]; reflexivity.
Qed.

Lemma extend_outliers_noop (s11 : list f64) (cond : list bool) :
  extend_outliers s11 cond = cond.
Proof.
  unfold extend_outliers. generalize (seq 0 (length cond - 2)).
  intros l. induction l as [|i l IH]; simpl; [reflexivity|].
  rewrite extend_step_noop. exact IH.
Qed.

(** ** Lengths in [rr_artefacts] *)

Lemma length_np_diff_prepend0 (l : list f64) :
  length (np_diff_prepend0 l) = length l.
Proof. unfold np_diff_prepend0. rewrite length_zip_with. simpl. lia. Qed.

Lemma length_rolling (w minp : nat) (stat : list f64 -> f64) (l : list f64) :
  length (rolling w minp stat l) = length l.
Proof. unfold rolling. rewrite length_fmap, length_seq. reflexivity. Qed.

Lemma length_rolling_median (w minp : nat) (l : list f64) :
  length (rolling_median w minp l) = length l.
Proof. apply length_rolling. Qed.

Lemma length_rolling_mean (w : nat) (l : list f64) :
  length (rolling_mean w l) = length l.
Proof. apply length_rolling. Qed.

Lemma length_rolling_std (sqrt : f64 -> f64) (w : nat) (l : list f64) :
  length (rolling_std sqrt w l) = length l.
Proof. apply length_rolling. Qed.

Lemma length_rolling_threshold (alpha : Q) (x : list f64) :
  length (rolling_threshold alpha x) = length x.
Proof.
  unfold rolling_threshold, rolling_quantile.
  rewrite length_zip_with, !length_rolling. lia.
Qed.

Lemma first_differences_length (rr : ndarray) (d : list f64) :
  first_differences rr = Ok d -> length d = length (values rr).
Proof.
  unfold first_differences.
  pose proof (length_np_diff_prepend0 (values rr)) as Hlen.
  destruct (np_diff_prepend0 (values rr)) as [|x tl]; [discriminate|].
  destruct rr as [l|l].
  - intros H. apply bind_Ok in H as (v & _ & [= <-]). exact Hlen.
  - intros [= <-]. exact Hlen.
Qed.

Lemma np_putmask_Ok {A} (a : list A) (mask : list bool) (src r : list A) :
  np_putmask a mask src = Ok r ->
  length r = length a /\ length mask = length a /\ length src = length a.
Proof.
  unfold np_putmask. case_decide as Hlen; [|discriminate].
  intros [= <-]. rewrite length_zip_with, length_zip. lia.
Qed.

(** Rewrites the length of every array built by the classifier. *)
Ltac lengths :=
  repeat (rewrite ?length_zip_with, ?length_fmap, ?length_insert,
            ?length_app, ?length_seq, ?length_rolling,
            ?length_rolling_threshold, ?length_rolling_median,
            ?length_rolling_mean, ?length_rolling_std,
            ?length_set_range, ?length_drop,
            ?length_replicate, ?extend_outliers_noop in *;
          simpl length in *).


(** A series that passes the detection half has two intervals at least,
    and every subspace is as long as the series. *)
Lemma subspaces_aligned (rr : ndarray) (alpha : Q) (sp : Subspaces) :
  subspaces rr alpha = Ok sp ->
  (2 <= length (values rr))%nat /\ aligned (length (values rr)) sp.
Proof.
  unfold subspaces. intros H.
  apply bind_Ok in H as (dRR & HdRR & H).
  apply first_differences_length in HdRR.
  apply bind_Ok in H as (s12 & Hs12 & H).
  apply bind_Ok in H as (s22 & Hs22 & H).
  injection H as <-.
  apply np_putmask_Ok in Hs12 as (Hs12 & Hm12 & _).
  apply np_putmask_Ok in Hs22 as (Hs22 & _ & _).
  lengths.
  split; [lia|]. split; simpl; lengths; lia.
Qed.

Lemma length_long_short (s11 s22 m rr : list f64) (n : nat) :
  length s11 = n -> length s22 = n -> length m = n -> length rr = n ->
  length (long_short_decision s11 s22 m rr).1 = n
  /\ length (long_short_decision s11 s22 m rr).2 = n.
Proof.
  intros H1 H2 H3 H4. unfold long_short_decision. simpl. lengths. lia.
Qed.


Lemma decide_artefacts_aligned (rr : ndarray) (c1 c2 : Q) (sp : Subspaces) :
  (1 <= length (values rr))%nat ->
  aligned (length (values rr)) sp ->
  report_aligned (length (values rr)) (decide_artefacts rr c1 c2 sp).
Proof.
  intros Hn [H11 H12 H22 Hm Hmed Ht1 Ht2]. unfold decide_artefacts.
  destruct (length_long_short (sp_s11 sp) (sp_s22 sp) (sp_mRR sp) (values rr)
              (length (values rr)) H11 H22 Hm eq_refl) as [Hl Hs].
  destruct (long_short_decision _ _ _ _) as [lb sb]. simpl in Hl, Hs.
  unfold mask_clear.
  split; simpl; lengths; lia.
Qed.

(** The report of a series is aligned with the series. *)
Lemma rr_artefacts_aligned (C : Collaborators) (rr : ndarray) (c1 c2 alpha : Q)
    (rep : ArtefactReport) :
  rr_artefacts C rr c1 c2 alpha "rr_ms" = Ok rep ->
  (2 <= length (values rr))%nat /\ report_aligned (length (values rr)) rep.
Proof.
  unfold rr_artefacts. simpl. intros H.
  apply bind_Ok in H as (sp & Hsp & [= <-]).
  apply subspaces_aligned in Hsp as [Hn Hal].
  split; [exact Hn|]. apply decide_artefacts_aligned; [lia | exact Hal].
Qed.

(** ** The masks of [rr_artefacts] *)

Lemma rr_artefacts_inv (C : Collaborators) (rr : ndarray) (c1 c2 alpha : Q)
    (input_type : string) (rep : ArtefactReport) :
  rr_artefacts C rr c1 c2 alpha input_type = Ok rep ->
  exists rr' sp,
    subspaces rr' alpha = Ok sp
    /\ rep = decide_artefacts rr' c1 c2 sp
    /\ (2 <= length (values rr'))%nat
    /\ aligned (length (values rr')) sp
    /\ report_aligned (length (values rr')) rep.
Proof.
  unfold rr_artefacts. intros H.
  apply bind_Ok in H as (rr' & _ & H).
  apply bind_Ok in H as (sp & Hsp & [= <-]).
  exists rr', sp.
  destruct (subspaces_aligned _ _ _ Hsp) as [Hn Hal].
  split; [exact Hsp|]. split; [reflexivity|].
  split; [exact Hn|]. split; [exact Hal|].
  apply decide_artefacts_aligned; [lia | exact Hal].
Qed.

(** C2: in the report of [rr_artefacts], "missed" and "long" are never both
    true at an index, and neither are "extra" and "short". *)
Theorem missed_long_extra_short_exclusive (C : Collaborators) (rr : ndarray)
    (c1 c2 alpha : Q) (input_type : string) (rep : ArtefactReport) :
  rr_artefacts C rr c1 c2 alpha input_type = Ok rep ->
  forall i : nat,
    ~ (missed rep !! i = Some true /\ long rep !! i = Some true)
    /\ ~ (extra rep !! i = Some true /\ short rep !! i = Some true).
Proof.
  intros H i.
  apply rr_artefacts_inv in H as (rr' & sp & _ & -> & _).
  unfold decide_artefacts.
  destruct (long_short_decision _ _ _ _) as [lb sb]. simpl.
  split; intros [Hm Hl].
  - apply lookup_insert_false_true in Hl as [Hl _].
    apply lookup_insert_false_true in Hl as [Hl _].
    apply lookup_mask_clear in Hl as [_ Hl]. congruence.
  - apply lookup_insert_false_true in Hl as [Hl _].
    apply lookup_insert_false_true in Hl as [Hl _].
    apply lookup_mask_clear in Hl as [_ Hl]. congruence.
Qed.

Lemma missed_long_extra_short_exclusive_witness :
  exists rep,
    rr_artefacts_default Demo.collaborators rr_missed_short = Ok rep
    /\ missed rep !! 4%nat = Some true
    /\ short rep !! 6%nat = Some true
    /\ forall i : nat,
         ~ (missed rep !! i = Some true /\ long rep !! i = Some true)
         /\ ~ (extra rep !! i = Some true /\ short rep !! i = Some true).
Proof.
  eexists. split; [vm_compute; reflexivity|].
  split; [vm_compute; reflexivity|].
  split; [vm_compute; reflexivity|].
  apply (missed_long_extra_short_exclusive Demo.collaborators rr_missed_short
           (dec 13 100) (dec 17 100) (dec 52 10) "rr_ms").
  vm_compute. reflexivity.
Defined.

(** C6: in the report of [rr_artefacts], "ectopic" is false at the first
    two and the last two indices, and "long" and "short" are false at the
    first and the last index. *)
Theorem edges_unlabelled (C : Collaborators) (rr : ndarray)
    (c1 c2 alpha : Q) (input_type : string) (rep : ArtefactReport) :
  rr_artefacts C rr c1 c2 alpha input_type = Ok rep ->
  let n := length (ectopic rep) in
  (2 <= n)%nat
  /\ length (long rep) = n /\ length (short rep) = n
  /\ (forall i : nat,
        (i < n)%nat -> (i < 2 \/ n - 2 <= i)%nat ->
        ectopic rep !! i = Some false)
  /\ long rep !! 0%nat = Some false
  /\ long rep !! (n - 1)%nat = Some false
  /\ short rep !! 0%nat = Some false
  /\ short rep !! (n - 1)%nat = Some false.
Proof.
  intros H.
  apply rr_artefacts_inv in H as (rr' & sp & _ & -> & Hn & Hal & Hrep).
  destruct Hrep as [He Hl Hs _ _]. destruct Hal as [H11 _ _ _ _ _ _].
  cbv zeta. rewrite He, Hl, Hs.
  split; [exact Hn|]. split; [reflexivity|]. split; [reflexivity|].
  revert He Hl Hs. unfold decide_artefacts.
  destruct (long_short_decision _ _ _ _) as [lb sb]. simpl.
  rewrite H11. set (n := length (values rr')) in *.
  rewrite !length_set_range, !length_insert.
  intros He Hl Hs.
  split; [|repeat split].
  - intros i Hi Hedge. destruct (decide (i < 2)%nat) as [Hlo|Hhi].
    + apply lookup_set_range; [lia|]. rewrite length_set_range, He. exact Hi.
    + apply lookup_set_range_false, lookup_set_range; [lia|].
      rewrite He. exact Hi.
  - rewrite list_lookup_insert_ne by lia.
    apply list_lookup_insert_eq. lia.
  - apply list_lookup_insert_eq. rewrite length_insert. lia.
  - rewrite list_lookup_insert_ne by lia.
    apply list_lookup_insert_eq. lia.
  - apply list_lookup_insert_eq. rewrite length_insert. lia.
Qed.

Lemma edges_unlabelled_witness :
  exists rep,
    rr_artefacts_default Demo.collaborators rr_missed_short = Ok rep
    /\ length (ectopic rep) = 12%nat
    /\ ectopic rep !! 1%nat = Some false
    /\ ectopic rep !! 10%nat = Some false
    /\ long rep !! 0%nat = Some false
    /\ long rep !! 11%nat = Some false
    /\ short rep !! 0%nat = Some false
    /\ short rep !! 11%nat = Some false.
Proof.
  pose proof (edges_unlabelled Demo.collaborators rr_missed_short
                (dec 13 100) (dec 17 100) (dec 52 10) "rr_ms") as T.
  unfold rr_artefacts_default.
  destruct (rr_artefacts _ _ _ _ _ _) as [rep|e] eqn:E;
    [|vm_compute in E; discriminate E].
  specialize (T rep eq_refl). cbv zeta in T.
  assert (length (ectopic rep) = 12%nat) as Hlen
    by (vm_compute in E; injection E as <-; reflexivity).
  rewrite Hlen in T.
  destruct T as (_ & _ & _ & He & Hl0 & Hl1 & Hs0 & Hs1).
  exists rep. split; [reflexivity|]. split; [exact Hlen|].
  split; [apply He; lia|]. split; [apply He; lia|].
  split; [exact Hl0|]. split; [exact Hl1|]. split; [exact Hs0|exact Hs1].
Defined.

(** C1: on the series [rr_two_long] sample 7 is long by the first decision
    and the first difference is larger (in magnitude) at sample 9 than at
    sample 8, yet sample 8 gets no label at all: the loop meant to extend
    the label tests [cond[i] is True], which no element of a NumPy array
    satisfies. *)
Theorem long_label_not_extended (C : Collaborators) :
  exists sp rep,
    subspaces rr_two_long (dec 52 10) = Ok sp
    /\ rr_artefacts_default C rr_two_long = Ok rep
    /\ (long_short_decision (sp_s11 sp) (sp_s22 sp) (sp_mRR sp)
          (values rr_two_long)).1 !! 7%nat = Some true
    /\ flt (fabs (at_ (sp_s11 sp) 8)) (fabs (at_ (sp_s11 sp) 9)) = true
    /\ long rep !! 7%nat = Some true
    /\ long rep !! 8%nat = Some false
    /\ short rep !! 8%nat = Some false
    /\ missed rep !! 8%nat = Some false
    /\ extra rep !! 8%nat = Some false
    /\ ectopic rep !! 8%nat = Some false.
Proof.
  eexists. eexists.
  split; [vm_compute; reflexivity|].
  split; [vm_compute; reflexivity|].
  repeat split; vm_compute; reflexivity.
Qed.

(** ** The caller's arrays across [interpolate_clipping] *)

Lemma alloc_fresh (a : list f64) (h : heap) (r : loc) (h' : heap) :
  alloc a h = (r, h') ->
  h !! r = None /\ h' = <[r := a]> h.
Proof.
  unfold alloc. intros [= <- <-]. split; [|reflexivity].
  apply not_elem_of_dom. apply is_fresh.
Qed.

Lemma correct_bound_frame (C : Collaborators) (kind : string)
    (time : list f64) (upper : bool) (thr : f64) (r : loc) (h : heap)
    (a : list f64) (res : result loc) (h' : heap) :
  h !! r = Some a ->
  correct_bound C kind time upper thr r h = (res, h') ->
  let new := if upper then fsub thr (Fin 1) else fadd thr (Fin 1) in
  (forall r0 b, h !! r0 = Some b ->
     h' !! r0 = Some (if decide (r0 = r) then nudged a thr new else b))
  /\ (forall r', res = Ok r' ->
        h !! r' = None
        /\ exists clean, h' !! r' = Some clean /\ length clean = length time).
Proof.
  intros Ha. unfold correct_bound, nudged. rewrite Ha.
  destruct (nudge_edges a thr _) as [a'|e] eqn:Hn.
  2:{ intros [= <- <-]. split; [|discriminate].
      intros r0 b Hb. case_decide; [subst; congruence | exact Hb]. }
  destruct (interp1d C _ _ kind ≫= _) as [clean|e] eqn:Hi.
  2:{ intros [= <- <-]. split; [|discriminate].
      intros r0 b Hb. case_decide as Hr.
      - subst r0. apply lookup_insert_eq.
      - rewrite lookup_insert_ne by auto. exact Hb. }
  destruct (alloc clean _) as [r' h1] eqn:Hal.
  apply alloc_fresh in Hal as [Hfresh ->].
  intros [= <- <-].
  assert (r' <> r) as Hne.
  { intros ->. rewrite lookup_insert_eq in Hfresh. discriminate. }
  rewrite lookup_insert_ne in Hfresh by auto.
  split.
  - intros r0 b Hb.
    rewrite lookup_insert_ne by (intros ->; congruence).
    case_decide as Hr.
    + subst r0. apply lookup_insert_eq.
    + rewrite lookup_insert_ne by auto. exact Hb.
  - intros r'' [= <-]. split; [exact Hfresh|].
    exists clean. split; [apply lookup_insert_eq|].
    apply bind_Ok in Hi as (f & _ & Hi).
    apply mapM_result_length in Hi. exact Hi.
Qed.

(** A correction block run on an array the caller does not hold leaves
    the caller's arrays alone. *)
Lemma correct_bound_fresh (C : Collaborators) (kind : string)
    (time : list f64) (upper : bool) (thr : f64) (r1 : loc) (h h1 : heap)
    (a1 : list f64) (res : result loc) (h2 : heap) :
  h ⊆ h1 -> h !! r1 = None -> h1 !! r1 = Some a1 ->
  correct_bound C kind time upper thr r1 h1 = (res, h2) ->
  h ⊆ h2
  /\ (forall r', res = Ok r' ->
        h !! r' = None
        /\ exists clean, h2 !! r' = Some clean /\ length clean = length time).
Proof.
  intros Hsub Hfresh Ha1 Hrun.
  destruct (correct_bound_frame _ _ _ _ _ _ _ _ _ _ Ha1 Hrun) as [Hframe Hnew].
  split.
  - apply map_subseteq_spec. intros r0 b Hb.
    rewrite (Hframe r0 b) by (eapply lookup_weaken; eauto).
    case_decide as Hr; [subst; congruence | reflexivity].
  - intros r' Hres. destruct (Hnew r' Hres) as [Hnone Hclean].
    split; [|exact Hclean].
    destruct (h !! r') as [b|] eqn:Hb; [|reflexivity].
    rewrite (lookup_weaken _ _ _ _ Hb Hsub) in Hnone. discriminate.
Qed.

Lemma nudged_no_edge (a : list f64) (thr new : f64) :
  edge_at a thr = false -> nudged a thr new = a.
Proof.
  unfold edge_at, nudged, nudge_edges, at_. intros H.
  apply orb_false_iff in H as [H0 H1].
  destruct a as [|x0 tl]; [reflexivity|]. simpl in H0. rewrite H0, H1.
  reflexivity.
Qed.

(** An optional block, on an array the caller does not hold. *)
Lemma optional_block_fresh (C : Collaborators) (kind : string)
    (time : list f64) (upper : bool) (min_threshold : option f64) (r1 : loc)
    (h h1 : heap)
    (a1 : list f64) (res : result loc) (h2 : heap) :
  h ⊆ h1 -> h !! r1 = None -> h1 !! r1 = Some a1 ->
  length a1 = length time ->
  match min_threshold with
  | Some thr => correct_bound C kind time upper thr r1 h1
  | None => (Ok r1, h1)
  end = (res, h2) ->
  h ⊆ h2
  /\ (forall r', res = Ok r' ->
        h !! r' = None
        /\ exists clean, h2 !! r' = Some clean /\ length clean = length time).
Proof.
  intros Hsub Hfresh Ha1 Hlen. destruct min_threshold as [thr|].
  - apply correct_bound_fresh with (a1 := a1); assumption.
  - intros [= <- <-]. split; [exact Hsub|].
    intros r' [= <-]. split; [exact Hfresh|]. eauto.
Qed.

Lemma length_np_arange_int (n : nat) : length (np_arange_int n) = n.
Proof. unfold np_arange_int. rewrite length_fmap, length_seq. reflexivity. Qed.

(** What a call of [interpolate_clipping] does to the store, whatever its
    outcome. *)
Lemma interpolate_clipping_effect (C : Collaborators) (signal : pysignal)
    (min_threshold max_threshold : option f64) (kind : string) (h : heap)
    (a : list f64) (res : result loc) (h' : heap) :
  contents signal h = Some a ->
  interpolate_clipping C signal min_threshold max_threshold kind h
  = (res, h') ->
  (forall r b, h !! r = Some b -> signal <> NdArray r -> h' !! r = Some b)
  /\ (forall r, signal = NdArray r ->
        h' !! r = Some (edges_nudged a min_threshold max_threshold))
  /\ (forall r', res = Ok r' ->
        (exists clean, h' !! r' = Some clean /\ length clean = length a)
        /\ (is_Some min_threshold \/ is_Some max_threshold ->
            h !! r' = None)).
Proof.
  intros Ha. unfold interpolate_clipping. rewrite Ha.
  pose proof (length_np_arange_int (length a)) as Htime.
  set (time := np_arange_int (length a)) in *.
  destruct signal as [l|r]; simpl in Ha; simpl asarray.
  - (* a Python list: the array is new from the start *)
    injection Ha as ->.
    destruct (alloc a h) as [r0 h0] eqn:Hal.
    apply alloc_fresh in Hal as [Hfresh ->].
    assert (h ⊆ <[r0 := a]> h) as Hsub by (apply insert_subseteq; exact Hfresh).
    destruct (match max_threshold with
              | Some thr => correct_bound C kind time true thr r0 (<[r0 := a]> h)
              | None => (Ok r0, <[r0 := a]> h)
              end) as [res1 h1] eqn:H1.
    apply (optional_block_fresh _ _ _ _ _ _ h _ a) in H1
      as [Hsub1 Hnew1]; [|assumption|assumption|apply lookup_insert_eq|lia].
    destruct res1 as [r1|e].
    2:{ intros [= <- <-]. split; [|split; [discriminate|discriminate]].
        intros r b Hb _. eapply lookup_weaken; eauto. }
    destruct (Hnew1 r1 eq_refl) as (Hf1 & clean1 & Hc1 & Hl1).
    intros H2.
    apply (optional_block_fresh _ _ _ _ _ _ h _ clean1) in H2
      as [Hsub2 Hnew2]; [|assumption|assumption|assumption|lia].
    split; [|split; [discriminate|]].
    + intros r b Hb _. eapply lookup_weaken; eauto.
    + intros r' Hres. destruct (Hnew2 r' Hres) as (Hf2 & clean & Hc & Hl).
      split; [exists clean; split; [exact Hc|lia] | intros _; exact Hf2].
  - (* an array of the caller *)
    destruct max_threshold as [thr|].
    + destruct (correct_bound C kind time true thr r h) as [res1 h1] eqn:H1.
      destruct (correct_bound_frame _ _ _ _ _ _ _ _ _ _ Ha H1)
        as [Hframe Hnew1].
      set (a' := nudged a thr (fsub thr (Fin 1))) in *.
      assert (<[r := a']> h ⊆ h1) as Hsub1.
      { apply map_subseteq_spec. intros r0 b Hb.
        destruct (decide (r0 = r)) as [->|Hne].
        - rewrite lookup_insert_eq in Hb. injection Hb as <-.
          rewrite (Hframe r a Ha). case_decide; congruence.
        - rewrite lookup_insert_ne in Hb by auto.
          rewrite (Hframe r0 b Hb). case_decide; congruence. }
      destruct res1 as [r1|e].
      2:{ intros [= <- <-]. split; [|split; [|discriminate]].
          - intros r0 b Hb Hne. rewrite (Hframe r0 b Hb).
            case_decide; congruence.
          - intros r0 [= <-].
            change (edges_nudged a min_threshold (Some thr)) with a'.
            rewrite (Hframe r a Ha). case_decide; congruence. }
      destruct (Hnew1 r1 eq_refl) as (Hf1 & clean1 & Hc1 & Hl1).
      assert (r1 <> r) as Hr1 by congruence.
      intros H2.
      apply (optional_block_fresh _ _ _ _ _ _ (<[r := a']> h) _ clean1) in H2
        as [Hsub2 Hnew2];
        [|assumption|rewrite lookup_insert_ne by auto; exact Hf1
         |assumption|lia].
      split; [|split].
      * intros r0 b Hb Hne.
        apply (lookup_weaken (<[r := a']> h)); [|exact Hsub2].
        rewrite lookup_insert_ne by congruence. exact Hb.
      * intros r0 [= <-].
        change (edges_nudged a min_threshold (Some thr)) with a'.
        apply (lookup_weaken (<[r := a']> h)); [|exact Hsub2].
        apply lookup_insert_eq.
      * intros r' Hres. destruct (Hnew2 r' Hres) as (Hf2 & clean & Hc & Hl).
        split; [exists clean; split; [exact Hc|lia]|].
        intros _. destruct (decide (r' = r)) as [->|Hne].
        -- rewrite lookup_insert_eq in Hf2. discriminate.
        -- rewrite lookup_insert_ne in Hf2 by auto. exact Hf2.
    + destruct min_threshold as [thr|].
      * intros H1.
        destruct (correct_bound_frame _ _ _ _ _ _ _ _ _ _ Ha H1)
          as [Hframe Hnew1].
        split; [|split].
        -- intros r0 b Hb Hne. rewrite (Hframe r0 b Hb).
           case_decide; congruence.
        -- intros r0 [= <-]. simpl. rewrite (Hframe r a Ha).
           case_decide; congruence.
        -- intros r' Hres.
           destruct (Hnew1 r' Hres) as (Hf & clean & Hc & Hl).
           split; [exists clean; split; [exact Hc|lia] | intros _; exact Hf].
      * intros [= <- <-]. split; [|split].
        -- intros r0 b Hb _. exact Hb.
        -- intros r0 [= <-]. exact Ha.
        -- intros r' [= <-]. split; [eauto|].
           intros [[? H]|[? H]]; discriminate H.
Qed.

(** C3 (amended): [interpolate_clipping] never changes another array of
    the caller, nor a list it is given; the array it is given ends as
    [edges_nudged] says, that is unchanged unless its first or last sample
    equals the first threshold applied; and when a threshold is given the
    array returned is a new one. *)
Theorem clipping_keeps_input_but_edges (C : Collaborators)
    (signal : pysignal) (min_threshold max_threshold : option f64)
    (kind : string) (h : heap) (a : list f64) (res : result loc) (h' : heap) :
  contents signal h = Some a ->
  interpolate_clipping C signal min_threshold max_threshold kind h
  = (res, h') ->
  (forall r b, h !! r = Some b -> signal <> NdArray r -> h' !! r = Some b)
  /\ (forall r, signal = NdArray r ->
        h' !! r = Some (edges_nudged a min_threshold max_threshold))
  /\ (edge_clipped a min_threshold max_threshold = false ->
      forall r b, h !! r = Some b -> h' !! r = Some b)
  /\ (forall r', res = Ok r' ->
        is_Some min_threshold \/ is_Some max_threshold -> h !! r' = None).
Proof.
  intros Ha Hrun.
  destruct (interpolate_clipping_effect _ _ _ _ _ _ _ _ _ Ha Hrun)
    as (Hother & Hself & Hnew).
  split; [exact Hother|]. split; [exact Hself|]. split.
  - intros Hedge r b Hb. destruct signal as [l|r0].
    + apply Hother; [exact Hb | discriminate].
    + destruct (decide (r = r0)) as [->|Hne].
      * rewrite (Hself r0 eq_refl). simpl in Ha.
        assert (b = a) as -> by congruence. f_equal.
        unfold edges_nudged, edge_clipped in *.
        destruct max_threshold as [thr|];
          [|destruct min_threshold as [thr|]; [|reflexivity]];
          apply nudged_no_edge; exact Hedge.
      * apply Hother; [exact Hb | congruence].
  - intros r' Hres Hthr. apply (Hnew r' Hres). exact Hthr.
Qed.

Lemma clipping_keeps_input_but_edges_witness :
  contents (NdArray 1) clipped_store
  = Some (of_Z <$> [255; 100; 120; 130; 255])
  /\ edge_clipped (of_Z <$> [255; 100; 120; 130; 255]) (Some (Fin 0)) None
     = false
  /\ forall r b, clipped_store !! r = Some b ->
       (interpolate_clipping Demo.collaborators (NdArray 1) (Some (Fin 0))
          None "linear" clipped_store).2 !! r = Some b.
Proof.
  split; [reflexivity|]. split; [reflexivity|].
  destruct (interpolate_clipping Demo.collaborators (NdArray 1)
              (Some (Fin 0)) None "linear" clipped_store) as [res h'] eqn:Hrun.
  destruct (clipping_keeps_input_but_edges Demo.collaborators (NdArray 1)
              (Some (Fin 0)) None "linear" clipped_store
              (of_Z <$> [255; 100; 120; 130; 255]) res h' eq_refl Hrun)
    as (_ & _ & Hkeep & _).
  apply Hkeep. reflexivity.
Defined.

(** C3, as stated, fails: with [max_threshold=255] the two pinned edges of
    the caller's array are overwritten in place (the call itself succeeds);
    and with both thresholds [None] the array returned is the caller's
    array itself, not a new one. *)
Lemma clipping_mutates_caller_array :
  clipped_store !! 1%positive = Some (of_Z <$> [255; 100; 120; 130; 255])
  /\ is_ok (interpolate_clipping Demo.collaborators (NdArray 1) None
              (Some (Fin 255)) "linear" clipped_store).1 = true
  /\ (interpolate_clipping Demo.collaborators (NdArray 1) None
        (Some (Fin 255)) "linear" clipped_store).2 !! 1%positive
     = Some (of_Z <$> [254; 100; 120; 130; 254])
  /\ (interpolate_clipping Demo.collaborators (NdArray 1) None None "cubic"
        clipped_store).1 = Ok 1%positive.
Proof. repeat split; vm_compute; reflexivity. Qed.

(** C7: with both thresholds [None], [interpolate_clipping] returns an
    array that holds the input signal, and changes nothing of the caller. *)
Theorem no_thresholds_identity (C : Collaborators) (signal : pysignal)
    (kind : string) (h : heap) (a : list f64) :
  contents signal h = Some a ->
  exists r h',
    interpolate_clipping C signal None None kind h = (Ok r, h')
    /\ h' !! r = Some a
    /\ (forall r0 b, h !! r0 = Some b -> h' !! r0 = Some b).
Proof.
  intros Ha. unfold interpolate_clipping. rewrite Ha.
  destruct signal as [l|r]; simpl in *.
  - injection Ha as ->.
    exists (fresh (dom h)), (<[fresh (dom h) := a]> h).
    split; [reflexivity|]. split; [apply lookup_insert_eq|].
    intros r0 b Hb. rewrite lookup_insert_ne; [exact Hb|].
    intros <-. pose proof (is_fresh (dom h)) as Hf.
    apply not_elem_of_dom in Hf. congruence.
  - exists r, h. auto.
Qed.

Lemma no_thresholds_identity_witness :
  exists r h',
    interpolate_clipping Demo.collaborators
      (PyList (of_Z <$> [255; 100; 120; 130; 255])) None None "cubic"
      clipped_store = (Ok r, h')
    /\ h' !! r = Some (of_Z <$> [255; 100; 120; 130; 255])
    /\ (forall r0 b, clipped_store !! r0 = Some b -> h' !! r0 = Some b).
Proof.
  apply (no_thresholds_identity Demo.collaborators
           (PyList (of_Z <$> [255; 100; 120; 130; 255])) "cubic"
           clipped_store).
  reflexivity.
Defined.

(** The same through [interpolate_clipping_array]. *)
Lemma interpolate_clipping_array_None (C : Collaborators) (x : list f64)
    (kind : string) :
  interpolate_clipping_array C x None None kind = Ok x.
Proof. reflexivity. Qed.

Lemma interpolate_clipping_array_length (C : Collaborators) (x y : list f64)
    (min_threshold max_threshold : option f64) (kind : string) :
  interpolate_clipping_array C x min_threshold max_threshold kind = Ok y ->
  length y = length x.
Proof.
  unfold interpolate_clipping_array.
  destruct (interpolate_clipping _ _ _ _ _ _) as [res h'] eqn:Hrun.
  assert (contents (NdArray 1) ({[1%positive := x]} : heap) = Some x) as Ha
    by apply lookup_singleton_eq.
  destruct (interpolate_clipping_effect _ _ _ _ _ _ _ _ _ Ha Hrun)
    as (_ & _ & Hnew).
  destruct res as [r|e]; [|discriminate].
  destruct (Hnew r eq_refl) as [(clean & Hc & Hl) _].
  rewrite Hc. intros [= <-]. exact Hl.
Qed.

(** ** [rsp_peaks] asked for troughs only *)

(** C4: with [kind="troughs"] the call never returns.  The troughs are
    found, but the branch that would return them tests [kind == "trough"],
    so the last branch runs and reads [peaks], which was never assigned:
    on the pulse wave the call ends in [UnboundLocalError]. *)
Theorem troughs_alone_never_returned :
  (forall (C : Collaborators) (signal : list f64) (sfreq new_sfreq : Z)
          (win : Q) (clean_nan : bool),
      exists e,
        rsp_peaks C signal sfreq
          {| RSP.new_sfreq := new_sfreq; RSP.win := win;
             RSP.kind := "troughs"; RSP.clean_nan := clean_nan |}
        = Err e)
  /\ rsp_peaks Demo.collaborators pulse_wave 10 (rsp_options 10 "troughs")
     = Err (UnboundLocalError "peaks")
  /\ is_ok (rsp_peaks Demo.collaborators pulse_wave 10
              (rsp_options 10 "peaks")) = true
  /\ is_ok (rsp_peaks Demo.collaborators pulse_wave 10
              (rsp_options 10 "peaks-troughs")) = true.
Proof.
  split; [|repeat split; vm_compute; reflexivity].
  intros C signal sfreq new_sfreq win clean_nan.
  unfold rsp_peaks. cbn [RSP.kind RSP.new_sfreq RSP.win RSP.clean_nan].
  change (negb (bool_decide
                  ("troughs" ∈ ["peaks"; "troughs"; "peaks-troughs"])))
    with false.
  cbv iota.
  destruct (clean_and_resample C signal sfreq new_sfreq clean_nan)
    as [x|e]; [|eexists; reflexivity].
  cbn [mbind result_bind].
  destruct (rolling_window_arg _) as [w|e]; [|eexists; reflexivity].
  change (contains "peaks" "troughs") with false.
  change (contains "troughs" "troughs") with true.
  cbn [mbind result_bind].
  destruct (rsp_events_of _ _ _) as [t|e]; [|eexists; reflexivity].
  eexists. reflexivity.
Qed.

(** ** Empty signals and sampling rates that are not positive *)



Lemma round64_zero (q : Q) : Qnum q = 0 -> round64 q = 0%Q.
Proof. unfold round64. intros ->. reflexivity. Qed.

(** Up to 0 there is no grid point. *)
Lemma arange_length_zero (stop step : Q) :
  Qnum stop = 0 -> arange_length stop step = 0%nat.
Proof.
  intros H. unfold arange_length. rewrite round64_zero; [reflexivity|].
  unfold Qdiv, Qmult. simpl. rewrite H. reflexivity.
Qed.

(** The resampling step is where an unusable rate or an empty signal is
    met first, when there is something to resample. *)
Lemma resample_failures (C : Collaborators) (signal : list f64)
    (sfreq new_sfreq : Z) :
  sfreq <> new_sfreq ->
  (sfreq = 0 \/ new_sfreq = 0 ->
   clean_and_resample C signal sfreq new_sfreq false = Err ZeroDivisionError)
  /\ (signal = [] -> sfreq <> 0 -> new_sfreq <> 0 ->
      clean_and_resample C signal sfreq new_sfreq false
      = Err (ValueError "array of sample points is empty")).
Proof.
  intros Hne. unfold clean_and_resample. cbn [andb mbind result_bind].
  destruct (decide (sfreq = new_sfreq)) as [?|_]; [contradiction|].
  split.
  - intros [->| ->]; [reflexivity|].
    destruct (Z.eqb_spec sfreq 0); reflexivity.
  - intros -> Hs Hn.
    destruct (Z.eqb_spec sfreq 0) as [?|_]; [contradiction|].
    destruct (Z.eqb_spec new_sfreq 0) as [?|_]; [contradiction|].
    unfold np_arange.
    rewrite (round64_zero (inject_Z (Z.of_nat (length (@nil f64))) / _))
      by reflexivity.
    rewrite !arange_length_zero by reflexivity. reflexivity.
Qed.

Lemma find_peaks_nil (height : f64) (distance : Z) :
  1 <= distance -> find_peaks [] height distance = Ok [].
Proof.
  intros Hd. unfold find_peaks.
  destruct (Z.ltb_spec distance 1); [lia|]. reflexivity.
Qed.

(** With nothing to resample and nothing to correct, [ppg_peaks] takes an
    empty signal to an empty peak vector. *)
Lemma ppg_peaks_empty (C : Collaborators) (sfreq : Z) (o : PPG.options) :
  PPG.new_sfreq o = sfreq ->
  PPG.clipping o = false ->
  PPG.clean_extra o = false ->
  0 <= samples sfreq (PPG.win o) ->
  1 <= samples sfreq (PPG.distance o) ->
  ppg_peaks C [] sfreq o = Ok ([], []).
Proof.
  intros Hs Hc He Hw Hd. unfold ppg_peaks, ppg_candidates, clean_and_resample.
  rewrite Hs, Hc, He. simpl existsb. rewrite andb_false_r.
  destruct (decide (sfreq = sfreq)) as [_|?]; [|contradiction].
  cbn [mbind result_bind].
  unfold rolling_window_arg.
  destruct (Z.ltb_spec (samples sfreq (PPG.win o)) 0); [lia|].
  cbn [mbind result_bind].
  destruct (PPG.moving_average o), (PPG.peak_enhancement o); simpl;
    rewrite find_peaks_nil by exact Hd; reflexivity.
Qed.

(** C5 (amended): the pipelines do not check their input.  An empty signal
    that needs no resampling, no clipping correction and no pruning gives
    an empty peak vector; and when the two rates differ (with [clean_nan]
    off), [ppg_peaks] and [ecg_peaks] meet a rate of zero, or an empty
    signal, in the resampling step, and raise the error of the arithmetic
    or of [np.interp]. *)
Theorem input_is_not_validated (C : Collaborators) :
  (forall (sfreq : Z) (o : PPG.options),
      PPG.new_sfreq o = sfreq ->
      PPG.clipping o = false ->
      PPG.clean_extra o = false ->
      0 <= samples sfreq (PPG.win o) ->
      1 <= samples sfreq (PPG.distance o) ->
      ppg_peaks C [] sfreq o = Ok ([], []))
  /\ (forall (signal : list f64) (sfreq : Z) (o : PPG.options)
             (e : ECG.options),
        PPG.clean_nan o = false -> ECG.clean_nan e = false ->
        sfreq <> PPG.new_sfreq o -> sfreq <> ECG.new_sfreq e ->
        (sfreq = 0 ->
         ppg_peaks C signal sfreq o = Err ZeroDivisionError
         /\ ecg_peaks C signal sfreq e = Err ZeroDivisionError)
        /\ (signal = [] -> sfreq <> 0 ->
            PPG.new_sfreq o <> 0 -> ECG.new_sfreq e <> 0 ->
            ppg_peaks C signal sfreq o
            = Err (ValueError "array of sample points is empty")
            /\ ecg_peaks C signal sfreq e
               = Err (ValueError "array of sample points is empty"))).
Proof.
  split; [intros; apply ppg_peaks_empty; assumption|].
  intros signal sfreq o e Hno Hne Hso Hse.
  unfold ppg_peaks, ppg_candidates, ecg_peaks. rewrite Hno, Hne.
  destruct (resample_failures C signal sfreq (PPG.new_sfreq o) Hso)
    as [Hz1 He1].
  destruct (resample_failures C signal sfreq (ECG.new_sfreq e) Hse)
    as [Hz2 He2].
  split.
  - intros Hz. rewrite Hz1, Hz2 by auto. split; reflexivity.
  - intros Hnil Hs Hn1 Hn2. rewrite He1, He2 by auto. split; reflexivity.
Qed.

Lemma input_is_not_validated_witness :
  ppg_peaks Demo.collaborators [] 75 (plain_options 75) = Ok ([], [])
  /\ ecg_peaks Demo.collaborators pulse_wave 0 (ecg_options 1000 "hamilton" false)
     = Err ZeroDivisionError
  /\ ppg_peaks Demo.collaborators [] 75 PPG.defaults
     = Err (ValueError "array of sample points is empty").
Proof.
  destruct (input_is_not_validated Demo.collaborators) as [Hempty Hresample].
  split.
  - apply Hempty; vm_compute; congruence.
  - destruct (Hresample pulse_wave 0 PPG.defaults
                (ecg_options 1000 "hamilton" false))
      as [Hzero _]; [reflexivity|reflexivity|discriminate|discriminate|].
    destruct (Hresample [] 75 PPG.defaults (ecg_options 1000 "hamilton" false))
      as [_ Hnil]; [reflexivity|reflexivity|discriminate|discriminate|].
    split.
    + apply Hzero. reflexivity.
    + apply Hnil; [reflexivity|discriminate|discriminate|discriminate].
Defined.

(** C5, as stated, fails: an empty signal at 1000 Hz, and three samples at
    a rate of -1 Hz, both come back from [ppg_peaks] with an empty peak
    vector instead of an error. *)
Lemma empty_signal_is_accepted :
  ppg_peaks Demo.collaborators [] 1000 (plain_options 1000) = Ok ([], [])
  /\ ppg_peaks Demo.collaborators [Fin 1; Fin 2; Fin 3] (-1)
       (plain_options 1000) = Ok ([], []).
Proof. split; vm_compute; reflexivity. Qed.

(** ** The method check of [ecg_peaks] *)

Lemma detector_named_Some (C : Collaborators) (method : string) :
  method ∈ methods <-> is_Some (detector_named C method).
Proof.
  unfold detector_named, methods. split.
  - intros H. repeat (apply elem_of_cons in H as [->|H]; [simpl; eauto|]).
    apply elem_of_nil in H. contradiction.
  - intros [d H].
    repeat match type of H with
           | context [decide (method = ?s)] =>
               destruct (decide (method = s)) as [->|?]; [set_solver|]
           end.
    discriminate H.
Qed.

(** Past the resampling step, [ecg_peaks] runs the detector its method
    names, or raises [invalid_method] when it names none. *)
Lemma ecg_peaks_dispatch (C : Collaborators) (signal : list f64) (sfreq : Z)
    (o : ECG.options) (x : list f64) :
  clean_and_resample C signal sfreq (ECG.new_sfreq o) (ECG.clean_nan o)
  = Ok x ->
  ecg_peaks C signal sfreq o
  = match detector_named C (ECG.method o) with
    | Some d => d x (ECG.new_sfreq o) ≫= ecg_finish C o x
    | None => Err invalid_method
    end.
Proof.
  intros Hx. unfold ecg_peaks, detector_named. rewrite Hx.
  cbn [mbind result_bind].
  repeat (case_decide; [reflexivity|]). reflexivity.
Qed.

Lemma np_index_not_invalid_method (n : nat) (i : Z) :
  np_index n i <> Err invalid_method.
Proof. unfold np_index. repeat case_match; discriminate. Qed.

Lemma set_at_not_invalid_method (a : list bool) (idx : list Z) (v : bool) :
  set_at a idx v <> Err invalid_method.
Proof.
  unfold set_at.
  assert (forall l, mapM (np_index (length a)) l <> Err invalid_method) as H.
  { induction l as [|i l IH]; simpl; [discriminate|].
    pose proof (np_index_not_invalid_method (length a) i) as Hi.
    destruct (np_index (length a) i); simpl; [|congruence].
    destruct (mapM _ l); simpl; [discriminate|congruence]. }
  specialize (H idx). destruct (mapM _ idx); simpl; congruence.
Qed.

Lemma clean_and_resample_error (C : Collaborators) (signal : list f64)
    (sfreq new_sfreq : Z) (clean_nan : bool) :
  (forall x, nan_cleaning C x <> Err invalid_method) ->
  clean_and_resample C signal sfreq new_sfreq clean_nan <> Err invalid_method.
Proof.
  intros Hnan. unfold clean_and_resample.
  assert ((if clean_nan && existsb isnan signal
           then nan_cleaning C signal else Ok signal) <> Err invalid_method)
    as Hclean by (destruct (_ && _); [apply Hnan | discriminate]).
  destruct (if clean_nan && existsb isnan signal then _ else _) as [x|e];
    cbn [mbind result_bind]; [|congruence].
  unfold np_interp. repeat case_match; discriminate.
Qed.

(** C9 (amended): [ecg_peaks] raises the error of its method check only
    when the method is none of the six names it knows, and always then once
    the signal is cleaned and resampled; with a known name it goes on to
    run the detector of that name on the resampled signal.  When the
    cleaning or the resampling raises, which comes before the check, the
    call raises that error whatever the method. *)
Theorem method_check (C : Collaborators) (signal : list f64) (sfreq : Z)
    (o : ECG.options) :
  method_error_is_own C ->
  (ecg_peaks C signal sfreq o = Err invalid_method ->
   ECG.method o ∉ methods)
  /\ (forall x,
        clean_and_resample C signal sfreq (ECG.new_sfreq o) (ECG.clean_nan o)
        = Ok x ->
        (ECG.method o ∉ methods ->
         ecg_peaks C signal sfreq o = Err invalid_method)
        /\ (ECG.method o ∈ methods ->
            exists d,
              detector_named C (ECG.method o) = Some d
              /\ ecg_peaks C signal sfreq o
                 = d x (ECG.new_sfreq o) ≫= ecg_finish C o x))
  /\ (forall e,
        clean_and_resample C signal sfreq (ECG.new_sfreq o) (ECG.clean_nan o)
        = Err e ->
        ecg_peaks C signal sfreq o = Err e).
Proof.
  intros (Hnan & Hnb & Hdet).
  pose proof (detector_named_Some C (ECG.method o)) as Hnamed.
  split; [|split].
  3:{ intros e He. unfold ecg_peaks. rewrite He. reflexivity. }
  - intros Hraise Hin.
    destruct (clean_and_resample C signal sfreq (ECG.new_sfreq o)
                (ECG.clean_nan o)) as [x|e] eqn:Hx.
    2:{ apply (clean_and_resample_error C signal sfreq (ECG.new_sfreq o)
                 (ECG.clean_nan o) Hnan).
        unfold ecg_peaks in Hraise. rewrite Hx in Hraise.
        cbn [mbind result_bind] in Hraise. congruence. }
    rewrite (ecg_peaks_dispatch C signal sfreq o x Hx) in Hraise.
    apply Hnamed in Hin as [d Hd]. rewrite Hd in Hraise.
    destruct (d x (ECG.new_sfreq o)) as [idx|e] eqn:Hrun.
    + cbn [mbind result_bind] in Hraise. unfold ecg_finish in Hraise.
      destruct (set_at _ idx true) as [p|e] eqn:Hset.
      * cbn [mbind result_bind] in Hraise.
        destruct (ECG.find_local o); [|discriminate].
        destruct (to_neighbour C x p _) as [p'|e] eqn:Hn; [discriminate|].
        apply (Hnb x p (samples (ECG.new_sfreq o) (ECG.win_size o))).
        rewrite Hn. cbn [mbind result_bind] in Hraise. congruence.
      * apply (set_at_not_invalid_method (np_zeros (length x)) idx true).
        rewrite Hset. cbn [mbind result_bind] in Hraise. congruence.
    + apply (Hdet (ECG.method o) d x (ECG.new_sfreq o) Hd).
      rewrite Hrun. cbn [mbind result_bind] in Hraise. congruence.
  - intros x Hx. rewrite (ecg_peaks_dispatch C signal sfreq o x Hx).
    destruct (detector_named C (ECG.method o)) as [d|] eqn:Hd.
    + split.
      * intros Hnot. exfalso. apply Hnot, Hnamed. eauto.
      * intros _. exists d. split; reflexivity.
    + split; [reflexivity|].
      intros Hin. apply Hnamed in Hin as [? Hin]. discriminate Hin.
Qed.

Lemma demo_detector_error (s : list f64) (f : Z) :
  Demo.detector s f <> Err invalid_method.
Proof.
  unfold Demo.detector, find_peaks.
  destruct (_ <? 1); simpl; discriminate.
Qed.

Lemma demo_method_error_is_own : method_error_is_own Demo.collaborators.
Proof.
  split; [|split].
  - intros x. simpl. unfold Demo.linear_nan_cleaning, np_interp.
    repeat case_match; discriminate.
  - intros s p k. simpl. unfold Demo.nearest_maximum.
    destruct (k <? 0); discriminate.
  - intros name d s f. unfold detector_named. simpl.
    repeat (destruct (decide _);
              [intros [= <-]; apply demo_detector_error|]).
    discriminate.
Qed.

Lemma method_check_witness :
  ecg_peaks Demo.collaborators pulse_wave 10
    (ecg_options 20 "wavelet-transform" false) = Err invalid_method
  /\ exists x d,
       clean_and_resample Demo.collaborators pulse_wave 10 20 false = Ok x
       /\ detector_named Demo.collaborators "hamilton" = Some d
       /\ ecg_peaks Demo.collaborators pulse_wave 10
            (ecg_options 20 "hamilton" false)
          = d x 20 ≫= ecg_finish Demo.collaborators
                         (ecg_options 20 "hamilton" false) x.
Proof.
  destruct (clean_and_resample Demo.collaborators pulse_wave 10 20 false)
    as [x|e] eqn:Hx; [|vm_compute in Hx; discriminate Hx].
  split.
  - destruct (method_check Demo.collaborators pulse_wave 10
                (ecg_options 20 "wavelet-transform" false)
                demo_method_error_is_own) as (_ & Hreached & _).
    apply (Hreached x Hx). clear Hx.
    unfold methods. cbn [ECG.method ecg_options].
    rewrite !not_elem_of_cons.
    repeat split; try discriminate. apply not_elem_of_nil.
  - destruct (method_check Demo.collaborators pulse_wave 10
                (ecg_options 20 "hamilton" false)
                demo_method_error_is_own) as (_ & Hreached & _).
    destruct (Hreached x Hx) as [_ Hknown].
    destruct Hknown as (d & Hd & Hrun);
      [apply list_elem_of_further, list_elem_of_here|].
    exists x, d. split; [reflexivity|]. split; [exact Hd | exact Hrun].
Defined.

(** C9, as stated, fails: with a method that is not recognised, a rate of
    zero or an empty signal makes the resampling raise first, and the call
    ends with that error, not with the error of the method check. *)
Lemma unknown_method_meets_resampling_first :
  bool_decide ("wavelet-transform" ∈ methods) = false
  /\ ecg_peaks Demo.collaborators pulse_wave 0
       (ecg_options 1000 "wavelet-transform" false) = Err ZeroDivisionError
  /\ ecg_peaks Demo.collaborators [] 10
       (ecg_options 1000 "wavelet-transform" false)
     = Err (ValueError "array of sample points is empty").
Proof. repeat split; vm_compute; reflexivity. Qed.

(** ** Index lists: ascending and in range *)

Lemma sorted_seq (s n : nat) : StronglySorted lt (seq s n).
Proof.
  revert s. induction n as [|n IH]; intros s; simpl; constructor.
  - apply IH.
  - apply Forall_forall. intros i Hi.
    apply list_elem_of_In, in_seq in Hi. lia.
Qed.

Lemma sorted_filter (f : nat -> bool) (l : list nat) :
  StronglySorted lt l -> StronglySorted lt (List.filter f l).
Proof.
  induction 1 as [|x l Hl IH Hx]; simpl; [constructor|].
  destruct (f x); [|exact IH].
  constructor; [exact IH|].
  apply Forall_forall. intros y Hy.
  apply list_elem_of_In, filter_In in Hy as [Hy _].
  rewrite Forall_forall in Hx. apply Hx, list_elem_of_In, Hy.
Qed.

Lemma elem_of_compress {A} (keep : list bool) (a : list A) (x : A) :
  x ∈ compress keep a <->
  exists j, keep !! j = Some true /\ a !! j = Some x.
Proof.
  unfold compress. revert keep.
  induction a as [|y a IH]; intros keep.
  - simpl. split; [intros H; apply elem_of_nil in H; contradiction|].
    intros (j & _ & H). rewrite lookup_nil in H. discriminate.
  - destruct keep as [|b keep].
    { simpl. split; [intros H; apply elem_of_nil in H; contradiction|].
      intros (j & H & _). rewrite lookup_nil in H. discriminate. }
    destruct b; simpl.
    + rewrite elem_of_cons, IH. split.
      * intros [->|(j & Hk & Ha)]; [exists 0%nat; auto | exists (S j); auto].
      * intros ([|j] & Hk & Ha); simpl in *; [left; congruence | right; eauto].
    + rewrite IH. split.
      * intros (j & Hk & Ha). exists (S j); auto.
      * intros ([|j] & Hk & Ha); simpl in *; [discriminate | eauto].
Qed.

Lemma sorted_compress (keep : list bool) (l : list nat) :
  StronglySorted lt l -> StronglySorted lt (compress keep l).
Proof.
  intros Hl. revert keep.
  induction Hl as [|x l Hl IH Hx]; intros keep; [constructor|].
  destruct keep as [|b keep]; [constructor|].
  unfold compress. destruct b; simpl; [|apply IH].
  constructor; [apply IH|].
  apply Forall_forall. intros y Hy.
  apply (elem_of_compress keep l y) in Hy as (j & _ & Hj).
  rewrite Forall_forall in Hx. apply Hx.
  apply list_elem_of_lookup. eauto.
Qed.

Lemma sorted_lt_NoDup (l : list nat) : StronglySorted lt l -> NoDup l.
Proof.
  induction 1 as [|x l Hl IH Hx]; constructor; [|exact IH].
  intros Hin. rewrite Forall_forall in Hx. specialize (Hx x Hin). lia.
Qed.

(** The indices [find_peaks] returns are ascending, without repeats, and
    within the signal. *)
Lemma find_peaks_sorted (x : list f64) (height : f64) (distance : Z)
    (idx : list nat) :
  find_peaks x height distance = Ok idx ->
  StronglySorted lt idx /\ Forall (fun i => (i < length x)%nat) idx.
Proof.
  unfold find_peaks. destruct (distance <? 1); [discriminate|].
  intros [= <-]. split.
  - apply sorted_compress, sorted_filter. unfold local_maxima.
    apply sorted_filter, sorted_seq.
  - apply Forall_forall. intros i Hi.
    apply elem_of_compress in Hi as (j & _ & Hj).
    apply list_elem_of_lookup_2, list_elem_of_In, filter_In in Hj as [Hj _].
    unfold local_maxima in Hj. apply filter_In in Hj as [Hj _].
    apply in_seq in Hj. lia.
Qed.

(** ** Writing a peak vector *)

Lemma length_foldl_insert {A} (a : list A) (ks : list nat) (v : A) :
  length (foldl (fun (a : list A) (k : nat) => <[k := v]> a) a ks)
  = length a.
Proof.
  revert a. induction ks as [|k ks IH]; intros a; simpl; [reflexivity|].
  rewrite IH. apply length_insert.
Qed.

Lemma set_at_length (a : list bool) (idx : list Z) (v : bool) (b : list bool) :
  set_at a idx v = Ok b -> length b = length a.
Proof.
  unfold set_at. intros H. apply bind_Ok in H as (ks & _ & [= <-]).
  apply length_foldl_insert.
Qed.

Lemma lookup_foldl_insert {A} (a : list A) (ks : list nat) (v : A) (i : nat) :
  foldl (fun (a : list A) (k : nat) => <[k := v]> a) a ks !! i
  = if decide (i ∈ ks) then (fun _ => v) <$> a !! i else a !! i.
Proof.
  revert a. induction ks as [|k ks IH]; intros a; cbn [foldl].
  - rewrite decide_False by apply not_elem_of_nil. reflexivity.
  - rewrite IH.
    assert ((fun _ : A => v) <$> <[k := v]> a !! i
            = (fun _ : A => v) <$> a !! i) as Hsame.
    { destruct (decide (i = k)) as [->|Hne];
        [|rewrite list_lookup_insert_ne by auto; reflexivity].
      destruct (decide (k < length a)%nat) as [Hlt|Hge];
        [|rewrite list_insert_ge by lia; reflexivity].
      rewrite list_lookup_insert_eq by exact Hlt.
      destruct (lookup_lt_is_Some_2 a k Hlt) as [y ->]. reflexivity. }
    destruct (decide (i ∈ ks)) as [Hin|Hnin].
    + rewrite decide_True by (apply list_elem_of_further, Hin). exact Hsame.
    + destruct (decide (i = k)) as [->|Hne].
      * rewrite decide_True by apply list_elem_of_here.
        destruct (decide (k < length a)%nat) as [Hlt|Hge].
        -- rewrite list_lookup_insert_eq by exact Hlt.
           destruct (lookup_lt_is_Some_2 a k Hlt) as [y ->]. reflexivity.
        -- rewrite list_insert_ge by lia.
           rewrite (lookup_ge_None_2 a k) by lia. reflexivity.
      * rewrite decide_False
          by (intros [?|?]%elem_of_cons; [apply Hne|apply Hnin]; assumption).
        apply list_lookup_insert_ne. auto.
Qed.

(** Indices in range are written as they are. *)
Lemma set_at_in_range (a : list bool) (idx : list nat) (v : bool) :
  Forall (fun i => (i < length a)%nat) idx ->
  set_at a (Z.of_nat <$> idx) v
  = Ok (foldl (fun (a : list bool) (k : nat) => <[k := v]> a) a idx).
Proof.
  intros Hall. unfold set_at.
  assert (mapM (np_index (length a)) (Z.of_nat <$> idx) = Ok idx) as ->;
    [|reflexivity].
  induction Hall as [|i idx Hi _ IH]; [reflexivity|].
  simpl. change (list_fmap nat Z Z.of_nat idx) with (Z.of_nat <$> idx).
  rewrite IH. unfold np_index.
  destruct (Z.leb_spec 0 (Z.of_nat i)); [|lia].
  destruct (Z.ltb_spec (Z.of_nat i) (Z.of_nat (length a))); [|lia].
  simpl. rewrite Nat2Z.id. reflexivity.
Qed.

(** [np.where] of a vector written at ascending indices gives them back. *)
Lemma np_where_marks (n : nat) (idx : list nat) :
  StronglySorted lt idx ->
  Forall (fun i => (i < n)%nat) idx ->
  np_where (foldl (fun (a : list bool) (k : nat) => <[k := true]> a)
              (np_zeros n) idx) = idx.
Proof.
  intros Hs Hall. unfold np_where.
  rewrite length_foldl_insert. unfold np_zeros. rewrite length_replicate.
  apply (StronglySorted_unique_strong lt).
  - intros; lia.
  - apply sorted_filter, sorted_seq.
  - exact Hs.
  - apply NoDup_Permutation.
    + apply sorted_lt_NoDup, sorted_filter, sorted_seq.
    + apply sorted_lt_NoDup, Hs.
    + intros i. rewrite list_elem_of_In, filter_In, in_seq.
      rewrite lookup_foldl_insert. split.
      * intros [Hi Ht]. case_decide as Hin; [exact Hin|].
        rewrite lookup_replicate_2 in Ht by lia. discriminate.
      * intros Hin. rewrite Forall_forall in Hall.
        specialize (Hall i Hin). split; [lia|].
        rewrite decide_True by exact Hin.
        rewrite lookup_replicate_2 by lia. reflexivity.
Qed.

(** ** Lengths in the pipelines *)

Lemma remove_clipping_length (C : Collaborators) (o : PPG.options)
    (x y : list f64) :
  remove_clipping C o x = Ok y -> length y = length x.
Proof.
  unfold remove_clipping. intros H.
  apply bind_Ok in H as ([lo hi] & _ & H).
  apply interpolate_clipping_array_length in H. exact H.
Qed.

(** The thresholded signal is as long as the resampled one, and the
    candidate peaks are ascending indices into it. *)
Lemma ppg_candidates_inv (C : Collaborators) (signal : list f64) (sfreq : Z)
    (o : PPG.options) (rs x : list f64) (idx : list nat) :
  ppg_candidates C signal sfreq o = Ok (rs, x, idx) ->
  length x = length rs
  /\ StronglySorted lt idx
  /\ Forall (fun i => (i < length x)%nat) idx.
Proof.
  unfold ppg_candidates. intros H.
  apply bind_Ok in H as (x0 & _ & H).
  apply bind_Ok in H as (x1 & Hclip & H).
  apply bind_Ok in H as (w & _ & H).
  apply bind_Ok in H as (idx' & Hfind & H).
  injection H as <- <- <-.
  apply find_peaks_sorted in Hfind as [Hs Hr].
  split; [|split; [exact Hs | exact Hr]].
  assert (length x1 = length x0) as Hx1.
  { destruct (PPG.clipping o); [|congruence].
    apply remove_clipping_length in Hclip. exact Hclip. }
  destruct (PPG.moving_average o), (PPG.peak_enhancement o); lengths; lia.
Qed.

Lemma ppg_peaks_length (C : Collaborators) (signal : list f64) (sfreq : Z)
    (o : PPG.options) (rs : list f64) (peaks : list bool) :
  ppg_peaks C signal sfreq o = Ok (rs, peaks) -> length peaks = length rs.
Proof.
  unfold ppg_peaks. intros H.
  apply bind_Ok in H as ([[rs' x] idx] & Hc & H).
  apply ppg_candidates_inv in Hc as (Hlen & _ & _).
  apply bind_Ok in H as (p0 & Hp0 & H).
  apply set_at_length in Hp0. unfold np_zeros in Hp0.
  rewrite length_replicate in Hp0.
  destruct (PPG.clean_extra o).
  - apply bind_Ok in H as (rep & _ & H).
    apply bind_Ok in H as (flagged & _ & H).
    apply bind_Ok in H as (p1 & Hp1 & H).
    apply set_at_length in Hp1. injection H as <- <-. lia.
  - injection H as <- <-. lia.
Qed.

Lemma ecg_peaks_length (C : Collaborators) (signal : list f64) (sfreq : Z)
    (o : ECG.options) (rs : list f64) (peaks : list bool) :
  (forall s p k r, to_neighbour C s p k = Ok r -> length r = length p) ->
  ecg_peaks C signal sfreq o = Ok (rs, peaks) -> length peaks = length rs.
Proof.
  intros Hnb. unfold ecg_peaks. intros H.
  apply bind_Ok in H as (x & _ & H).
  apply bind_Ok in H as (idx & _ & H).
  unfold ecg_finish in H.
  apply bind_Ok in H as (p0 & Hp0 & H).
  apply set_at_length in Hp0. unfold np_zeros in Hp0.
  rewrite length_replicate in Hp0.
  apply bind_Ok in H as (p1 & Hp1 & H).
  injection H as <- <-.
  destruct (ECG.find_local o).
  - apply Hnb in Hp1. lia.
  - injection Hp1 as <-. exact Hp0.
Qed.

Lemma rsp_events_of_length (x : list f64) (sfreq : Z) (n : nat)
    (p : list bool) :
  rsp_events_of x sfreq n = Ok p -> length p = n.
Proof.
  unfold rsp_events_of. intros H.
  apply bind_Ok in H as (idx & _ & H).
  apply set_at_length in H. unfold np_zeros in H.
  rewrite length_replicate in H. exact H.
Qed.

Lemma rsp_peaks_length (C : Collaborators) (signal : list f64) (sfreq : Z)
    (o : RSP.options) (rs : list f64) (ev : rsp_events) :
  rsp_peaks C signal sfreq o = Ok (rs, ev) -> events_length (length rs) ev.
Proof.
  unfold rsp_peaks. destruct (negb _); [discriminate|]. intros H.
  apply bind_Ok in H as (x & _ & H).
  apply bind_Ok in H as (w & _ & H).
  apply bind_Ok in H as (peaks & Hp & H).
  apply bind_Ok in H as (troughs & Ht & H).
  assert (forall p, peaks = Some p -> length p = length x) as Hpl.
  { intros p ->. destruct (contains "peaks" _); [|discriminate].
    apply fmap_Ok in Hp as (p' & Hp & [= ->]).
    apply rsp_events_of_length in Hp. exact Hp. }
  assert (forall t, troughs = Some t -> length t = length x) as Htl.
  { intros t ->. destruct (contains "troughs" _); [|discriminate].
    apply fmap_Ok in Ht as (t' & Ht & [= ->]).
    apply rsp_events_of_length in Ht. exact Ht. }
  destruct (decide (RSP.kind o = "peaks")).
  - apply bind_Ok in H as (p & Hr & [= <- <-]).
    destruct peaks; [|discriminate]. injection Hr as ->.
    simpl. auto.
  - destruct (decide (RSP.kind o = "trough")).
    + apply bind_Ok in H as (t & Hr & [= <- <-]).
      destruct troughs; [|discriminate]. injection Hr as ->.
      simpl. auto.
    + apply bind_Ok in H as (p & Hr1 & H).
      apply bind_Ok in H as (t & Hr2 & [= <- <-]).
      destruct peaks; [|discriminate]. injection Hr1 as ->.
      destruct troughs; [|discriminate]. injection Hr2 as ->.
      simpl. auto.
Qed.

(** C8: the peak vector (or each of the two vectors) a detector returns is
    as long as the resampled signal returned with it, provided
    [to_neighbour], which [ecg_peaks] may end with, keeps the length of the
    vector it is given. *)
Theorem peak_vector_length (C : Collaborators) :
  (forall s p k r, to_neighbour C s p k = Ok r -> length r = length p) ->
  (forall signal sfreq o rs peaks,
      ppg_peaks C signal sfreq o = Ok (rs, peaks) ->
      length peaks = length rs)
  /\ (forall signal sfreq o rs peaks,
        ecg_peaks C signal sfreq o = Ok (rs, peaks) ->
        length peaks = length rs)
  /\ (forall signal sfreq o rs ev,
        rsp_peaks C signal sfreq o = Ok (rs, ev) ->
        events_length (length rs) ev).
Proof.
  intros Hnb. split; [|split].
  - intros signal sfreq o rs peaks. apply ppg_peaks_length.
  - intros signal sfreq o rs peaks. apply ecg_peaks_length, Hnb.
  - intros signal sfreq o rs ev. apply rsp_peaks_length.
Qed.

Lemma foldl_keeps_length {A B} (f : list A -> B -> list A) (a : list A)
    (l : list B) :
  (forall acc x, length (f acc x) = length acc) ->
  length (foldl f a l) = length a.
Proof.
  intros Hf. revert a. induction l as [|x l IH]; intros a; simpl;
    [reflexivity|].
  rewrite IH. apply Hf.
Qed.

Lemma demo_to_neighbour_length (s : list f64) (p : list bool) (k : Z)
    (r : list bool) :
  to_neighbour Demo.collaborators s p k = Ok r -> length r = length p.
Proof.
  simpl. unfold Demo.nearest_maximum. destruct (k <? 0); [discriminate|].
  intros [= <-]. apply foldl_keeps_length.
  intros acc x. rewrite !length_insert. reflexivity.
Qed.

Lemma peak_vector_length_witness :
  (exists rs p,
      ppg_peaks Demo.collaborators pulse_wave 10 (plain_options 10)
      = Ok (rs, p)
      /\ length p = length rs /\ length rs = 46%nat)
  /\ (exists rs p,
        ecg_peaks Demo.collaborators pulse_wave 10
          (ecg_options 20 "hamilton" true) = Ok (rs, p)
        /\ length p = length rs /\ length rs = 92%nat)
  /\ (exists rs ev,
        rsp_peaks Demo.collaborators pulse_wave 10
          (rsp_options 10 "peaks-troughs") = Ok (rs, ev)
        /\ events_length (length rs) ev /\ length rs = 46%nat).
Proof.
  destruct (peak_vector_length Demo.collaborators demo_to_neighbour_length)
    as (Hppg & Hecg & Hrsp).
  split; [|split].
  - destruct (ppg_peaks _ _ _ _) as [[rs p]|e] eqn:E;
      [|vm_compute in E; discriminate E].
    exists rs, p. split; [reflexivity|].
    split; [exact (Hppg _ _ _ _ _ E)|].
    vm_compute in E. injection E as <- _. reflexivity.
  - destruct (ecg_peaks _ _ _ _) as [[rs p]|e] eqn:E;
      [|vm_compute in E; discriminate E].
    exists rs, p. split; [reflexivity|].
    split; [exact (Hecg _ _ _ _ _ E)|].
    vm_compute in E. injection E as <- _. reflexivity.
  - destruct (rsp_peaks _ _ _ _) as [[rs ev]|e] eqn:E;
      [|vm_compute in E; discriminate E].
    exists rs, ev. split; [reflexivity|].
    split; [exact (Hrsp _ _ _ _ _ E)|].
    vm_compute in E. injection E as <- _. reflexivity.
Defined.

(** ** Pruning the extra peaks in [ppg_peaks] *)

Lemma length_np_diff (l : list Z) : length (np_diff l) = (length l - 1)%nat.
Proof. unfold np_diff. rewrite length_zip_with, length_drop. lia. Qed.

Lemma boolean_index_Ok {A} (a : list A) (mask : list bool) (r : list A) :
  boolean_index a mask = Ok r ->
  length mask = length a /\ r = compress mask a.
Proof.
  unfold boolean_index. case_decide as Hlen; [|discriminate].
  intros [= <-]. auto.
Qed.

(** C10: with [clean_extra], the vector [ppg_peaks] returns marks the
    detected peaks but those that end an interval flagged "extra" by
    [rr_artefacts] on the differences of the peak indices; the first
    detected peak always stays. *)
Theorem extra_peaks_pruned (C : Collaborators) (signal : list f64)
    (sfreq : Z) (o : PPG.options) (rs : list f64) (peaks : list bool) :
  PPG.clean_extra o = true ->
  ppg_peaks C signal sfreq o = Ok (rs, peaks) ->
  exists x idx rep,
    ppg_candidates C signal sfreq o = Ok (rs, x, idx)
    /\ StronglySorted lt idx
    /\ rr_artefacts_default C (IntArray (np_diff (Z.of_nat <$> idx))) = Ok rep
    /\ S (length (extra rep)) = length idx
    /\ (forall i : nat,
          peaks !! i = Some true <->
          exists j : nat,
            idx !! j = Some i
            /\ (j = 0%nat \/ extra rep !! (j - 1)%nat = Some false))
    /\ (forall p : nat, idx !! 0%nat = Some p -> peaks !! p = Some true).
Proof.
  intros Hclean H. unfold ppg_peaks in H.
  apply bind_Ok in H as ([[rs' x] idx] & Hc & H).
  destruct (ppg_candidates_inv _ _ _ _ _ _ _ Hc) as (Hlen & Hs & Hr).
  assert (length (np_zeros (length x)) = length x) as Hz
    by apply length_replicate.
  apply bind_Ok in H as (p0 & Hp0 & H).
  rewrite set_at_in_range in Hp0 by (rewrite Hz; exact Hr).
  injection Hp0 as <-.
  rewrite Hclean, np_where_marks in H by assumption.
  apply bind_Ok in H as (rep & Hrep & H).
  apply bind_Ok in H as (flagged & Hfl & H).
  apply boolean_index_Ok in Hfl as [Hmask ->].
  set (p0 := foldl _ (np_zeros (length x)) idx) in *.
  assert (length p0 = length x) as Hp0
    by (unfold p0; rewrite length_foldl_insert; exact Hz).
  assert (forall i, i ∈ compress (extra rep) (drop 1 idx) <->
                    exists j, extra rep !! j = Some true
                              /\ idx !! S j = Some i) as Hflag.
  { intros i. rewrite elem_of_compress.
    split; intros (j & Hj & Hi); exists j; (split; [exact Hj|]);
      rewrite lookup_drop in *; exact Hi. }
  rewrite set_at_in_range in H.
  2:{ apply Forall_forall. intros i Hi. rewrite Hp0.
      apply Hflag in Hi as (j & _ & Hi).
      rewrite Forall_forall in Hr. apply Hr.
      apply list_elem_of_lookup. eauto. }
  cbn [mbind result_bind] in H. injection H as <- <-.
  destruct (rr_artefacts_aligned C _ _ _ _ _ Hrep) as [Hn [_ _ _ _ Hextra]].
  simpl values in Hn, Hextra.
  rewrite length_fmap, length_np_diff, length_fmap in Hn, Hextra.
  assert (forall i, p0 !! i = Some true <-> i ∈ idx) as Hmark.
  { intros i. unfold p0. rewrite lookup_foldl_insert. unfold np_zeros.
    split.
    - case_decide as Hin; [auto|]. intros Hi.
      apply lookup_replicate in Hi as [Hi _]. discriminate.
    - intros Hin. rewrite decide_True by exact Hin.
      rewrite Forall_forall in Hr.
      rewrite lookup_replicate_2 by (apply Hr, Hin). reflexivity. }
  assert (forall i, foldl (fun (a : list bool) (k : nat) => <[k := false]> a)
                      p0 (compress (extra rep) (drop 1 idx)) !! i = Some true
                    <-> i ∈ idx /\ i ∉ compress (extra rep) (drop 1 idx))
    as Hkept.
  { intros i. rewrite lookup_foldl_insert. rewrite <- Hmark.
    case_decide as Hin.
    - split; [|intros [_ ?]; contradiction].
      destruct (p0 !! i); discriminate.
    - split; [auto | intros [? _]; assumption]. }
  pose proof (sorted_lt_NoDup idx Hs) as Hnodup.
  assert (forall i, foldl (fun (a : list bool) (k : nat) => <[k := false]> a)
                      p0 (compress (extra rep) (drop 1 idx)) !! i = Some true
                    <-> exists j, idx !! j = Some i
                                  /\ (j = 0%nat
                                      \/ extra rep !! (j - 1)%nat = Some false))
    as Hiff.
  { intros i. rewrite Hkept, Hflag. split.
    - intros [Hin Hnot].
      apply list_elem_of_lookup in Hin as [j Hj].
      exists j. split; [exact Hj|].
      destruct j as [|j]; [left; reflexivity | right].
      simpl. rewrite Nat.sub_0_r.
      assert (j < length (extra rep))%nat as Hlt
          by (apply lookup_lt_Some in Hj; lia).
      destruct (lookup_lt_is_Some_2 _ _ Hlt) as [[|] Hb]; [|exact Hb].
      exfalso. apply Hnot. eauto.
    - intros (j & Hj & Hfree). split; [apply list_elem_of_lookup; eauto|].
      intros (j' & Hj' & Hi).
      pose proof (NoDup_lookup _ _ _ _ Hnodup Hj Hi) as ->.
      destruct Hfree as [?|Hfree]; [discriminate|].
      simpl in Hfree. rewrite Nat.sub_0_r in Hfree. congruence. }
  exists x, idx, rep.
  split; [exact Hc|]. split; [exact Hs|]. split; [exact Hrep|].
  split; [lia|]. split; [exact Hiff|].
  intros p Hp. apply Hiff. exists 0%nat. auto.
Qed.

Lemma extra_peaks_pruned_witness :
  exists rs peaks x idx,
    ppg_peaks Demo.collaborators pulse_wave_extra 20 (pruning_options 20)
    = Ok (rs, peaks)
    /\ ppg_candidates Demo.collaborators pulse_wave_extra 20
         (pruning_options 20) = Ok (rs, x, idx)
    /\ idx !! 0%nat = Some 19%nat /\ idx !! 6%nat = Some 115%nat
    /\ peaks !! 19%nat = Some true
    /\ peaks !! 115%nat = Some false.
Proof.
  destruct (ppg_peaks Demo.collaborators pulse_wave_extra 20
              (pruning_options 20)) as [[rs peaks]|e] eqn:E;
    [|vm_compute in E; discriminate E].
  destruct (extra_peaks_pruned Demo.collaborators pulse_wave_extra 20
              (pruning_options 20) rs peaks eq_refl E)
    as (x & idx & rep & Hc & _ & _ & _ & _ & Hfirst).
  exists rs, peaks, x, idx.
  split; [reflexivity|]. split; [exact Hc|].
  assert (idx !! 0%nat = Some 19%nat) as H0
    by (vm_compute in Hc; injection Hc as _ _ <-; reflexivity).
  split; [exact H0|].
  split; [vm_compute in Hc; injection Hc as _ _ <-; reflexivity|].
  split; [apply Hfirst, H0|].
  vm_compute in E. injection E as _ <-. reflexivity.
Defined.

(** * Further properties *)

(** ** When [rr_artefacts] returns *)

Lemma fin_is_Fin (q : Q) : exists q', fin q = Fin q'.
Proof. unfold fin. eauto. Qed.

Lemma fsum_finite (l : list f64) (q : Q) :
  Forall (fun x => isfinite x = true) l ->
  exists q', foldl fadd (Fin q) l = Fin q'.
Proof.
  intros Hl. revert q. induction Hl as [|x l Hx _ IH]; intros q; simpl.
  - eauto.
  - destruct x as [qx| | |]; try discriminate. apply IH.
Qed.

Lemma np_mean_finite (l : list f64) :
  l <> [] -> Forall (fun x => isfinite x = true) l ->
  exists q, np_mean l = Fin q.
Proof.
  intros Hne Hl. unfold np_mean, fsum.
  destruct (fsum_finite l 0 Hl) as [s ->].
  destruct l as [|x l]; [contradiction|].
  unfold fdiv, of_Z. simpl length.
  destruct (Qeq_bool (inject_Z (Z.of_nat (S (length l)))) 0) eqn:Hz.
  - apply Qeq_bool_eq in Hz. unfold Qeq in Hz. simpl in Hz. exfalso. lia.
  - apply fin_is_Fin.
Qed.

Lemma np_diff_prepend0_finite (l : list f64) :
  Forall (fun x => isfinite x = true) l ->
  Forall (fun x => isfinite x = true) (np_diff_prepend0 l).
Proof.
  intros Hl. unfold np_diff_prepend0.
  assert (forall p, isfinite p = true ->
            Forall (fun x => isfinite x = true) (zip_with fsub l (p :: l)))
    as H; [|apply (H (Fin 0)); reflexivity].
  induction Hl as [|x l Hx _ IH]; intros p Hp; simpl; constructor.
  - destruct x, p; try discriminate. reflexivity.
  - apply IH, Hx.
Qed.

(** The first differences exist as soon as the series has two intervals. *)
Lemma first_differences_Ok (rr : ndarray) :
  (2 <= length (values rr))%nat -> exists d, first_differences rr = Ok d.
Proof.
  intros Hn. unfold first_differences.
  pose proof (length_np_diff_prepend0 (values rr)) as Hlen.
  destruct (np_diff_prepend0 (values rr)) as [|x tl] eqn:Hd.
  { simpl in Hlen. exfalso. lia. }
  destruct rr as [l|l]; [|eauto].
  destruct (np_mean_finite tl) as [q Hq].
  - intros ->. simpl in Hlen, Hn. lia.
  - assert (Forall (fun x => isfinite x = true) (x :: tl)) as Hall.
    { rewrite <- Hd. apply np_diff_prepend0_finite. simpl.
      apply Forall_fmap, Forall_forall. intros; reflexivity. }
    apply Forall_cons in Hall as [_ Hall]. exact Hall.
  - cbv zeta. rewrite skipn_cons, drop_0, Hq. simpl. eauto.
Qed.

Lemma subspaces_Ok (rr : ndarray) (alpha : Q) :
  (2 <= length (values rr))%nat -> exists sp, subspaces rr alpha = Ok sp.
Proof.
  intros Hn. unfold subspaces.
  destruct (first_differences_Ok rr Hn) as [d Hd]. rewrite Hd.
  apply first_differences_length in Hd.
  cbn [mbind result_bind]. unfold np_putmask.
  rewrite decide_True by (lengths; lia).
  cbn [mbind result_bind].
  rewrite decide_True by (lengths; lia).
  eauto.
Qed.

(** X1: on a series of intervals in milliseconds, [rr_artefacts] returns a
    report exactly when the series has two intervals at least; on a
    shorter one it raises. *)
Theorem report_needs_two_intervals (C : Collaborators) (rr : ndarray)
    (c1 c2 alpha : Q) :
  is_ok (rr_artefacts C rr c1 c2 alpha "rr_ms") = true
  <-> (2 <= length (values rr))%nat.
Proof.
  split.
  - destruct (rr_artefacts C rr c1 c2 alpha "rr_ms") as [rep|e] eqn:Hrun;
      [|discriminate].
    intros _. apply rr_artefacts_aligned in Hrun as [Hn _]. exact Hn.
  - intros Hn. unfold rr_artefacts. simpl.
    destruct (subspaces_Ok rr alpha Hn) as [sp ->]. reflexivity.
Qed.

(** ** Every output of the report is as long as the series *)

(** X2: the eleven arrays of a report have one common length, which is
    the number of intervals when the series is given in milliseconds. *)
Theorem report_outputs_aligned (C : Collaborators) (rr : ndarray)
    (c1 c2 alpha : Q) (input_type : string) (rep : ArtefactReport) :
  rr_artefacts C rr c1 c2 alpha input_type = Ok rep ->
  let n := length (ectopic rep) in
  length (subspace1 rep) = n /\ length (subspace2 rep) = n
  /\ length (subspace3 rep) = n /\ length (mRR rep) = n
  /\ length (long rep) = n /\ length (short rep) = n
  /\ length (missed rep) = n /\ length (extra rep) = n
  /\ length (threshold1 rep) = n /\ length (threshold2 rep) = n
  /\ (input_type = "rr_ms" -> n = length (values rr)).
Proof.
  intros H. pose proof H as H0.
  apply rr_artefacts_inv in H as (rr' & sp & _ & Hrep & _ & Hal & Hrep').
  destruct Hrep' as [He Hl Hs Hm Hx]. destruct Hal as [H11 H12 H22 HmRR _ Ht1 Ht2].
  cbv zeta. rewrite He, Hl, Hs, Hm, Hx.
  assert (subspace1 rep = sp_s11 sp /\ subspace2 rep = sp_s12 sp
          /\ subspace3 rep = sp_s22 sp /\ mRR rep = sp_mRR sp
          /\ threshold1 rep = sp_th1 sp /\ threshold2 rep = sp_th2 sp)
    as (-> & -> & -> & -> & -> & ->).
  { rewrite Hrep. unfold decide_artefacts.
    destruct (long_short_decision _ _ _ _). simpl. repeat split. }
  repeat (split; [congruence|]).
  intros ->. destruct (rr_artefacts_aligned C rr c1 c2 alpha rep H0) as [_ [He' _ _ _ _]].
  congruence.
Qed.

Lemma report_outputs_aligned_witness :
  exists rep,
    rr_artefacts_default Demo.collaborators rr_missed_short = Ok rep
    /\ length (subspace1 rep) = 12%nat /\ length (mRR rep) = 12%nat
    /\ length (extra rep) = 12%nat /\ length (threshold2 rep) = 12%nat.
Proof.
  pose proof (report_outputs_aligned Demo.collaborators rr_missed_short
                (dec 13 100) (dec 17 100) (dec 52 10) "rr_ms") as T.
  unfold rr_artefacts_default.
  destruct (rr_artefacts _ _ _ _ _ _) as [rep|e] eqn:E;
    [|vm_compute in E; discriminate E].
  specialize (T rep eq_refl). cbv zeta in T.
  destruct T as (H1 & _ & _ & H4 & _ & _ & _ & H8 & _ & H10 & Hn).
  specialize (Hn eq_refl). change (length (values rr_missed_short)) with 12%nat in Hn.
  exists rep. split; [reflexivity|]. repeat split; congruence.
Defined.

(** ** Ectopic intervals carry no other label *)

Lemma lookup_mask_clear_eq (a m : list bool) (i : nat) (x y : bool) :
  a !! i = Some x -> m !! i = Some y ->
  mask_clear a m !! i = Some (if y then false else x).
Proof.
  intros Ha Hm. unfold mask_clear. rewrite lookup_zip_with, Ha, Hm.
  reflexivity.
Qed.

Lemma lookup_and_true (a b : list bool) (i : nat) :
  zip_with andb a b !! i = Some true ->
  a !! i = Some true /\ b !! i = Some true.
Proof.
  rewrite lookup_zip_with. destruct (a !! i) as [[]|], (b !! i) as [[]|];
    simpl; intros; try discriminate; auto.
Qed.

Lemma lookup_bool_length (a : list bool) (i : nat) :
  (i < length a)%nat -> a !! i <> Some true -> a !! i = Some false.
Proof.
  intros Hi Hne. destruct (lookup_lt_is_Some_2 a i Hi) as [[] Hb];
    congruence.
Qed.

(** X3: an interval labelled ectopic is neither long, short, missed nor
    extra. *)
Theorem ectopic_excludes_other_labels (C : Collaborators) (rr : ndarray)
    (c1 c2 alpha : Q) (input_type : string) (rep : ArtefactReport)
    (i : nat) :
  rr_artefacts C rr c1 c2 alpha input_type = Ok rep ->
  ectopic rep !! i = Some true ->
  long rep !! i = Some false /\ short rep !! i = Some false
  /\ missed rep !! i = Some false /\ extra rep !! i = Some false.
Proof.
  intros H He.
  apply rr_artefacts_inv in H as (rr' & sp & _ & -> & _ & _ & Hrep).
  destruct Hrep as [Hle Hl Hs Hm Hx].
  assert (i < length (values rr'))%nat as Hi.
  { rewrite <- Hle. apply lookup_lt_is_Some. eauto. }
  revert He Hl Hs Hm Hx. clear Hle. unfold decide_artefacts.
  destruct (long_short_decision _ _ _ _) as [lb sb]. simpl.
  rewrite !extend_outliers_noop.
  intros He Hl Hs Hm Hx.
  repeat split; apply lookup_bool_length; try lia; intros Hc.
  - apply lookup_insert_false_true in Hc as [Hc _].
    apply lookup_insert_false_true in Hc as [Hc _].
    apply lookup_mask_clear in Hc as [Hc _].
    apply lookup_mask_clear in Hc as [_ Hc]. congruence.
  - apply lookup_insert_false_true in Hc as [Hc _].
    apply lookup_insert_false_true in Hc as [Hc _].
    apply lookup_mask_clear in Hc as [Hc _].
    apply lookup_mask_clear in Hc as [_ Hc]. congruence.
  - apply lookup_and_true in Hc as [_ Hc].
    apply lookup_mask_clear in Hc as [_ Hc]. congruence.
  - apply lookup_and_true in Hc as [_ Hc].
    apply lookup_mask_clear in Hc as [_ Hc]. congruence.
Qed.

Lemma ectopic_excludes_other_labels_witness :
  exists rep,
    rr_artefacts_default Demo.collaborators rr_premature = Ok rep
    /\ ectopic rep !! 8%nat = Some true
    /\ long rep !! 8%nat = Some false /\ short rep !! 8%nat = Some false
    /\ missed rep !! 8%nat = Some false /\ extra rep !! 8%nat = Some false.
Proof.
  pose proof (ectopic_excludes_other_labels Demo.collaborators rr_premature
                (dec 13 100) (dec 17 100) (dec 52 10) "rr_ms") as T.
  unfold rr_artefacts_default.
  destruct (rr_artefacts _ _ _ _ _ _) as [rep|e] eqn:E;
    [|vm_compute in E; discriminate E].
  assert (ectopic rep !! 8%nat = Some true) as He
    by (vm_compute in E; injection E as <-; reflexivity).
  exists rep. split; [reflexivity|]. split; [exact He|].
  exact (T rep 8%nat eq_refl He).
Defined.

(** ** The labels follow the first decision *)

Lemma decide_artefacts_labels (rr : ndarray) (c1 c2 : Q) (sp : Subspaces) :
  let rep := decide_artefacts rr c1 c2 sp in
  let first :=
    long_short_decision (sp_s11 sp) (sp_s22 sp) (sp_mRR sp) (values rr) in
  let n := length (sp_s11 sp) in
  subspace1 rep = sp_s11 sp /\ subspace3 rep = sp_s22 sp
  /\ mRR rep = sp_mRR sp
  /\ (exists m,
        missed rep = zip_with andb m (mask_clear first.1 (ectopic rep)))
  /\ (exists x,
        extra rep = zip_with andb x (mask_clear first.2 (ectopic rep)))
  /\ long rep
     = <[(n - 1)%nat := false]>
         (<[0%nat := false]>
            (mask_clear (mask_clear first.1 (ectopic rep)) (missed rep)))
  /\ short rep
     = <[(n - 1)%nat := false]>
         (<[0%nat := false]>
            (mask_clear (mask_clear first.2 (ectopic rep)) (extra rep))).
Proof.
  cbv zeta. unfold decide_artefacts.
  destruct (long_short_decision _ _ _ _) as [lb sb]. cbn.
  rewrite !extend_outliers_noop. eauto 10.
Qed.

(** X4: on a series in milliseconds, an interval ends long or missed only
    where the first decision (lines 584-585) said long, and short or extra
    only where it said short: the loop between the two adds no label.  An
    interval between the two edges that the first decision calls long and
    that is not ectopic ends long or missed, and likewise for short. *)
Theorem labels_follow_first_decision (C : Collaborators) (rr : ndarray)
    (c1 c2 alpha : Q) (rep : ArtefactReport) (i : nat) :
  rr_artefacts C rr c1 c2 alpha "rr_ms" = Ok rep ->
  let first :=
    long_short_decision (subspace1 rep) (subspace3 rep) (mRR rep)
      (values rr) in
  let inner := (0 < i < length (values rr) - 1)%nat in
  (long rep !! i = Some true \/ missed rep !! i = Some true ->
   first.1 !! i = Some true)
  /\ (short rep !! i = Some true \/ extra rep !! i = Some true ->
      first.2 !! i = Some true)
  /\ (inner -> ectopic rep !! i = Some false ->
      first.1 !! i = Some true ->
      long rep !! i = Some true \/ missed rep !! i = Some true)
  /\ (inner -> ectopic rep !! i = Some false ->
      first.2 !! i = Some true ->
      short rep !! i = Some true \/ extra rep !! i = Some true).
Proof.
  intros H.
  destruct (rr_artefacts_aligned C rr c1 c2 alpha rep H) as [_ [_ _ _ Hm Hx]].
  unfold rr_artefacts in H. simpl in H.
  apply bind_Ok in H as (sp & Hsp & [= Hrep]).
  apply subspaces_aligned in Hsp as [_ [H11 _ _ _ _ _ _]].
  destruct (decide_artefacts_labels rr c1 c2 sp)
    as (E1 & E3 & Em & [m Emis] & [x Eext] & Elong & Eshort).
  rewrite Hrep in E1, E3, Em, Emis, Eext, Elong, Eshort.
  rewrite H11 in Elong, Eshort.
  cbv zeta. rewrite E1, E3, Em.
  set (first := long_short_decision _ _ _ _) in *.
  split; [|split; [|split]].
  - intros [Hl|Hl].
    + rewrite Elong in Hl.
      apply lookup_insert_false_true in Hl as [Hl _].
      apply lookup_insert_false_true in Hl as [Hl _].
      apply lookup_mask_clear in Hl as [Hl _].
      apply lookup_mask_clear in Hl as [Hl _]. exact Hl.
    + rewrite Emis in Hl. apply lookup_and_true in Hl as [_ Hl].
      apply lookup_mask_clear in Hl as [Hl _]. exact Hl.
  - intros [Hl|Hl].
    + rewrite Eshort in Hl.
      apply lookup_insert_false_true in Hl as [Hl _].
      apply lookup_insert_false_true in Hl as [Hl _].
      apply lookup_mask_clear in Hl as [Hl _].
      apply lookup_mask_clear in Hl as [Hl _]. exact Hl.
    + rewrite Eext in Hl. apply lookup_and_true in Hl as [_ Hl].
      apply lookup_mask_clear in Hl as [Hl _]. exact Hl.
  - intros Hin He Hl.
    destruct (lookup_lt_is_Some_2 (missed rep) i) as [b Hb]; [lia|].
    destruct b; [right; exact Hb|left].
    rewrite Elong, !list_lookup_insert_ne by lia.
    rewrite (lookup_mask_clear_eq _ _ i true false); [reflexivity| |exact Hb].
    rewrite (lookup_mask_clear_eq _ _ i true false);
      [reflexivity|exact Hl|exact He].
  - intros Hin He Hl.
    destruct (lookup_lt_is_Some_2 (extra rep) i) as [b Hb]; [lia|].
    destruct b; [right; exact Hb|left].
    rewrite Eshort, !list_lookup_insert_ne by lia.
    rewrite (lookup_mask_clear_eq _ _ i true false); [reflexivity| |exact Hb].
    rewrite (lookup_mask_clear_eq _ _ i true false);
      [reflexivity|exact Hl|exact He].
Qed.

Lemma labels_follow_first_decision_witness :
  exists rep,
    rr_artefacts_default Demo.collaborators rr_missed_short = Ok rep
    /\ missed rep !! 4%nat = Some true
    /\ (long_short_decision (subspace1 rep) (subspace3 rep) (mRR rep)
          (values rr_missed_short)).1 !! 4%nat = Some true
    /\ short rep !! 6%nat = Some true
    /\ (long_short_decision (subspace1 rep) (subspace3 rep) (mRR rep)
          (values rr_missed_short)).2 !! 6%nat = Some true.
Proof.
  pose proof (labels_follow_first_decision Demo.collaborators rr_missed_short
                (dec 13 100) (dec 17 100) (dec 52 10)) as T.
  unfold rr_artefacts_default.
  destruct (rr_artefacts _ _ _ _ _ _) as [rep|e] eqn:E;
    [|vm_compute in E; discriminate E].
  assert (missed rep !! 4%nat = Some true) as Hm
    by (vm_compute in E; injection E as <-; reflexivity).
  assert (short rep !! 6%nat = Some true) as Hs
    by (vm_compute in E; injection E as <-; reflexivity).
  exists rep. split; [reflexivity|]. split; [exact Hm|].
  split; [apply (T rep 4%nat eq_refl); right; exact Hm|].
  split; [exact Hs|]. apply (T rep 6%nat eq_refl). left. exact Hs.
Defined.

(** ** More on [interpolate_clipping] *)

(** X5: the array [interpolate_clipping] returns has as many samples as
    the signal. *)
Theorem clipping_keeps_length (C : Collaborators) (signal : pysignal)
    (min_threshold max_threshold : option f64) (kind : string) (h : heap)
    (a : list f64) (r : loc) (h' : heap) :
  contents signal h = Some a ->
  interpolate_clipping C signal min_threshold max_threshold kind h
  = (Ok r, h') ->
  exists clean, h' !! r = Some clean /\ length clean = length a.
Proof.
  intros Ha Hrun.
  destruct (interpolate_clipping_effect _ _ _ _ _ _ _ _ _ Ha Hrun)
    as (_ & _ & Hnew).
  destruct (Hnew r eq_refl) as [Hclean _]. exact Hclean.
Qed.

Lemma clipping_keeps_length_witness :
  exists r h' clean,
    interpolate_clipping Demo.collaborators (NdArray 1) (Some (Fin 100))
      (Some (Fin 255)) "linear" clipped_store = (Ok r, h')
    /\ h' !! r = Some clean /\ length clean = 5%nat.
Proof.
  destruct (interpolate_clipping Demo.collaborators (NdArray 1)
              (Some (Fin 100)) (Some (Fin 255)) "linear" clipped_store)
    as [[r|e] h'] eqn:Hrun; [|vm_compute in Hrun; discriminate Hrun].
  destruct (clipping_keeps_length Demo.collaborators (NdArray 1)
              (Some (Fin 100)) (Some (Fin 255)) "linear" clipped_store
              (of_Z <$> [255; 100; 120; 130; 255]) r h' eq_refl Hrun)
    as (clean & Hc & Hl).
  exists r, h', clean. split; [reflexivity|]. split; [exact Hc|exact Hl].
Defined.

(** X6: on an empty signal every call with a threshold raises the
    [IndexError] of reading [clean_signal[0]]. *)
Theorem clipping_empty_signal_raises (C : Collaborators) (signal : pysignal)
    (min_threshold max_threshold : option f64) (kind : string) (h : heap) :
  contents signal h = Some [] ->
  is_Some min_threshold \/ is_Some max_threshold ->
  (interpolate_clipping C signal min_threshold max_threshold kind h).1
  = Err (IndexError "index 0 is out of bounds for axis 0 with size 0").
Proof.
  intros Ha Hthr. unfold interpolate_clipping. rewrite Ha.
  assert (forall upper thr r (h0 : heap),
            h0 !! r = Some [] ->
            (correct_bound C kind (np_arange_int (length (@nil f64))) upper
               thr r h0).1
            = Err (IndexError
                     "index 0 is out of bounds for axis 0 with size 0"))
    as Hblock.
  { intros upper thr r h0 Hr. unfold correct_bound. rewrite Hr. reflexivity. }
  assert (exists r h0, asarray signal h = (r, h0) /\ h0 !! r = Some [])
    as (r & h0 & -> & Hr).
  { destruct signal as [l|r]; simpl in *.
    - injection Ha as ->. eexists _, _. split; [reflexivity|].
      apply lookup_insert_eq.
    - eauto. }
  destruct max_threshold as [hi|].
  - specialize (Hblock true hi r h0 Hr).
    destruct (correct_bound _ _ _ true hi r h0) as [res h1].
    simpl in Hblock. subst res. reflexivity.
  - destruct min_threshold as [lo|].
    + apply Hblock. exact Hr.
    + destruct Hthr as [[? H]|[? H]]; discriminate H.
Qed.

Lemma clipping_empty_signal_raises_witness :
  (interpolate_clipping Demo.collaborators (PyList []) (Some (Fin 0))
     (Some (Fin 255)) "cubic" clipped_store).1
  = Err (IndexError "index 0 is out of bounds for axis 0 with size 0").
Proof.
  apply (clipping_empty_signal_raises Demo.collaborators (PyList [])
           (Some (Fin 0)) (Some (Fin 255)) "cubic" clipped_store).
  - reflexivity.
  - left. eexists. reflexivity.
Defined.

(** X7: correcting both bounds in one call is correcting the upper bound
    first and then, in a second call, the lower bound of the array the
    first call returned. *)
Theorem clipping_bounds_in_sequence (C : Collaborators) (signal : pysignal)
    (lo hi : f64) (kind : string) (h : heap) (r1 : loc) (h1 : heap) :
  interpolate_clipping C signal None (Some hi) kind h = (Ok r1, h1) ->
  interpolate_clipping C signal (Some lo) (Some hi) kind h
  = interpolate_clipping C (NdArray r1) (Some lo) None kind h1.
Proof.
  intros H1.
  destruct (contents signal h) as [a|] eqn:Ha.
  2:{ unfold interpolate_clipping in H1. rewrite Ha in H1. discriminate. }
  destruct (interpolate_clipping_effect _ _ _ _ _ _ _ _ _ Ha H1)
    as (_ & _ & Hnew).
  destruct (Hnew r1 eq_refl) as [(clean & Hc & Hl) _].
  revert H1. unfold interpolate_clipping. rewrite Ha. simpl contents.
  rewrite Hc, Hl. simpl asarray.
  destruct (asarray signal h) as [r0 h0].
  destruct (correct_bound C kind _ true hi r0 h0) as [[r|e] h2];
    [|discriminate].
  intros [= -> ->]. reflexivity.
Qed.

Lemma clipping_bounds_in_sequence_witness :
  exists r1 h1,
    interpolate_clipping Demo.collaborators (NdArray 1) None (Some (Fin 255))
      "linear" clipped_store = (Ok r1, h1)
    /\ interpolate_clipping Demo.collaborators (NdArray 1) (Some (Fin 100))
         (Some (Fin 255)) "linear" clipped_store
       = interpolate_clipping Demo.collaborators (NdArray r1)
           (Some (Fin 100)) None "linear" h1.
Proof.
  destruct (interpolate_clipping Demo.collaborators (NdArray 1) None
              (Some (Fin 255)) "linear" clipped_store)
    as [[r1|e] h1] eqn:Hrun; [|vm_compute in Hrun; discriminate Hrun].
  exists r1, h1. split; [reflexivity|].
  apply (clipping_bounds_in_sequence Demo.collaborators (NdArray 1)
           (Fin 100) (Fin 255) "linear" clipped_store r1 h1 Hrun).
Defined.

(** ** The signal the pipelines return *)

Lemma ppg_candidates_resampled (C : Collaborators) (signal : list f64)
    (sfreq : Z) (o : PPG.options) (rs x : list f64) (idx : list nat) :
  ppg_candidates C signal sfreq o = Ok (rs, x, idx) ->
  clean_and_resample C signal sfreq (PPG.new_sfreq o) (PPG.clean_nan o)
  = Ok rs.
Proof.
  unfold ppg_candidates. intros H.
  apply bind_Ok in H as (x0 & Hx0 & H).
  apply bind_Ok in H as (x1 & _ & H).
  apply bind_Ok in H as (w & _ & H).
  apply bind_Ok in H as (idx' & _ & H).
  injection H as <- _ _. exact Hx0.
Qed.

(** X8: the signal each pipeline returns is the output of the resampling
    step: it is taken before the clipping correction, the smoothing and
    the peak enhancement. *)
Theorem pipelines_return_resampled_signal (C : Collaborators)
    (signal : list f64) (sfreq : Z) :
  (forall o rs peaks,
      ppg_peaks C signal sfreq o = Ok (rs, peaks) ->
      clean_and_resample C signal sfreq (PPG.new_sfreq o) (PPG.clean_nan o)
      = Ok rs)
  /\ (forall o rs peaks,
        ecg_peaks C signal sfreq o = Ok (rs, peaks) ->
        clean_and_resample C signal sfreq (ECG.new_sfreq o) (ECG.clean_nan o)
        = Ok rs)
  /\ (forall o rs ev,
        rsp_peaks C signal sfreq o = Ok (rs, ev) ->
        clean_and_resample C signal sfreq (RSP.new_sfreq o) (RSP.clean_nan o)
        = Ok rs).
Proof.
  split; [|split].
  - intros o rs peaks H. unfold ppg_peaks in H.
    apply bind_Ok in H as ([[rs' x] idx] & Hc & H).
    apply ppg_candidates_resampled in Hc.
    apply bind_Ok in H as (p0 & _ & H).
    destruct (PPG.clean_extra o).
    + apply bind_Ok in H as (rep & _ & H).
      apply bind_Ok in H as (flagged & _ & H).
      apply bind_Ok in H as (p1 & _ & H).
      injection H as <- _. exact Hc.
    + injection H as <- _. exact Hc.
  - intros o rs peaks H. unfold ecg_peaks in H.
    apply bind_Ok in H as (x & Hx & H).
    apply bind_Ok in H as (idx & _ & H).
    unfold ecg_finish in H.
    apply bind_Ok in H as (p0 & _ & H).
    apply bind_Ok in H as (p1 & _ & H).
    injection H as <- _. exact Hx.
  - intros o rs ev H. unfold rsp_peaks in H.
    destruct (negb _); [discriminate|].
    apply bind_Ok in H as (x & Hx & H).
    apply bind_Ok in H as (w & _ & H).
    apply bind_Ok in H as (peaks & _ & H).
    apply bind_Ok in H as (troughs & _ & H).
    repeat case_decide.
    + apply bind_Ok in H as (p & _ & [= <- _]). exact Hx.
    + apply bind_Ok in H as (t & _ & [= <- _]). exact Hx.
    + apply bind_Ok in H as (p & _ & H).
      apply bind_Ok in H as (t & _ & [= <- _]). exact Hx.
Qed.

Lemma pipelines_return_resampled_signal_witness :
  exists rs peaks,
    ppg_peaks Demo.collaborators pulse_wave 10 (plain_options 10)
    = Ok (rs, peaks)
    /\ clean_and_resample Demo.collaborators pulse_wave 10 10 false = Ok rs.
Proof.
  destruct (ppg_peaks Demo.collaborators pulse_wave 10 (plain_options 10))
    as [[rs peaks]|e] eqn:E; [|vm_compute in E; discriminate E].
  exists rs, peaks. split; [reflexivity|].
  destruct (pipelines_return_resampled_signal Demo.collaborators pulse_wave 10)
    as (Hppg & _ & _).
  exact (Hppg (plain_options 10) rs peaks E).
Defined.

(** ** When the resampling returns *)

Lemma length_np_arange (stop step : Q) :
  length (np_arange stop step) = arange_length stop step.
Proof. unfold np_arange. rewrite length_fmap, length_seq. reflexivity. Qed.

(** X9: with [clean_nan] off, two different rates, none of them zero, and
    a signal that is not empty, the resampling returns exactly when the
    time grid [np.arange(0, len(x) / sfreq, 1 / sfreq)] has as many points
    as the signal, and the result is then as long as the new grid;
    otherwise [np.interp] raises a [ValueError].  The length of a grid is
    the ceiling of a quotient of doubles, so that the time grid can be one
    point longer than the signal. *)
Theorem resampling_needs_matching_grid (C : Collaborators)
    (signal : list f64) (sfreq new_sfreq : Z) :
  sfreq <> new_sfreq -> sfreq <> 0 -> new_sfreq <> 0 -> signal <> [] ->
  let stop :=
    round64 (inject_Z (Z.of_nat (length signal)) / inject_Z sfreq) in
  let grid (rate : Z) := arange_length stop (round64 (1 / inject_Z rate)) in
  (grid sfreq = length signal ->
   exists y,
     clean_and_resample C signal sfreq new_sfreq false = Ok y
     /\ length y = grid new_sfreq)
  /\ (grid sfreq <> length signal ->
      exists msg,
        clean_and_resample C signal sfreq new_sfreq false
        = Err (ValueError msg)).
Proof.
  intros Hne Hs Hn Hsig. cbv zeta.
  unfold clean_and_resample. cbn [andb mbind result_bind].
  destruct (decide (sfreq = new_sfreq)) as [?|_]; [contradiction|].
  destruct (Z.eqb_spec sfreq 0) as [?|_]; [contradiction|].
  destruct (Z.eqb_spec new_sfreq 0) as [?|_]; [contradiction|].
  set (stop := round64 (inject_Z (Z.of_nat (length signal)) / inject_Z sfreq)).
  pose proof (length_np_arange stop (round64 (1 / inject_Z sfreq))) as Htime.
  unfold np_interp.
  destruct (np_arange stop (round64 (1 / inject_Z sfreq)))
    as [|x0 time] eqn:Ht.
  - split.
    + intros Hgrid. rewrite <- Htime in Hgrid.
      destruct signal; [contradiction|discriminate].
    + intros _. eexists. reflexivity.
  - split.
    + intros Hgrid. rewrite decide_True by congruence.
      eexists. split; [reflexivity|].
      rewrite length_fmap. apply length_np_arange.
    + intros Hgrid. rewrite decide_False by congruence.
      eexists. reflexivity.
Qed.

Lemma resampling_needs_matching_grid_witness :
  (exists y,
      clean_and_resample Demo.collaborators pulse_wave 10 75 false = Ok y
      /\ length y = 345%nat)
  /\ exists msg,
       clean_and_resample Demo.collaborators (replicate 7 (Fin 1)) 100 1000
         false = Err (ValueError msg).
Proof.
  split.
  - destruct (resampling_needs_matching_grid Demo.collaborators pulse_wave
                10 75) as [Hreturns _]; try discriminate.
    apply Hreturns. vm_compute. reflexivity.
  - destruct (resampling_needs_matching_grid Demo.collaborators
                (replicate 7 (Fin 1)) 100 1000) as [_ Hraises];
      try discriminate.
    apply Hraises. vm_compute. discriminate.
Defined.

(** ** When the pruning of extra peaks can run *)

Lemma rr_artefacts_Ok (C : Collaborators) (rr : ndarray) (c1 c2 alpha : Q) :
  (2 <= length (values rr))%nat ->
  exists rep, rr_artefacts C rr c1 c2 alpha "rr_ms" = Ok rep.
Proof.
  intros Hn. unfold rr_artefacts. simpl.
  destruct (subspaces_Ok rr alpha Hn) as [sp ->]. simpl. eauto.
Qed.

(** X10: once the candidate peaks are found, [ppg_peaks] with
    [clean_extra] returns exactly when there are three of them at least:
    with fewer, [rr_artefacts] is handed less than two intervals and
    raises. *)
Theorem pruning_needs_three_peaks (C : Collaborators) (signal : list f64)
    (sfreq : Z) (o : PPG.options) (rs x : list f64) (idx : list nat) :
  PPG.clean_extra o = true ->
  ppg_candidates C signal sfreq o = Ok (rs, x, idx) ->
  is_ok (ppg_peaks C signal sfreq o) = true <-> (3 <= length idx)%nat.
Proof.
  intros Hclean Hc.
  destruct (ppg_candidates_inv _ _ _ _ _ _ _ Hc) as (Hlen & Hs & Hr).
  assert (length (np_zeros (length x)) = length x) as Hz
    by apply length_replicate.
  unfold ppg_peaks. rewrite Hc. cbn [mbind result_bind].
  rewrite set_at_in_range by (rewrite Hz; exact Hr).
  cbn [mbind result_bind].
  rewrite Hclean, np_where_marks by assumption.
  set (p0 := foldl _ (np_zeros (length x)) idx).
  assert (length p0 = length x) as Hp0
    by (unfold p0; rewrite length_foldl_insert; exact Hz).
  set (rr := IntArray (np_diff (Z.of_nat <$> idx))).
  assert (length (values rr) = (length idx - 1)%nat) as Hrr.
  { unfold rr. simpl. rewrite length_fmap, length_np_diff, length_fmap.
    reflexivity. }
  destruct (rr_artefacts_default C rr) as [rep|e] eqn:Hrep.
  - destruct (rr_artefacts_aligned C _ _ _ _ _ Hrep) as [Hn [_ _ _ _ Hextra]].
    cbn [mbind result_bind]. unfold boolean_index.
    rewrite decide_True by (rewrite length_drop; lia).
    cbn [mbind result_bind].
    rewrite set_at_in_range; [split; [lia|reflexivity]|].
    apply Forall_forall. intros i Hi. rewrite Hp0.
    apply elem_of_compress in Hi as (j & _ & Hi).
    rewrite lookup_drop in Hi.
    rewrite Forall_forall in Hr. apply Hr.
    apply list_elem_of_lookup. eauto.
  - cbn [mbind result_bind]. split; [discriminate|]. intros Hthree.
    destruct (rr_artefacts_Ok C rr (dec 13 100) (dec 17 100) (dec 52 10))
      as [rep Hok]; [lia|].
    unfold rr_artefacts_default in Hrep. congruence.
Qed.

Lemma pruning_needs_three_peaks_witness :
  exists rs x idx,
    ppg_candidates Demo.collaborators pulse_wave 10 (pruning_options 10)
    = Ok (rs, x, idx)
    /\ (is_ok (ppg_peaks Demo.collaborators pulse_wave 10
                 (pruning_options 10)) = true
        <-> (3 <= length idx)%nat).
Proof.
  destruct (ppg_candidates Demo.collaborators pulse_wave 10
              (pruning_options 10)) as [[[rs x] idx]|e] eqn:E;
    [|vm_compute in E; discriminate E].
  exists rs, x, idx. split; [reflexivity|].
  exact (pruning_needs_three_peaks Demo.collaborators pulse_wave 10
           (pruning_options 10) rs x idx eq_refl E).
Defined.

(** ** The check of [clipping_thresholds] *)

(** X11: [ppg_peaks] looks at [clipping_thresholds] only when [clipping]
    is set; it then refuses, with a [ValueError], whatever is neither
    ["auto"] nor a sequence of two values, once the signal is resampled. *)
Theorem clipping_thresholds_checked (C : Collaborators) (signal : list f64)
    (sfreq : Z) (o : PPG.options) :
  (PPG.clipping o = false ->
   forall t,
     ppg_peaks C signal sfreq (with_thresholds o t)
     = ppg_peaks C signal sfreq o)
  /\ (PPG.clipping o = true ->
      forall x,
        clean_and_resample C signal sfreq (PPG.new_sfreq o) (PPG.clean_nan o)
        = Ok x ->
        PPG.clipping_thresholds o <> ThrStr "auto" ->
        (forall lo hi, PPG.clipping_thresholds o <> ThrSeq [lo; hi]) ->
        exists msg, ppg_peaks C signal sfreq o = Err (ValueError msg)).
Proof.
  split.
  - intros Hclip t. unfold ppg_peaks, ppg_candidates. simpl.
    rewrite Hclip. reflexivity.
  - intros Hclip x Hx Hauto Hpair.
    unfold ppg_peaks, ppg_candidates. rewrite Hx, Hclip.
    cbn [mbind result_bind]. unfold remove_clipping.
    destruct (PPG.clipping_thresholds o) as [s|l|].
    + repeat case_match; subst; try congruence; eexists; reflexivity.
    + destruct l as [|lo [|hi [|z l]]]; try (eexists; reflexivity).
      destruct (Hpair lo hi eq_refl).
    + eexists; reflexivity.
Qed.

Lemma clipping_thresholds_checked_witness :
  ppg_peaks Demo.collaborators pulse_wave 10
    (with_thresholds (plain_options 10) ThrOther)
  = ppg_peaks Demo.collaborators pulse_wave 10 (plain_options 10).
Proof.
  destruct (clipping_thresholds_checked Demo.collaborators pulse_wave 10
              (plain_options 10)) as [Hoff _].
  apply Hoff. reflexivity.
Defined.

(** ** What [rsp_peaks] returns, and when *)

Lemma find_peaks_needs_distance (x : list f64) (height : f64) (distance : Z)
    (idx : list nat) :
  find_peaks x height distance = Ok idx -> 1 <= distance.
Proof.
  unfold find_peaks. destruct (Z.ltb_spec distance 1); [discriminate|lia].
Qed.

(** X12: [rsp_peaks] returns only for a sampling rate of 1 at least (the
    peaks must be [2 * sfreq] samples apart), and what it returns beside
    the signal is one vector for [kind="peaks"] and a pair of vectors for
    [kind="peaks-troughs"]: the troughs alone are never returned. *)
Theorem rsp_peaks_returns (C : Collaborators) (signal : list f64) (sfreq : Z)
    (o : RSP.options) (rs : list f64) (ev : rsp_events) :
  rsp_peaks C signal sfreq o = Ok (rs, ev) ->
  1 <= sfreq
  /\ ((RSP.kind o = "peaks" /\ exists p, ev = Peaks p)
      \/ (RSP.kind o = "peaks-troughs"
          /\ exists p t, ev = PeaksTroughs p t)).
Proof.
  unfold rsp_peaks.
  destruct (bool_decide (RSP.kind o ∈ ["peaks"; "troughs"; "peaks-troughs"]))
    eqn:Hkind; [|discriminate].
  apply bool_decide_eq_true in Hkind. cbn [negb]. intros H.
  apply bind_Ok in H as (x & _ & H).
  apply bind_Ok in H as (w & _ & H).
  apply bind_Ok in H as (peaks & Hp & H).
  apply bind_Ok in H as (troughs & Ht & H).
  assert (forall (y : list f64) (n : nat) (p : list bool),
            rsp_events_of y sfreq n = Ok p -> 1 <= sfreq) as Hrate.
  { intros y n p Hy. unfold rsp_events_of in Hy.
    apply bind_Ok in Hy as (idx & Hfind & _).
    apply find_peaks_needs_distance in Hfind. lia. }
  apply elem_of_cons in Hkind as [Hk|Hkind];
    [|apply elem_of_cons in Hkind as [Hk|Hkind];
      [|apply elem_of_cons in Hkind as [Hk|Hkind];
        [|apply elem_of_nil in Hkind; contradiction]]];
    rewrite Hk in Hp, Ht, H.
  - change (contains "peaks" "peaks") with true in Hp.
    apply fmap_Ok in Hp as (p & Hp & ->).
    rewrite decide_True in H by reflexivity.
    cbn [read_local mbind result_bind] in H. injection H as _ <-.
    split; [exact (Hrate _ _ _ Hp)|]. left. eauto.
  - change (contains "peaks" "troughs") with false in Hp.
    injection Hp as <-.
    rewrite decide_False, decide_False in H by discriminate.
    discriminate H.
  - change (contains "peaks" "peaks-troughs") with true in Hp.
    change (contains "troughs" "peaks-troughs") with true in Ht.
    apply fmap_Ok in Hp as (p & Hp & ->).
    apply fmap_Ok in Ht as (t & Ht & ->).
    rewrite decide_False, decide_False in H by discriminate.
    cbn [read_local mbind result_bind] in H. injection H as _ <-.
    split; [exact (Hrate _ _ _ Hp)|]. right. eauto.
Qed.

Lemma rsp_peaks_returns_witness :
  exists rs ev,
    rsp_peaks Demo.collaborators pulse_wave 10 (rsp_options 10 "peaks")
    = Ok (rs, ev)
    /\ exists p, ev = Peaks p.
Proof.
  destruct (rsp_peaks Demo.collaborators pulse_wave 10
              (rsp_options 10 "peaks")) as [[rs ev]|e] eqn:E;
    [|vm_compute in E; discriminate E].
  exists rs, ev. split; [reflexivity|].
  destruct (rsp_peaks_returns Demo.collaborators pulse_wave 10
              (rsp_options 10 "peaks") rs ev E) as [_ [[_ Hp]|[Hk _]]].
  - exact Hp.
  - discriminate Hk.
Defined.

(** ** The peak vector marks the detected indices *)

Lemma mapM_result_elem {A B} (f : A -> result B) (l : list A) (ks : list B)
    (b : B) :
  mapM f l = Ok ks -> b ∈ ks <-> exists a, a ∈ l /\ f a = Ok b.
Proof.
  revert ks. induction l as [|x l IH]; intros ks; simpl.
  - intros [= <-]. split.
    + intros H. apply elem_of_nil in H. contradiction.
    + intros (a & H & _). apply elem_of_nil in H. contradiction.
  - intros H. apply bind_Ok in H as (y & Hy & H).
    apply bind_Ok in H as (k' & Hk' & [= <-]).
    rewrite elem_of_cons, (IH k' Hk'). split.
    + intros [->|(a & Ha & Hb)].
      * exists x. split; [apply list_elem_of_here | exact Hy].
      * exists a. split; [apply list_elem_of_further, Ha | exact Hb].
    + intros (a & Ha & Hb). apply elem_of_cons in Ha as [->|Ha].
      * left. congruence.
      * right. eauto.
Qed.

Lemma np_index_Ok (n : nat) (k : Z) (i : nat) :
  np_index n k = Ok i ->
  (i < n)%nat /\ - Z.of_nat n <= k < Z.of_nat n.
Proof.
  unfold np_index.
  destruct (Z.leb_spec 0 k), (Z.ltb_spec k (Z.of_nat n)); simpl;
    try (intros [= <-]; lia);
    destruct (Z.leb_spec (- Z.of_nat n) k), (Z.ltb_spec k 0); simpl;
    try discriminate; intros [= <-]; lia.
Qed.

(** What [a = np.zeros(n, dtype=bool); a[idx] = True] leaves in [a]. *)
Lemma set_at_zeros (n : nat) (idx : list Z) (p : list bool) :
  set_at (np_zeros n) idx true = Ok p ->
  Forall (fun k => - Z.of_nat n <= k < Z.of_nat n) idx
  /\ forall i : nat,
       p !! i = Some true <-> exists k, k ∈ idx /\ np_index n k = Ok i.
Proof.
  unfold set_at, np_zeros. rewrite length_replicate. intros H.
  apply bind_Ok in H as (ks & Hks & [= <-]). split.
  - apply Forall_forall. intros k Hk.
    assert (exists i, np_index n k = Ok i) as [i Hi].
    { clear -Hks Hk. revert ks Hks.
      induction idx as [|z idx IH]; intros ks Hks;
        [apply elem_of_nil in Hk; contradiction|].
      simpl in Hks. apply bind_Ok in Hks as (y & Hy & Hks).
      apply bind_Ok in Hks as (k' & Hk' & _).
      apply elem_of_cons in Hk as [->|Hk]; [eauto|].
      apply (IH Hk k' Hk'). }
    apply np_index_Ok in Hi. lia.
  - intros i. rewrite lookup_foldl_insert, <- (mapM_result_elem _ _ _ i Hks).
    case_decide as Hin.
    + destruct (proj1 (mapM_result_elem _ _ _ i Hks) Hin) as (k & _ & Hk).
      apply np_index_Ok in Hk as [Hi _].
      rewrite lookup_replicate_2 by exact Hi. simpl. tauto.
    + split; [|contradiction]. intros Hi.
      apply lookup_replicate in Hi as [Hi _]. discriminate.
Qed.

(** X13: without [find_local], the vector [ecg_peaks] returns is true
    exactly at the indices the detector of the method gave for the
    resampled signal; negative ones count from the end, and all of them
    lie within the signal. *)
Theorem ecg_marks_detected_indices (C : Collaborators) (signal : list f64)
    (sfreq : Z) (o : ECG.options) (rs : list f64) (peaks : list bool) :
  ECG.find_local o = false ->
  ecg_peaks C signal sfreq o = Ok (rs, peaks) ->
  exists d idx,
    detector_named C (ECG.method o) = Some d
    /\ d rs (ECG.new_sfreq o) = Ok idx
    /\ Forall (fun k => - Z.of_nat (length rs) <= k < Z.of_nat (length rs))
         idx
    /\ forall i : nat,
         peaks !! i = Some true
         <-> exists k, k ∈ idx /\ np_index (length rs) k = Ok i.
Proof.
  intros Hlocal H.
  destruct (clean_and_resample C signal sfreq (ECG.new_sfreq o)
              (ECG.clean_nan o)) as [x|e] eqn:Hx.
  2:{ unfold ecg_peaks in H. rewrite Hx in H. discriminate. }
  rewrite (ecg_peaks_dispatch _ _ _ _ _ Hx) in H.
  destruct (detector_named C (ECG.method o)) as [d|]; [|discriminate].
  apply bind_Ok in H as (idx & Hidx & H).
  unfold ecg_finish in H. rewrite Hlocal in H.
  apply bind_Ok in H as (p0 & Hp0 & H).
  cbn [mbind result_bind] in H. injection H as <- <-.
  apply set_at_zeros in Hp0 as [Hrange Hmark].
  exists d, idx. auto.
Qed.

Lemma ecg_marks_detected_indices_witness :
  exists rs peaks d idx,
    ecg_peaks Demo.collaborators pulse_wave 10
      (ecg_options 10 "hamilton" false) = Ok (rs, peaks)
    /\ detector_named Demo.collaborators "hamilton" = Some d
    /\ d rs 10 = Ok idx
    /\ forall i : nat,
         peaks !! i = Some true
         <-> exists k, k ∈ idx /\ np_index (length rs) k = Ok i.
Proof.
  destruct (ecg_peaks Demo.collaborators pulse_wave 10
              (ecg_options 10 "hamilton" false)) as [[rs peaks]|e] eqn:E;
    [|vm_compute in E; discriminate E].
  destruct (ecg_marks_detected_indices Demo.collaborators pulse_wave 10
              (ecg_options 10 "hamilton" false) rs peaks eq_refl E)
    as (d & idx & Hd & Hidx & _ & Hmark).
  exists rs, peaks, d, idx. auto.
Defined.

(** ** What [ppg_peaks] marks *)

Lemma ppg_candidates_args (C : Collaborators) (signal : list f64) (sfreq : Z)
    (o : PPG.options) (rs x : list f64) (idx : list nat) :
  ppg_candidates C signal sfreq o = Ok (rs, x, idx) ->
  0 <= samples (PPG.new_sfreq o) (PPG.win o)
  /\ exists y,
       find_peaks y (Fin 0) (samples (PPG.new_sfreq o) (PPG.distance o))
       = Ok idx.
Proof.
  unfold ppg_candidates. intros H.
  apply bind_Ok in H as (x0 & _ & H).
  apply bind_Ok in H as (x1 & _ & H).
  apply bind_Ok in H as (w & Hw & H).
  apply bind_Ok in H as (idx' & Hfind & H).
  injection H as _ _ <-. split; [|eauto].
  unfold rolling_window_arg in Hw.
  destruct (Z.ltb_spec (samples (PPG.new_sfreq o) (PPG.win o)) 0);
    [discriminate|lia].
Qed.

(** The peak vector of [ppg_peaks] and the candidates it was made from. *)
Lemma ppg_peaks_inv (C : Collaborators) (signal : list f64) (sfreq : Z)
    (o : PPG.options) (rs : list f64) (peaks : list bool) :
  ppg_peaks C signal sfreq o = Ok (rs, peaks) ->
  exists x idx,
    ppg_candidates C signal sfreq o = Ok (rs, x, idx)
    /\ (forall i : nat, peaks !! i = Some true -> i ∈ idx)
    /\ (PPG.clean_extra o = false ->
        forall i : nat, i ∈ idx -> peaks !! i = Some true).
Proof.
  intros H. unfold ppg_peaks in H.
  apply bind_Ok in H as ([[rs' x] idx] & Hc & H).
  destruct (ppg_candidates_inv _ _ _ _ _ _ _ Hc) as (Hlen & Hs & Hr).
  assert (length (np_zeros (length x)) = length x) as Hz
    by apply length_replicate.
  apply bind_Ok in H as (p0 & Hp0 & H).
  rewrite set_at_in_range in Hp0 by (rewrite Hz; exact Hr).
  injection Hp0 as <-.
  assert (forall i,
            foldl (fun (a : list bool) (k : nat) => <[k := true]> a)
              (np_zeros (length x)) idx !! i = Some true <-> i ∈ idx)
    as Hmark.
  { intros i. rewrite lookup_foldl_insert. unfold np_zeros. split.
    - case_decide as Hin; [auto|]. intros Hi.
      apply lookup_replicate in Hi as [Hi _]. discriminate.
    - intros Hin. rewrite decide_True by exact Hin.
      rewrite Forall_forall in Hr.
      rewrite lookup_replicate_2 by (apply Hr, Hin). reflexivity. }
  destruct (PPG.clean_extra o).
  - apply bind_Ok in H as (rep & _ & H).
    apply bind_Ok in H as (flagged & _ & H).
    apply bind_Ok in H as (p1 & Hp1 & H).
    injection H as <- <-. exists x, idx.
    split; [exact Hc|]. split; [|discriminate].
    intros i Hi. apply Hmark.
    unfold set_at in Hp1. apply bind_Ok in Hp1 as (ks & _ & [= <-]).
    rewrite lookup_foldl_insert in Hi.
    case_decide; [|exact Hi].
    destruct (foldl _ _ idx !! i); discriminate.
  - injection H as <- <-. exists x, idx.
    split; [exact Hc|]. split; intros; apply Hmark; auto.
Qed.

(** X14: [ppg_peaks] returns only for a rolling window of zero samples at
    least and a peak distance of one sample at least; its vector is true
    only at candidate peaks, and at every one of them when [clean_extra]
    is off. *)
Theorem ppg_marks_candidates (C : Collaborators) (signal : list f64)
    (sfreq : Z) (o : PPG.options) (rs : list f64) (peaks : list bool) :
  ppg_peaks C signal sfreq o = Ok (rs, peaks) ->
  0 <= samples (PPG.new_sfreq o) (PPG.win o)
  /\ 1 <= samples (PPG.new_sfreq o) (PPG.distance o)
  /\ exists x idx,
       ppg_candidates C signal sfreq o = Ok (rs, x, idx)
       /\ (forall i : nat, peaks !! i = Some true -> i ∈ idx)
       /\ (PPG.clean_extra o = false ->
           forall i : nat, peaks !! i = Some true <-> i ∈ idx).
Proof.
  intros H.
  apply ppg_peaks_inv in H as (x & idx & Hc & Hsub & Hall).
  destruct (ppg_candidates_args _ _ _ _ _ _ _ Hc) as [Hw [y Hfind]].
  apply find_peaks_needs_distance in Hfind.
  split; [exact Hw|]. split; [exact Hfind|].
  exists x, idx. split; [exact Hc|]. split; [exact Hsub|].
  intros Hoff i. split; [apply Hsub | apply Hall, Hoff].
Qed.

Lemma ppg_marks_candidates_witness :
  exists rs peaks x idx,
    ppg_peaks Demo.collaborators pulse_wave 10 (plain_options 10)
    = Ok (rs, peaks)
    /\ ppg_candidates Demo.collaborators pulse_wave 10 (plain_options 10)
       = Ok (rs, x, idx)
    /\ forall i : nat, peaks !! i = Some true <-> i ∈ idx.
Proof.
  destruct (ppg_peaks Demo.collaborators pulse_wave 10 (plain_options 10))
    as [[rs peaks]|e] eqn:E; [|vm_compute in E; discriminate E].
  destruct (ppg_marks_candidates Demo.collaborators pulse_wave 10
              (plain_options 10) rs peaks E)
    as (_ & _ & x & idx & Hc & _ & Hmark).
  exists rs, peaks, x, idx. split; [reflexivity|]. split; [exact Hc|].
  apply Hmark. reflexivity.
Defined.

(** ** Detected peaks keep their distance *)

Lemma elem_of_insert_by (priority : list f64) (j k : nat) (l : list nat) :
  k ∈ insert_by priority j l <-> k = j \/ k ∈ l.
Proof.
  induction l as [|a l IH]; simpl.
  - rewrite elem_of_cons. reflexivity.
  - destruct (flt _ _).
    + rewrite !elem_of_cons, IH. tauto.
    + rewrite !elem_of_cons. tauto.
Qed.

Lemma elem_of_argsort (priority : list f64) (k : nat) :
  k ∈ argsort priority <-> (k < length priority)%nat.
Proof.
  unfold argsort.
  assert (forall s, k ∈ foldr (insert_by priority) [] s <-> k ∈ s) as H.
  { induction s as [|a s IH]; simpl; [reflexivity|].
    rewrite elem_of_insert_by, elem_of_cons, IH. reflexivity. }
  rewrite H, list_elem_of_In, in_seq. lia.
Qed.

(** [clear_neighbours] only ever clears. *)
Lemma clear_neighbours_true (peaks : list nat) (distance : Z)
    (keep : list bool) (j k : nat) :
  clear_neighbours peaks distance keep j !! k = Some true ->
  keep !! k = Some true.
Proof.
  unfold clear_neighbours.
  destruct (keep !! j) as [[]|]; try (intros H; exact H).
  destruct (peaks !! j) as [pj|]; [|intros H; exact H].
  rewrite list_lookup_imap.
  destruct (keep !! k) as [b|]; simpl; [|discriminate].
  destruct (peaks !! k) as [pk|]; [|intros H; exact H].
  destruct (_ && _); [discriminate|]. intros H; exact H.
Qed.

Lemma foldl_clear_neighbours_true (peaks : list nat) (distance : Z)
    (l : list nat) (keep : list bool) (k : nat) :
  foldl (clear_neighbours peaks distance) keep l !! k = Some true ->
  keep !! k = Some true.
Proof.
  revert keep. induction l as [|a l IH]; intros keep; simpl; [auto|].
  intros H. apply IH in H. apply clear_neighbours_true in H. exact H.
Qed.

(** Two peaks that are both kept once one of them has had its turn are
    [distance] apart. *)
Lemma foldl_clear_neighbours_apart (peaks : list nat) (distance : Z)
    (l : list nat) (keep : list bool) (j k pj pk : nat) :
  j ∈ l -> j <> k ->
  peaks !! j = Some pj -> peaks !! k = Some pk ->
  foldl (clear_neighbours peaks distance) keep l !! j = Some true ->
  foldl (clear_neighbours peaks distance) keep l !! k = Some true ->
  distance <= Z.abs (Z.of_nat pk - Z.of_nat pj).
Proof.
  intros Hin Hne Hpj Hpk. revert keep.
  induction l as [|a l IH]; intros keep Hj Hk;
    [apply elem_of_nil in Hin; contradiction|].
  simpl in Hj, Hk.
  apply elem_of_cons in Hin as [<-|Hin]; [|exact (IH Hin _ Hj Hk)].
  apply foldl_clear_neighbours_true in Hj, Hk.
  pose proof (clear_neighbours_true _ _ _ _ _ Hj) as Hj0.
  unfold clear_neighbours in Hk. rewrite Hj0, Hpj in Hk.
  rewrite list_lookup_imap in Hk.
  destruct (keep !! k) as [b|]; simpl in Hk; [|discriminate].
  rewrite Hpk in Hk.
  destruct (Nat.eqb_spec k j) as [->|_]; [contradiction|].
  destruct (Z.ltb_spec (Z.abs (Z.of_nat pk - Z.of_nat pj)) distance);
    [discriminate|lia].
Qed.

(** Any two indices [find_peaks] returns are [distance] apart. *)
Lemma find_peaks_apart (x : list f64) (height : f64) (distance : Z)
    (idx : list nat) (i j : nat) :
  find_peaks x height distance = Ok idx ->
  i ∈ idx -> j ∈ idx -> i <> j ->
  distance <= Z.abs (Z.of_nat i - Z.of_nat j).
Proof.
  unfold find_peaks. destruct (distance <? 1); [discriminate|].
  intros [= <-] Hi Hj Hne.
  apply elem_of_compress in Hi as (a & Ka & Pa).
  apply elem_of_compress in Hj as (b & Kb & Pb).
  unfold select_by_peak_distance in Ka, Kb.
  apply (foldl_clear_neighbours_apart _ _ _ _ b a j i) with (4 := Pa) in Kb;
    [exact Kb| |congruence|exact Pb|exact Ka].
  rewrite list_elem_of_In, <- in_rev, <- list_elem_of_In, elem_of_argsort,
    length_fmap.
  apply lookup_lt_Some in Pb. exact Pb.
Qed.

(** X15: two peaks in the vector of [ppg_peaks] are [int(new_sfreq *
    distance)] samples apart at least, and two peaks, or two troughs, in a
    vector [rsp_peaks] returns (alone or in a pair) are [2 * sfreq] samples
    apart at least. *)
Theorem peaks_keep_their_distance (C : Collaborators) (signal : list f64)
    (sfreq : Z) (i j : nat) :
  i <> j ->
  (forall o rs peaks,
      ppg_peaks C signal sfreq o = Ok (rs, peaks) ->
      peaks !! i = Some true -> peaks !! j = Some true ->
      samples (PPG.new_sfreq o) (PPG.distance o)
      <= Z.abs (Z.of_nat i - Z.of_nat j))
  /\ (forall o rs ev v,
        rsp_peaks C signal sfreq o = Ok (rs, ev) ->
        v ∈ event_vectors ev ->
        v !! i = Some true -> v !! j = Some true ->
        2 * sfreq <= Z.abs (Z.of_nat i - Z.of_nat j)).
Proof.
  intros Hne. split.
  - intros o rs peaks H Hi Hj.
    apply ppg_peaks_inv in H as (x & idx & Hc & Hsub & _).
    destruct (ppg_candidates_args _ _ _ _ _ _ _ Hc) as [_ [y Hfind]].
    apply (find_peaks_apart _ _ _ _ i j Hfind); auto.
  - intros o rs ev v H Hv.
    assert (forall (y : list f64) (n : nat) (v : list bool),
              rsp_events_of y sfreq n = Ok v ->
              v !! i = Some true -> v !! j = Some true ->
              2 * sfreq <= Z.abs (Z.of_nat i - Z.of_nat j)) as Hev.
    { intros y n v' Hv' Hi Hj. unfold rsp_events_of in Hv'.
      apply bind_Ok in Hv' as (idx & Hfind & Hv').
      destruct (find_peaks_sorted _ _ _ _ Hfind) as [_ Hr].
      assert (forall k : nat, v' !! k = Some true -> k ∈ idx) as Hsub.
      { intros k Hk. apply set_at_zeros in Hv' as [_ Hmark].
        apply Hmark in Hk as (z & Hz & Hk).
        apply list_elem_of_fmap in Hz as (k' & -> & Hk').
        unfold np_index in Hk.
        destruct (Z.leb_spec 0 (Z.of_nat k')); [|lia].
        destruct (Z.ltb_spec (Z.of_nat k') (Z.of_nat n)); simpl in Hk.
        - injection Hk as <-. rewrite Nat2Z.id. exact Hk'.
        - destruct (Z.leb_spec (- Z.of_nat n) (Z.of_nat k')),
            (Z.ltb_spec (Z.of_nat k') 0); simpl in Hk;
            try discriminate; lia. }
      apply (find_peaks_apart _ _ _ _ i j Hfind); auto. }
    unfold rsp_peaks in H. destruct (negb _); [discriminate|].
    apply bind_Ok in H as (x & _ & H).
    apply bind_Ok in H as (w & _ & H).
    apply bind_Ok in H as (peaks & Hp & H).
    apply bind_Ok in H as (troughs & Ht & H).
    assert (forall p, peaks = Some p ->
              p !! i = Some true -> p !! j = Some true ->
              2 * sfreq <= Z.abs (Z.of_nat i - Z.of_nat j)) as Hpeaks.
    { intros p ->. destruct (contains "peaks" _); [|discriminate].
      apply fmap_Ok in Hp as (p' & Hp & [= ->]). exact (Hev _ _ _ Hp). }
    assert (forall t, troughs = Some t ->
              t !! i = Some true -> t !! j = Some true ->
              2 * sfreq <= Z.abs (Z.of_nat i - Z.of_nat j)) as Htroughs.
    { intros t ->. destruct (contains "troughs" _); [|discriminate].
      apply fmap_Ok in Ht as (t' & Ht & [= ->]). exact (Hev _ _ _ Ht). }
    repeat case_decide.
    + apply bind_Ok in H as (p & Hrp & [= _ <-]).
      destruct peaks as [p0|]; [|discriminate]. injection Hrp as ->.
      apply list_elem_of_singleton in Hv as ->. apply Hpeaks. reflexivity.
    + apply bind_Ok in H as (t & Hrt & [= _ <-]).
      destruct troughs as [t0|]; [|discriminate]. injection Hrt as ->.
      apply list_elem_of_singleton in Hv as ->. apply Htroughs. reflexivity.
    + apply bind_Ok in H as (p & Hrp & H).
      apply bind_Ok in H as (t & Hrt & [= _ <-]).
      destruct peaks as [p0|]; [|discriminate]. injection Hrp as ->.
      destruct troughs as [t0|]; [|discriminate]. injection Hrt as ->.
      apply elem_of_cons in Hv as [->|Hv]; [apply Hpeaks; reflexivity|].
      apply list_elem_of_singleton in Hv as ->. apply Htroughs. reflexivity.
Qed.

Lemma peaks_keep_their_distance_witness :
  exists rs peaks,
    ppg_peaks Demo.collaborators pulse_wave 10 (plain_options 10)
    = Ok (rs, peaks)
    /\ peaks !! 27%nat = Some true /\ peaks !! 33%nat = Some true
    /\ samples 10 (dec 3 10) <= Z.abs (27 - 33).
Proof.
  destruct (ppg_peaks Demo.collaborators pulse_wave 10 (plain_options 10))
    as [[rs peaks]|e] eqn:E; [|vm_compute in E; discriminate E].
  assert (peaks !! 27%nat = Some true) as H27
    by (vm_compute in E; injection E as _ <-; reflexivity).
  assert (peaks !! 33%nat = Some true) as H33
    by (vm_compute in E; injection E as _ <-; reflexivity).
  exists rs, peaks. split; [reflexivity|]. split; [exact H27|].
  split; [exact H33|].
  assert (27 <> 33)%nat as Hne by discriminate.
  destruct (peaks_keep_their_distance Demo.collaborators pulse_wave 10
              27%nat 33%nat Hne) as [Hppg _].
  exact (Hppg (plain_options 10) rs peaks E H27 H33).
Defined.

(** ** The bad segments [plot_raw] reads off a mask *)

Lemma segment_edge_change (pre l : list bool) (b : bool) :
  last (pre ++ b :: l) = Some true ->
  segment_edge (pre ++ b :: l) (length pre)
  = xorb b (default true (last pre)).
Proof.
  intros Hlast. unfold segment_edge.
  rewrite list_lookup_middle by reflexivity. simpl default.
  rewrite last_lookup in Hlast.
  rewrite length_app in *. simpl length in *.
  replace (Init.Nat.pred (length pre + S (length l)))
    with (length pre + S (length l) - 1)%nat in Hlast by lia.
  destruct pre as [|p pre _] using rev_ind.
  - simpl. simpl in Hlast. rewrite Hlast. simpl.
    destruct b; reflexivity.
  - rewrite last_snoc. simpl default.
    rewrite length_app. simpl length.
    destruct (Nat.eqb_spec (length pre + 1) 0) as [?|_]; [lia|].
    replace (length pre + 1 - 1)%nat with (length pre) by lia.
    rewrite <- !app_assoc. simpl.
    rewrite list_lookup_middle by reflexivity. simpl default.
    rewrite andb_false_r, orb_false_r.
    destruct (Nat.eqb_spec (length pre + 1)
                (length pre + 1 + S (length l) - 1)) as [Heq|_].
    + assert (l = []) as -> by (destruct l; [reflexivity|simpl in Heq; lia]).
      rewrite length_app in Hlast. simpl in Hlast.
      replace (length pre + 1 + 1 - 1)%nat with (length (pre ++ [p]))
        in Hlast by (rewrite length_app; simpl; lia).
      rewrite list_lookup_middle in Hlast by reflexivity.
      injection Hlast as ->. destruct p; reflexivity.
    + rewrite andb_false_r, orb_false_r. destruct b, p; reflexivity.
Qed.

Lemma segment_edges_from (mask pre l : list bool) :
  mask = pre ++ l -> last mask = Some true ->
  List.filter (segment_edge mask) (seq (length pre) (length l))
  = changes (default true (last pre)) (length pre) l.
Proof.
  revert pre. induction l as [|b l IH]; intros pre -> Hlast; [reflexivity|].
  simpl. rewrite segment_edge_change by exact Hlast.
  specialize (IH (pre ++ [b])).
  rewrite length_app, last_snoc in IH. simpl in IH.
  replace (length pre + 1)%nat with (S (length pre)) in IH by lia.
  rewrite <- app_assoc in IH. simpl in IH.
  rewrite (IH eq_refl Hlast).
  destruct (xorb b _); reflexivity.
Qed.

Lemma covered_cons (s e : nat) (segs : list (nat * nat)) (k : nat) :
  covered ((s, e) :: segs) k <-> (s <= k < e)%nat \/ covered segs k.
Proof.
  unfold covered. split.
  - intros (s' & e' & Hin & Hk). apply elem_of_cons in Hin as [[= -> ->]|Hin].
    + left. exact Hk.
    + right. eauto.
  - intros [Hk|(s' & e' & Hin & Hk)].
    + exists s, e. split; [apply list_elem_of_here | exact Hk].
    + exists s', e'. split; [apply list_elem_of_further, Hin | exact Hk].
Qed.

Lemma covered_from (off : nat) (segs : list (nat * nat)) (k : nat) :
  Forall (fun se : nat * nat => (off <= se.1)%nat) segs ->
  covered segs k -> (off <= k)%nat.
Proof.
  intros Hall (s & e & Hin & Hk). rewrite Forall_forall in Hall.
  specialize (Hall _ Hin). simpl in Hall. lia.
Qed.

(** Scanning a mask that ends good: from a good sample the changes pair up
    into the runs of bad samples; from a bad one the first change closes
    the run that is open. *)
Lemma changes_segments (l : list bool) :
  forall (off : nat) (prev : bool),
    last (prev :: l) = Some true ->
    if prev then
      exists segs,
        pair_up (changes true off l) = Ok segs
        /\ Forall (fun se : nat * nat => (off <= se.1)%nat) segs
        /\ forall i : nat, l !! i = Some false <-> covered segs (off + i)
    else
      exists e rest segs,
        changes false off l = e :: rest
        /\ pair_up rest = Ok segs
        /\ (off <= e)%nat
        /\ Forall (fun se : nat * nat => (e <= se.1)%nat) segs
        /\ forall i : nat,
             l !! i = Some false
             <-> (off + i < e)%nat \/ covered segs (off + i).
Proof.
  induction l as [|b l IH]; intros off prev Hlast.
  - injection Hlast as ->. exists []. split; [reflexivity|].
    split; [constructor|].
    intros i. rewrite lookup_nil. split; [discriminate|].
    intros (s & e & Hin & _). apply elem_of_nil in Hin. contradiction.
  - assert (last (b :: l) = Some true) as Hlast'
      by (destruct l; exact Hlast).
    specialize (IH (S off) b Hlast').
    destruct prev, b; simpl changes.
    + (* good after good *)
      destruct IH as (segs & Hp & Hall & Hcov).
      exists segs. split; [exact Hp|].
      split; [eapply Forall_impl; [exact Hall|]; simpl; intros; lia|].
      intros [|i]; simpl.
      * rewrite Nat.add_0_r. split; [discriminate|].
        intros Hc. apply (covered_from (S off)) in Hc; [lia|exact Hall].
      * rewrite Nat.add_succ_r. apply Hcov.
    + (* bad after good: a segment starts *)
      destruct IH as (e & rest & segs & -> & Hp & He & Hall & Hcov).
      exists ((off, e) :: segs). cbn [pair_up]. rewrite Hp.
      split; [reflexivity|]. split.
      { constructor; [simpl; lia|].
        eapply Forall_impl; [exact Hall|]. simpl; intros; lia. }
      intros i. rewrite covered_cons. destruct i as [|i]; simpl.
      * rewrite Nat.add_0_r. split; [intros _; left; lia | reflexivity].
      * rewrite Nat.add_succ_r, Hcov. simpl. split.
        -- intros [Hlt|Hc]; [left; lia | right; exact Hc].
        -- intros [Hlt|Hc]; [left; lia | right; exact Hc].
    + (* good after bad: the open segment ends *)
      destruct IH as (segs & Hp & Hall & Hcov).
      exists off, (changes true (S off) l), segs.
      split; [reflexivity|]. split; [exact Hp|]. split; [lia|].
      split; [eapply Forall_impl; [exact Hall|]; simpl; intros; lia|].
      intros [|i]; simpl.
      * rewrite Nat.add_0_r. split; [discriminate|].
        intros [Hlt|Hc]; [lia|].
        apply (covered_from (S off)) in Hc; [lia|exact Hall].
      * rewrite Nat.add_succ_r, Hcov. simpl. split.
        -- intros Hc. right. exact Hc.
        -- intros [Hlt|Hc]; [lia | exact Hc].
    + (* bad after bad *)
      destruct IH as (e & rest & segs & -> & Hp & He & Hall & Hcov).
      exists e, rest, segs.
      split; [reflexivity|]. split; [exact Hp|]. split; [lia|].
      split; [exact Hall|].
      intros [|i]; simpl.
      * rewrite Nat.add_0_r. split; [intros _; left; lia | reflexivity].
      * rewrite Nat.add_succ_r. apply Hcov.
Qed.

(** X16: on a mask whose last sample is good, the conversion of
    [plot_raw] returns, and the segments it returns cover exactly the bad
    samples (each segment taken from its start up to, not including, its
    end). *)
Theorem bad_segments_cover_bad_samples (mask : list bool) :
  last mask = Some true ->
  exists segs,
    bad_segments_of_mask mask = Ok segs
    /\ forall i : nat, mask !! i = Some false <-> covered segs i.
Proof.
  intros Hlast. unfold bad_segments_of_mask, segment_edges.
  pose proof (segment_edges_from mask [] mask eq_refl Hlast) as Hedges.
  simpl in Hedges. rewrite Hedges.
  assert (last (true :: mask) = Some true) as Hlast'.
  { destruct mask; [discriminate|exact Hlast]. }
  destruct (changes_segments mask 0 true Hlast') as (segs & Hp & _ & Hcov).
  exists segs. split; [exact Hp|]. intros i. apply Hcov.
Qed.

Lemma bad_segments_cover_bad_samples_witness :
  bad_segments_of_mask [false; false; true; true; false; true; true]
  = Ok [(0, 2); (4, 5)]%nat
  /\ exists segs,
       bad_segments_of_mask [false; false; true; true; false; true; true]
       = Ok segs
       /\ forall i : nat,
            [false; false; true; true; false; true; true] !! i = Some false
            <-> covered segs i.
Proof.
  split; [reflexivity|].
  apply (bad_segments_cover_bad_samples
           [false; false; true; true; false; true; true]).
  reflexivity.
Defined.

(** X17: on a mask that starts good and ends bad, the first sample is
    taken for the start of a segment (the sample before it is read at
    index -1, the last one): whenever the conversion returns, its first
    segment starts at sample 0, which is not bad. *)
Theorem bad_segments_spurious_start (mask : list bool) :
  mask !! 0%nat = Some true -> last mask = Some false ->
  exists e rest,
    segment_edges mask = 0%nat :: e :: rest
    /\ (0 < e)%nat
    /\ forall segs,
         bad_segments_of_mask mask = Ok segs ->
         exists tl, segs = (0%nat, e) :: tl.
Proof.
  intros Hfirst Hlast. rewrite last_lookup in Hlast.
  assert (2 <= length mask)%nat as Hn.
  { destruct mask as [|a [|b mask]]; simpl in *; try discriminate;
      [congruence|lia]. }
  replace (Init.Nat.pred (length mask)) with (length mask - 1)%nat in Hlast
    by lia.
  assert (segment_edge mask 0 = true) as H0.
  { unfold segment_edge. simpl Nat.eqb. cbv iota.
    rewrite Hfirst, Hlast. reflexivity. }
  assert (segment_edge mask (length mask - 1) = true) as H1.
  { unfold segment_edge. rewrite Hlast. simpl default.
    rewrite Nat.eqb_refl. simpl. apply orb_true_r. }
  unfold bad_segments_of_mask, segment_edges.
  destruct (length mask) as [|n] eqn:Hlen; [lia|].
  simpl seq. simpl List.filter. rewrite H0.
  destruct (List.filter (segment_edge mask) (seq 1 n)) as [|e rest] eqn:Hf.
  - exfalso.
    assert (In (S n - 1)%nat (List.filter (segment_edge mask) (seq 1 n)))
      as Hin.
    { apply filter_In. split; [apply in_seq; lia | exact H1]. }
    rewrite Hf in Hin. exact Hin.
  - assert (In e (List.filter (segment_edge mask) (seq 1 n))) as Hin
      by (rewrite Hf; left; reflexivity).
    apply filter_In in Hin as [Hin _]. apply in_seq in Hin.
    exists e, rest. split; [reflexivity|]. split; [lia|].
    intros segs Hp. cbn [pair_up] in Hp.
    apply bind_Ok in Hp as (tl & _ & [= <-]). eauto.
Qed.

Lemma bad_segments_spurious_start_witness :
  bad_segments_of_mask [true; true; false] = Ok [(0, 2)]%nat
  /\ bad_segments_of_mask [true; true; false; false]
     = Err (IndexError "list index out of range")
  /\ exists e rest,
       segment_edges [true; true; false] = 0%nat :: e :: rest
       /\ (0 < e)%nat
       /\ forall segs,
            bad_segments_of_mask [true; true; false] = Ok segs ->
            exists tl, segs = (0%nat, e) :: tl.
Proof.
  split; [reflexivity|]. split; [reflexivity|].
  apply (bad_segments_spurious_start [true; true; false]); reflexivity.
Defined.

(** ** What [plot_raw] hands to its plotting function *)



(** ** When [plot_rr] reaches its plotting function *)

(** X19: on a series in milliseconds, [plot_rr] gets past its checks
    exactly when points or line is asked for and, if the artefacts are to
    be shown, the points are drawn and the series has two intervals at
    least. *)
Theorem plot_rr_passes_checks (C : Collaborators) (rr : ndarray)
    (line points show_artefacts : bool) :
  (exists artefacts,
      plot_rr_artefacts C rr line points "rr_ms" show_artefacts
      = Passed artefacts)
  <-> (points || line = true
       /\ (show_artefacts = true ->
           points = true /\ (2 <= length (values rr))%nat)).
Proof.
  unfold plot_rr_artefacts.
  change (negb (bool_decide
                  ("rr_ms" ∈ ["peaks"; "rr_ms"; "rr_s"; "peaks_idx"])))
    with false.
  cbv iota. split.
  - intros [a H]. destruct points, line; simpl in *; try discriminate;
      (split; [reflexivity|]); intros ->; try discriminate.
    + destruct (rr_artefacts _ _ _ _ _ _) as [rep|e] eqn:Hrun;
        [|discriminate].
      apply rr_artefacts_aligned in Hrun as [Hn _]. auto.
    + destruct (rr_artefacts _ _ _ _ _ _) as [rep|e] eqn:Hrun;
        [|discriminate].
      apply rr_artefacts_aligned in Hrun as [Hn _]. auto.
  - intros [Hpl Hshow]. destruct show_artefacts.
    + destruct (Hshow eq_refl) as [-> Hn]. simpl.
      destruct (rr_artefacts_Ok C rr (dec 13 100) (dec 17 100) (dec 52 10) Hn)
        as [rep ->]. eauto.
    + destruct points, line; simpl in *; try discriminate; eauto.
Qed.
